(** * HVM C runtime (examples/fft/complex_fft.c): a shallow embedding

    The runtime stores an interaction-net graph in a flat array of 64-bit
    words ("links") and rewrites it in place.  This development embeds the
    link codec, the per-worker heap, the graph primitives, the reducer, the
    sequential part of the normalizer, the readback printer and the CLI
    argument decoder, and states properties of them.

    Conventions.
    - A [u64] is a [Z] in [[0, 2^64)]; arithmetic that can wrap is written
      with [add64], [sub64], [mul64].
    - [mem->node] is a finite map from addresses to words; a word that was
      never written reads as 0.
    - A stack ([Stk]) is the list [data[0], ..., data[size-1]]; [stk_push] appends.
    - Operations whose C behaviour is undefined (division by zero, a shift
      by 64 or more, an index outside a fixed-size array) make the
      embedding return [None]. *)

From Stdlib Require Import ZArith Lia List Bool Ascii String.
From stdpp Require Import base option list gmap.
Import ListNotations.

#[local] Open Scope Z_scope.

(** ** Machine integers *)

Definition U64_MAX : Z := 2 ^ 64 - 1.

Definition add64 (a b : Z) : Z := (a + b) mod 2 ^ 64.
Definition sub64 (a b : Z) : Z := (a - b) mod 2 ^ 64.
Definition mul64 (a b : Z) : Z := (a * b) mod 2 ^ 64.
Definition trunc32 (a : Z) : Z := a mod 2 ^ 32.

(** ** Consts *)

Definition HEAP_SIZE : Z := 4294967296.
Definition MAX_WORKERS : Z := 12.
Definition MAX_DUPS : Z := 16777216.
Definition MAX_ARITY : Z := 256.
Definition MEM_SPACE : Z := HEAP_SIZE / 8 / MAX_WORKERS.
Definition NORMAL_SEEN_MCAP : Z := HEAP_SIZE / 8 / (8 * 8).
Definition DIRS_MCAP : Z := 0x10000.

Definition VAL : Z := 1.
Definition EXT : Z := 0x100000000.
Definition TAG : Z := 0x1000000000000000.
Definition NUM_MASK : Z := 0xFFFFFFFFFFFFFFF.

Definition DP0 : Z := 0x0.
Definition DP1 : Z := 0x1.
Definition VAR : Z := 0x2.
Definition ARG : Z := 0x3.
Definition ERA : Z := 0x4.
Definition LAM : Z := 0x5.
Definition APP : Z := 0x6.
Definition SUP : Z := 0x7.
Definition CTR : Z := 0x8.
Definition FUN : Z := 0x9.
Definition OP2 : Z := 0xA.
Definition NUM : Z := 0xB.
Definition FLO : Z := 0xC.
Definition NIL : Z := 0xF.

Definition ADD : Z := 0x0.
Definition SUB : Z := 0x1.
Definition MUL : Z := 0x2.
Definition DIV : Z := 0x3.
Definition MOD : Z := 0x4.
Definition AND : Z := 0x5.
Definition OR  : Z := 0x6.
Definition XOR : Z := 0x7.
Definition SHL : Z := 0x8.
Definition SHR : Z := 0x9.
Definition LTN : Z := 0xA.
Definition LTE : Z := 0xB.
Definition EQL : Z := 0xC.
Definition GTE : Z := 0xD.
Definition GTN : Z := 0xE.
Definition NEQ : Z := 0xF.

Definition _GENTREE_ : Z := 29.
Definition _FFT_ : Z := 32.
Definition _MAIN_ : Z := 28.
Definition _ADDRIGHTLEAF_ : Z := 33.
Definition _ADDLEFTLEAF_ : Z := 34.

(** ** Stack *)

Definition stk_init : list Z := [].

Definition stk_push (stack : list Z) (val : Z) : list Z := stack ++ [val].

(** [stk_pop] returns [-1] (as a [u64]) on an empty stack. *)
Definition stk_pop (stack : list Z) : Z * list Z :=
  match rev stack with
  | [] => (U64_MAX, stack)
  | top :: below => (top, rev below)
  end.

Fixpoint stk_find_from (i : Z) (data : list Z) (val : Z) : Z :=
  match data with
  | [] => U64_MAX
  | x :: rest => if x =? val then i else stk_find_from (i + 1) rest val
  end.

Definition stk_find (stk : list Z) (val : Z) : Z := stk_find_from 0 stk val.

(** ** Links *)

Definition Var (pos : Z) : Z := Z.lor (VAR * TAG) pos.
Definition Dp0 (col pos : Z) : Z := Z.lor (Z.lor (DP0 * TAG) (mul64 col EXT)) pos.
Definition Dp1 (col pos : Z) : Z := Z.lor (Z.lor (DP1 * TAG) (mul64 col EXT)) pos.
Definition Arg (pos : Z) : Z := Z.lor (ARG * TAG) pos.
Definition Era : Z := ERA * TAG.
Definition Lam (pos : Z) : Z := Z.lor (LAM * TAG) pos.
Definition App (pos : Z) : Z := Z.lor (APP * TAG) pos.
Definition Par (col pos : Z) : Z := Z.lor (Z.lor (SUP * TAG) (mul64 col EXT)) pos.
Definition Op2 (ope pos : Z) : Z := Z.lor (Z.lor (OP2 * TAG) (mul64 ope EXT)) pos.
Definition Num (val : Z) : Z := Z.lor (NUM * TAG) (Z.land val NUM_MASK).
Definition Nil : Z := NIL * TAG.
Definition Ctr (ari fun_ pos : Z) : Z := Z.lor (Z.lor (CTR * TAG) (mul64 fun_ EXT)) pos.
Definition Cal (ari fun_ pos : Z) : Z := Z.lor (Z.lor (FUN * TAG) (mul64 fun_ EXT)) pos.

Definition get_tag (lnk : Z) : Z := lnk / TAG.
Definition get_ext (lnk : Z) : Z := Z.land (lnk / EXT) 0xFFFFFF.
Definition get_val (lnk : Z) : Z := Z.land lnk 0xFFFFFFFF.
Definition get_num (lnk : Z) : Z := Z.land lnk 0xFFFFFFFFFFFFFFF.
Definition get_loc (lnk arg : Z) : Z := add64 (get_val lnk) arg.

(** ** Workers *)

Record Worker : Type := mkWorker {
  tid  : Z;
  node : gmap Z Z;
  size : Z;
  free : gmap Z (list Z);
  cost : Z;
  dups : Z;
  aris : list Z;
  funs : Z
}.

Definition set_node (mem : Worker) (n : gmap Z Z) : Worker :=
  mkWorker (tid mem) n (size mem) (free mem) (cost mem) (dups mem) (aris mem) (funs mem).
Definition set_size (mem : Worker) (s : Z) : Worker :=
  mkWorker (tid mem) (node mem) s (free mem) (cost mem) (dups mem) (aris mem) (funs mem).
Definition set_free (mem : Worker) (f : gmap Z (list Z)) : Worker :=
  mkWorker (tid mem) (node mem) (size mem) f (cost mem) (dups mem) (aris mem) (funs mem).
Definition set_cost (mem : Worker) (c : Z) : Worker :=
  mkWorker (tid mem) (node mem) (size mem) (free mem) c (dups mem) (aris mem) (funs mem).
Definition set_dups (mem : Worker) (d : Z) : Worker :=
  mkWorker (tid mem) (node mem) (size mem) (free mem) (cost mem) d (aris mem) (funs mem).

Definition ask_ari (mem : Worker) (lnk : Z) : Z :=
  let fid := get_ext lnk in
  if fid <? funs mem then default 0 (aris mem !! Z.to_nat fid) else 0.

Definition ask_lnk (mem : Worker) (loc : Z) : Z := default 0 (node mem !! loc).

Definition ask_arg (mem : Worker) (term arg : Z) : Z := ask_lnk mem (get_loc term arg).

Definition write (mem : Worker) (loc val : Z) : Worker :=
  set_node mem (<[loc := val]> (node mem)).

(** [link] writes [lnk] at [loc]; for DP0, DP1 and VAR it then writes
    [Arg loc] in the binder slot the link targets. *)
Definition link (mem : Worker) (loc lnk : Z) : Worker :=
  let mem := write mem loc lnk in
  if get_tag lnk <=? VAR
  then write mem (get_loc lnk (if get_tag lnk =? DP1 then 1 else 0)) (Arg loc)
  else mem.

Definition free_stk (mem : Worker) (sz : Z) : list Z := default [] (free mem !! sz).

(** [alloc]: [mem->free] has [MAX_ARITY] entries, a larger [size] indexes
    outside it. *)
Definition alloc (mem : Worker) (sz : Z) : option (Z * Worker) :=
  if sz =? 0 then Some (0, mem)
  else if MAX_ARITY <=? sz then None
  else
    let '(reuse, stk) := stk_pop (free_stk mem sz) in
    let mem := match free_stk mem sz with
               | [] => mem
               | _ => set_free mem (<[sz := stk]> (free mem))
               end in
    if negb (reuse =? U64_MAX) then Some (reuse, mem)
    else
      let loc := size mem in
      let mem := set_size mem (add64 (size mem) sz) in
      Some (add64 (mul64 (tid mem) MEM_SPACE) loc, mem).

Definition clear (mem : Worker) (loc sz : Z) : option Worker :=
  if MAX_ARITY <=? sz then None
  else Some (set_free mem (<[sz := stk_push (free_stk mem sz) loc]> (free mem))).

Definition inc_cost (mem : Worker) : Worker := set_cost mem (add64 (cost mem) 1).

Definition gen_dupk (mem : Worker) : Z * Worker :=
  (Z.land (dups mem) 0xFFFFFF, set_dups mem (add64 (dups mem) 1)).

(** ** Loops *)

(** [for_loop n i body a] runs [body i], [body (i+1)], ... [n] times,
    threading the state and stopping at the first failure. *)
Fixpoint for_loop {A : Type} (n : nat) (i : Z) (body : Z -> A -> option A) (a : A)
  : option A :=
  match n with
  | O => Some a
  | S n => a ← body i a; for_loop n (i + 1) body a
  end.

(** ** Garbage collection *)

Fixpoint collect (fuel : nat) (mem : Worker) (term : Z) : option Worker :=
  match fuel with
  | O => None
  | S fuel =>
    let tag := get_tag term in
    if tag =? DP0 then Some (link mem (get_loc term 0) Era)
    else if tag =? DP1 then Some (link mem (get_loc term 1) Era)
    else if tag =? VAR then Some (link mem (get_loc term 0) Era)
    else if tag =? LAM then
      let mem := if negb (get_tag (ask_arg mem term 0) =? ERA)
                 then link mem (get_loc (ask_arg mem term 0) 0) Era
                 else mem in
      mem ← collect fuel mem (ask_arg mem term 1);
      clear mem (get_loc term 0) 2
    else if (tag =? APP) || (tag =? SUP) || (tag =? OP2) then
      mem ← collect fuel mem (ask_arg mem term 0);
      mem ← collect fuel mem (ask_arg mem term 1);
      clear mem (get_loc term 0) 2
    else if tag =? NUM then Some mem
    else if (tag =? CTR) || (tag =? FUN) then
      let arity := ask_ari mem term in
      mem ← for_loop (Z.to_nat arity) 0
              (fun i mem => collect fuel mem (ask_arg mem term i)) mem;
      clear mem (get_loc term 0) arity
    else Some mem
  end.

(** ** Terms *)

Definition subst (fuel : nat) (mem : Worker) (lnk val : Z) : option Worker :=
  if negb (get_tag lnk =? ERA)
  then Some (link mem (get_loc lnk 0) val)
  else collect fuel mem val.

Definition cal_par (mem : Worker) (host term argn n : Z) : option (Z * Worker) :=
  let mem := inc_cost mem in
  let arit := ask_ari mem term in
  let func := get_ext term in
  let fun0 := get_loc term 0 in
  '(fun1, mem) ← alloc mem arit;
  let par0 := get_loc argn 0 in
  mem ← for_loop (Z.to_nat arit) 0
          (fun i mem =>
             if negb (i =? n) then
               '(leti, mem) ← alloc mem 3;
               let argi := ask_arg mem term i in
               let mem := link mem (add64 fun0 i) (Dp0 (get_ext argn) leti) in
               let mem := link mem (add64 fun1 i) (Dp1 (get_ext argn) leti) in
               Some (link mem (add64 leti 2) argi)
             else
               let mem := link mem (add64 fun0 i) (ask_arg mem argn 0) in
               Some (link mem (add64 fun1 i) (ask_arg mem argn 1)))
          mem;
  let mem := link mem (add64 par0 0) (Cal arit func fun0) in
  let mem := link mem (add64 par0 1) (Cal arit func fun1) in
  let done := Par (get_ext argn) par0 in
  let mem := link mem host done in
  Some (done, mem).

(** ** The reducer *)

(** The local variables of [reduce]'s loop and the worker it runs on. *)
Record Loop : Type := mkLoop {
  init  : Z;
  host  : Z;
  stack : list Z;
  wrk   : Worker
}.

(** How an iteration of the loop ends: [continue], or a [break] out of the
    tag switch, which falls to the [stk_pop] at the bottom of the loop. *)
Inductive Flow : Type := Continue | Break.

Definition set_wrk (st : Loop) (mem : Worker) : Loop :=
  mkLoop (init st) (host st) (stack st) mem.

(** [init = 1; continue] at the end of a rule. *)
Definition redo (st : Loop) (mem : Worker) : option (Flow * Loop) :=
  Some (Continue, mkLoop 1 (host st) (stack st) mem).

(** The lock of a duplication node is the [atomic_flag] at byte offset 6
    from the node's first word: on a little-endian target, bits 48..55 of
    the word in slot 0. *)
Definition FLAG_BYTE : Z := 0xFF * 2 ^ 48.

Definition atomic_flag_test_and_set (mem : Worker) (loc : Z) : bool * Worker :=
  let word := ask_lnk mem loc in
  (negb (Z.land word FLAG_BYTE =? 0),
   write mem loc (Z.lor (Z.ldiff word FLAG_BYTE) (2 ^ 48))).

Definition atomic_flag_clear (mem : Worker) (loc : Z) : Worker :=
  write mem loc (Z.ldiff (ask_lnk mem loc) FLAG_BYTE).

(** The first half of the loop body ([init == 1]). *)
Definition reduce_descent (slen : Z) (st : Loop) (term : Z) : option (Flow * Loop) :=
  let mem := wrk st in
  let tag := get_tag term in
  if tag =? APP then
    Some (Continue,
          mkLoop 1 (trunc32 (get_loc term 0)) (stk_push (stack st) (host st)) mem)
  else if (tag =? DP0) || (tag =? DP1) then
    let '(locked, mem) := atomic_flag_test_and_set mem (get_loc term 0) in
    if locked then Some (Continue, set_wrk st mem)
    else if negb (term =? ask_lnk mem (host st)) then
      Some (Continue, set_wrk st (atomic_flag_clear mem (get_loc term 0)))
    else
      Some (Continue,
            mkLoop (init st) (trunc32 (get_loc term 2)) (stk_push (stack st) (host st)) mem)
  else if tag =? OP2 then
    if (slen =? 1) || (0 <? Z.of_nat (length (stack st))) then
      let stack := stk_push (stack st) (host st) in
      let stack := stk_push stack (Z.lor (get_loc term 0) 0x80000000) in
      Some (Continue, mkLoop (init st) (trunc32 (get_loc term 1)) stack mem)
    else Some (Break, st)
  else if tag =? FUN then
    let fun_ := get_ext term in
    (* the cases of [switch (fun)] have no [break]: control entering at one
       case falls through the tests of all later ones *)
    let in_gentree := fun_ =? _GENTREE_ in
    let in_fft := in_gentree || (fun_ =? _FFT_) in
    let in_main := in_fft || (fun_ =? _MAIN_) in
    let in_addrightleaf := in_main || (fun_ =? _ADDRIGHTLEAF_) in
    let in_addleftleaf := in_addrightleaf || (fun_ =? _ADDLEFTLEAF_) in
    let force arg :=
      Some (Continue,
            mkLoop (init st) (trunc32 (get_loc term arg)) (stk_push (stack st) (host st)) mem) in
    if in_gentree && (ask_ari mem term =? 2) then force 0
    else if in_fft && (ask_ari mem term =? 1) then force 0
    else if in_main && (ask_ari mem term =? 1) then
      Some (Continue, mkLoop 0 (host st) (stack st) mem)
    else if in_addrightleaf && (ask_ari mem term =? 2) then force 1
    else if in_addleftleaf && (ask_ari mem term =? 2) then force 1
    else Some (Break, st)
  else Some (Break, st).

(** *** Interaction rules on APP *)

Definition reduce_app (fuel : nat) (st : Loop) (term : Z) : option (Flow * Loop) :=
  let mem := wrk st in
  let host := host st in
  let arg0 := ask_arg mem term 0 in
  if get_tag arg0 =? LAM then
    (* APP-LAM *)
    let mem := inc_cost mem in
    mem ← subst fuel mem (ask_arg mem arg0 0) (ask_arg mem term 1);
    let mem := link mem host (ask_arg mem arg0 1) in
    mem ← clear mem (get_loc term 0) 2;
    mem ← clear mem (get_loc arg0 0) 2;
    redo st mem
  else if get_tag arg0 =? SUP then
    (* APP-SUP *)
    let mem := inc_cost mem in
    let app0 := get_loc term 0 in
    let app1 := get_loc arg0 0 in
    '(let0, mem) ← alloc mem 3;
    '(par0, mem) ← alloc mem 2;
    let mem := link mem (add64 let0 2) (ask_arg mem term 1) in
    let mem := link mem (add64 app0 1) (Dp0 (get_ext arg0) let0) in
    let mem := link mem (add64 app0 0) (ask_arg mem arg0 0) in
    let mem := link mem (add64 app1 0) (ask_arg mem arg0 1) in
    let mem := link mem (add64 app1 1) (Dp1 (get_ext arg0) let0) in
    let mem := link mem (add64 par0 0) (App app0) in
    let mem := link mem (add64 par0 1) (App app1) in
    let done := Par (get_ext arg0) par0 in
    let mem := link mem host done in
    Some (Break, set_wrk st mem)
  else Some (Break, st).

(** *** Interaction rules on DP0 and DP1 *)

(** The rules proper; a [Break] result is followed by the release of the
    node's lock in [reduce_dup]. *)
Definition reduce_dup_rules (fuel : nat) (st : Loop) (term : Z) : option (Flow * Loop) :=
  let mem := wrk st in
  let host := host st in
  let arg0 := ask_arg mem term 2 in
  if get_tag arg0 =? LAM then
    (* DUP-LAM *)
    let mem := inc_cost mem in
    let let0 := get_loc term 0 in
    let par0 := get_loc arg0 0 in
    '(lam0, mem) ← alloc mem 2;
    '(lam1, mem) ← alloc mem 2;
    let mem := link mem (add64 let0 2) (ask_arg mem arg0 1) in
    let mem := link mem (add64 par0 1) (Var lam1) in
    let arg0_arg_0 := ask_arg mem arg0 0 in
    let mem := link mem (add64 par0 0) (Var lam0) in
    mem ← subst fuel mem arg0_arg_0 (Par (get_ext term) par0);
    let term_arg_0 := ask_arg mem term 0 in
    let mem := link mem (add64 lam0 1) (Dp0 (get_ext term) let0) in
    mem ← subst fuel mem term_arg_0 (Lam lam0);
    let term_arg_1 := ask_arg mem term 1 in
    let mem := link mem (add64 lam1 1) (Dp1 (get_ext term) let0) in
    mem ← subst fuel mem term_arg_1 (Lam lam1);
    let done := Lam (if get_tag term =? DP0 then lam0 else lam1) in
    let mem := link mem host done in
    redo st mem
  else if get_tag arg0 =? SUP then
    if get_ext term =? get_ext arg0 then
      (* DUP-SUP (equal) *)
      let mem := inc_cost mem in
      mem ← subst fuel mem (ask_arg mem term 0) (ask_arg mem arg0 0);
      mem ← subst fuel mem (ask_arg mem term 1) (ask_arg mem arg0 1);
      let mem := link mem host (ask_arg mem arg0 (if get_tag term =? DP0 then 0 else 1)) in
      mem ← clear mem (get_loc term 0) 3;
      mem ← clear mem (get_loc arg0 0) 2;
      redo st mem
    else
      (* DUP-SUP (different) *)
      let mem := inc_cost mem in
      '(par0, mem) ← alloc mem 2;
      let let0 := get_loc term 0 in
      let par1 := get_loc arg0 0 in
      '(let1, mem) ← alloc mem 3;
      let mem := link mem (add64 let0 2) (ask_arg mem arg0 0) in
      let mem := link mem (add64 let1 2) (ask_arg mem arg0 1) in
      let term_arg_0 := ask_arg mem term 0 in
      let term_arg_1 := ask_arg mem term 1 in
      let mem := link mem (add64 par1 0) (Dp1 (get_ext term) let0) in
      let mem := link mem (add64 par1 1) (Dp1 (get_ext term) let1) in
      let mem := link mem (add64 par0 0) (Dp0 (get_ext term) let0) in
      let mem := link mem (add64 par0 1) (Dp0 (get_ext term) let1) in
      mem ← subst fuel mem term_arg_0 (Par (get_ext arg0) par0);
      mem ← subst fuel mem term_arg_1 (Par (get_ext arg0) par1);
      let done := Par (get_ext arg0) (if get_tag term =? DP0 then par0 else par1) in
      let mem := link mem host done in
      Some (Break, set_wrk st mem)
  else if get_tag arg0 =? NUM then
    (* DUP-NUM *)
    let mem := inc_cost mem in
    mem ← subst fuel mem (ask_arg mem term 0) arg0;
    mem ← subst fuel mem (ask_arg mem term 1) arg0;
    mem ← clear mem (get_loc term 0) 3;
    let mem := link mem host arg0 in
    Some (Break, set_wrk st mem)
  else if get_tag arg0 =? CTR then
    (* DUP-CTR *)
    let mem := inc_cost mem in
    let func := get_ext arg0 in
    let arit := ask_ari mem arg0 in
    if arit =? 0 then
      mem ← subst fuel mem (ask_arg mem term 0) (Ctr 0 func 0);
      mem ← subst fuel mem (ask_arg mem term 1) (Ctr 0 func 0);
      mem ← clear mem (get_loc term 0) 3;
      let mem := link mem host (Ctr 0 func 0) in
      Some (Break, set_wrk st mem)
    else
      let ctr0 := get_loc arg0 0 in
      '(ctr1, mem) ← alloc mem arit;
      mem ← for_loop (Z.to_nat (sub64 arit 1)) 0
              (fun i mem =>
                 '(leti, mem) ← alloc mem 3;
                 let mem := link mem (add64 leti 2) (ask_arg mem arg0 i) in
                 let mem := link mem (add64 ctr0 i) (Dp0 (get_ext term) leti) in
                 Some (link mem (add64 ctr1 i) (Dp1 (get_ext term) leti)))
              mem;
      let leti := get_loc term 0 in
      let mem := link mem (add64 leti 2) (ask_arg mem arg0 (sub64 arit 1)) in
      let term_arg_0 := ask_arg mem term 0 in
      let mem := link mem (sub64 (add64 ctr0 arit) 1) (Dp0 (get_ext term) leti) in
      mem ← subst fuel mem term_arg_0 (Ctr arit func ctr0);
      let term_arg_1 := ask_arg mem term 1 in
      let mem := link mem (sub64 (add64 ctr1 arit) 1) (Dp1 (get_ext term) leti) in
      mem ← subst fuel mem term_arg_1 (Ctr arit func ctr1);
      let done := Ctr arit func (if get_tag term =? DP0 then ctr0 else ctr1) in
      let mem := link mem host done in
      Some (Break, set_wrk st mem)
  else if get_tag arg0 =? ERA then
    (* DUP-ERA *)
    let mem := inc_cost mem in
    mem ← subst fuel mem (ask_arg mem term 0) Era;
    mem ← subst fuel mem (ask_arg mem term 1) Era;
    let mem := link mem host Era in
    mem ← clear mem (get_loc term 0) 3;
    redo st mem
  else Some (Break, st).

Definition reduce_dup (fuel : nat) (st : Loop) (term : Z) : option (Flow * Loop) :=
  '(flow, st) ← reduce_dup_rules fuel st term;
  match flow with
  | Continue => Some (Continue, st)
  | Break => Some (Break, set_wrk st (atomic_flag_clear (wrk st) (get_loc term 0)))
  end.

(** *** Interaction rules on OP2 *)

(** The operation of OP2-NUM on two [u64] operands.  Division and remainder
    by zero and shifts by 64 or more are undefined in C. *)
Definition op2_num (ope a b : Z) : option Z :=
  if ope =? ADD then Some (Z.land (add64 a b) NUM_MASK)
  else if ope =? SUB then Some (Z.land (sub64 a b) NUM_MASK)
  else if ope =? MUL then Some (Z.land (mul64 a b) NUM_MASK)
  else if ope =? DIV then if b =? 0 then None else Some (Z.land (a / b) NUM_MASK)
  else if ope =? MOD then if b =? 0 then None else Some (Z.land (a mod b) NUM_MASK)
  else if ope =? AND then Some (Z.land (Z.land a b) NUM_MASK)
  else if ope =? OR then Some (Z.land (Z.lor a b) NUM_MASK)
  else if ope =? XOR then Some (Z.land (Z.lxor a b) NUM_MASK)
  else if ope =? SHL then
    if 64 <=? b then None else Some (Z.land (Z.shiftl a b mod 2 ^ 64) NUM_MASK)
  else if ope =? SHR then
    if 64 <=? b then None else Some (Z.land (Z.shiftr a b) NUM_MASK)
  else if ope =? LTN then Some (if a <? b then 1 else 0)
  else if ope =? LTE then Some (if a <=? b then 1 else 0)
  else if ope =? EQL then Some (if a =? b then 1 else 0)
  else if ope =? GTE then Some (if a >=? b then 1 else 0)
  else if ope =? GTN then Some (if a >? b then 1 else 0)
  else if ope =? NEQ then Some (if negb (a =? b) then 1 else 0)
  else Some 0.

Definition reduce_op2 (st : Loop) (term : Z) : option (Flow * Loop) :=
  let mem := wrk st in
  let host := host st in
  let arg0 := ask_arg mem term 0 in
  let arg1 := ask_arg mem term 1 in
  if (get_tag arg0 =? NUM) && (get_tag arg1 =? NUM) then
    (* OP2-NUM *)
    let mem := inc_cost mem in
    let a := get_num arg0 in
    let b := get_num arg1 in
    c ← op2_num (get_ext term) a b;
    let done := Num c in
    mem ← clear mem (get_loc term 0) 2;
    let mem := link mem host done in
    Some (Break, set_wrk st mem)
  else if get_tag arg0 =? SUP then
    (* OP2-SUP-0 *)
    let mem := inc_cost mem in
    let op20 := get_loc term 0 in
    let op21 := get_loc arg0 0 in
    '(let0, mem) ← alloc mem 3;
    '(par0, mem) ← alloc mem 2;
    let mem := link mem (add64 let0 2) arg1 in
    let mem := link mem (add64 op20 1) (Dp0 (get_ext arg0) let0) in
    let mem := link mem (add64 op20 0) (ask_arg mem arg0 0) in
    let mem := link mem (add64 op21 0) (ask_arg mem arg0 1) in
    let mem := link mem (add64 op21 1) (Dp1 (get_ext arg0) let0) in
    let mem := link mem (add64 par0 0) (Op2 (get_ext term) op20) in
    let mem := link mem (add64 par0 1) (Op2 (get_ext term) op21) in
    let done := Par (get_ext arg0) par0 in
    let mem := link mem host done in
    Some (Break, set_wrk st mem)
  else if get_tag arg1 =? SUP then
    (* OP2-SUP-1 *)
    let mem := inc_cost mem in
    let op20 := get_loc term 0 in
    let op21 := get_loc arg1 0 in
    '(let0, mem) ← alloc mem 3;
    '(par0, mem) ← alloc mem 2;
    let mem := link mem (add64 let0 2) arg0 in
    let mem := link mem (add64 op20 0) (Dp0 (get_ext arg1) let0) in
    let mem := link mem (add64 op20 1) (ask_arg mem arg1 0) in
    let mem := link mem (add64 op21 1) (ask_arg mem arg1 1) in
    let mem := link mem (add64 op21 0) (Dp1 (get_ext arg1) let0) in
    let mem := link mem (add64 par0 0) (Op2 (get_ext term) op20) in
    let mem := link mem (add64 par0 1) (Op2 (get_ext term) op21) in
    let done := Par (get_ext arg1) par0 in
    let mem := link mem host done in
    Some (Break, set_wrk st mem)
  else Some (Break, st).

(** *** Generated rewrite rules *)

(** The generated code for a variable used twice on a right-hand side:
    a number is copied, anything else is shared by a fresh duplication. *)
Definition rule_copy (mem : Worker) (cpy : Z) : option (Z * Z * Worker) :=
  if get_tag cpy =? NUM then Some (cpy, cpy, inc_cost mem)
  else
    '(dup, mem) ← alloc mem 3;
    let '(col, mem) := gen_dupk mem in
    let mem := link mem (add64 dup 2) cpy in
    Some (Dp0 col dup, Dp1 col dup, mem).

(** The generated code for [(- x k)] with a literal [k]. *)
Definition rule_sub (mem : Worker) (x k : Z) : option (Z * Worker) :=
  if (get_tag x =? NUM) && (get_tag (Num k) =? NUM) then
    Some (Num (sub64 (get_num x) (get_num (Num k))), inc_cost mem)
  else
    '(op2, mem) ← alloc mem 2;
    let mem := link mem (add64 op2 0) x in
    let mem := link mem (add64 op2 1) (Num k) in
    Some (Op2 SUB op2, mem).

Definition rule_gentree (st : Loop) (term : Z) : option (Flow * Loop) :=
  let mem := wrk st in
  let host := host st in
  if get_tag (ask_arg mem term 0) =? SUP then
    '(_, mem) ← cal_par mem host term (ask_arg mem term 0) 0;
    Some (Continue, set_wrk st mem)
  else if (get_tag (ask_arg mem term 0) =? NUM) && (get_num (ask_arg mem term 0) =? 0) then
    let mem := inc_cost mem in
    let done := ask_arg mem term 1 in
    let mem := link mem host done in
    mem ← clear mem (get_loc term 0) 2;
    redo st mem
  else if (get_tag (ask_arg mem term 0) =? NUM) && (get_num (ask_arg mem term 0) =? 1) then
    let mem := inc_cost mem in
    let done := ask_arg mem term 1 in
    let mem := link mem host done in
    mem ← clear mem (get_loc term 0) 2;
    redo st mem
  else if (get_tag (ask_arg mem term 0) =? NUM) && (get_num (ask_arg mem term 0) =? 2) then
    let mem := inc_cost mem in
    '(cal_0, mem) ← alloc mem 2;
    let mem := link mem (add64 cal_0 0) (Num 2) in
    let mem := link mem (add64 cal_0 1) (ask_arg mem term 1) in
    '(cal_1, mem) ← alloc mem 2;
    let mem := link mem (add64 cal_1 0) (Num 1) in
    let mem := link mem (add64 cal_1 1) (Cal 2 33 cal_0) in
    let done := Cal 2 34 cal_1 in
    let mem := link mem host done in
    mem ← clear mem (get_loc term 0) 2;
    redo st mem
  else if (get_tag (ask_arg mem term 0) =? CTR) || (get_tag (ask_arg mem term 0) =? NUM) then
    let mem := inc_cost mem in
    let cpy_0 := ask_arg mem term 0 in
    '(dp0_1, dp1_2, mem) ← rule_copy mem cpy_0;
    let cpy_5 := dp0_1 in
    '(dp0_6, dp1_7, mem) ← rule_copy mem cpy_5;
    '(ret_10, mem) ← rule_sub mem dp1_2 2;
    '(ret_12, mem) ← rule_sub mem dp0_6 1;
    '(cal_14, mem) ← alloc mem 2;
    let mem := link mem (add64 cal_14 0) dp1_7 in
    let mem := link mem (add64 cal_14 1) (ask_arg mem term 1) in
    '(cal_15, mem) ← alloc mem 2;
    let mem := link mem (add64 cal_15 0) ret_12 in
    let mem := link mem (add64 cal_15 1) (Cal 2 33 cal_14) in
    '(cal_16, mem) ← alloc mem 2;
    let mem := link mem (add64 cal_16 0) ret_10 in
    let mem := link mem (add64 cal_16 1) (Cal 2 34 cal_15) in
    let done := Cal 2 29 cal_16 in
    let mem := link mem host done in
    mem ← clear mem (get_loc term 0) 2;
    redo st mem
  else Some (Break, st).

Definition rule_fft (st : Loop) (term : Z) : option (Flow * Loop) :=
  let mem := wrk st in
  let host := host st in
  if get_tag (ask_arg mem term 0) =? SUP then
    '(_, mem) ← cal_par mem host term (ask_arg mem term 0) 0;
    Some (Continue, set_wrk st mem)
  else if (get_tag (ask_arg mem term 0) =? CTR) && (get_ext (ask_arg mem term 0) =? 31) then
    let mem := inc_cost mem in
    '(ctr_0, mem) ← alloc mem 1;
    let mem := link mem (add64 ctr_0 0) (ask_arg mem (ask_arg mem term 0) 0) in
    let done := Ctr 1 31 ctr_0 in
    let mem := link mem host done in
    mem ← clear mem (get_loc term 0) 1;
    mem ← clear mem (get_loc (ask_arg mem term 0) 0) 1;
    redo st mem
  else if (get_tag (ask_arg mem term 0) =? CTR) && (get_ext (ask_arg mem term 0) =? 30) then
    let mem := inc_cost mem in
    let cpy_0 := ask_arg mem (ask_arg mem term 0) 1 in
    '(dp0_1, dp1_2, mem) ← rule_copy mem cpy_0;
    let cpy_5 := ask_arg mem (ask_arg mem term 0) 0 in
    '(dp0_6, dp1_7, mem) ← rule_copy mem cpy_5;
    '(cal_13, mem) ← alloc mem 1;
    let mem := link mem (add64 cal_13 0) dp0_6 in
    let cpy_10 := Cal 1 32 cal_13 in
    '(dp0_11, dp1_12, mem) ← rule_copy mem cpy_10;
    '(cal_16, mem) ← alloc mem 1;
    let mem := link mem (add64 cal_16 0) dp0_1 in
    '(ctr_20, mem) ← alloc mem 2;
    let mem := link mem (add64 ctr_20 0) dp1_7 in
    let mem := link mem (add64 ctr_20 1) dp1_2 in
    '(ctr_21, mem) ← alloc mem 1;
    let mem := link mem (add64 ctr_21 0) (Ctr 2 30 ctr_20) in
    let cpy_17 := Ctr 1 35 ctr_21 in
    '(dp0_18, dp1_19, mem) ← rule_copy mem cpy_17;
    '(lam_24, mem) ← alloc mem 2;
    '(ctr_25, mem) ← alloc mem 2;
    let mem := link mem (add64 ctr_25 0) dp0_18 in
    let mem := link mem (add64 ctr_25 1) (Var lam_24) in
    let mem := link mem (add64 lam_24 1) (Ctr 2 37 ctr_25) in
    '(ctr_26, mem) ← alloc mem 2;
    let mem := link mem (add64 ctr_26 0) (Num 0) in
    let mem := link mem (add64 ctr_26 1) dp1_19 in
    '(ctr_27, mem) ← alloc mem 2;
    let mem := link mem (add64 ctr_27 0) (Lam lam_24) in
    let mem := link mem (add64 ctr_27 1) (Ctr 2 38 ctr_26) in
    '(lam_31, mem) ← alloc mem 2;
    '(lam_32, mem) ← alloc mem 2;
    '(ctr_33, mem) ← alloc mem 2;
    let mem := link mem (add64 ctr_33 0) (Var lam_31) in
    let mem := link mem (add64 ctr_33 1) (Var lam_32) in
    let mem := link mem (add64 lam_32 1) (Ctr 2 40 ctr_33) in
    let mem := link mem (add64 lam_31 1) (Lam lam_32) in
    '(ctr_34, mem) ← alloc mem 3;
    let mem := link mem (add64 ctr_34 0) (Lam lam_31) in
    let mem := link mem (add64 ctr_34 1) (Ctr 2 36 ctr_27) in
    let mem := link mem (add64 ctr_34 2) (Cal 1 32 cal_16) in
    let cpy_28 := Ctr 3 39 ctr_34 in
    '(dp0_29, dp1_30, mem) ← rule_copy mem cpy_28;
    '(lam_37, mem) ← alloc mem 2;
    '(lam_38, mem) ← alloc mem 2;
    '(ctr_39, mem) ← alloc mem 2;
    let mem := link mem (add64 ctr_39 0) (Var lam_37) in
    let mem := link mem (add64 ctr_39 1) (Var lam_38) in
    let mem := link mem (add64 lam_38 1) (Ctr 2 41 ctr_39) in
    let mem := link mem (add64 lam_37 1) (Lam lam_38) in
    '(ctr_40, mem) ← alloc mem 3;
    let mem := link mem (add64 ctr_40 0) (Lam lam_37) in
    let mem := link mem (add64 ctr_40 1) dp0_11 in
    let mem := link mem (add64 ctr_40 2) dp0_29 in
    '(lam_41, mem) ← alloc mem 2;
    '(lam_42, mem) ← alloc mem 2;
    '(ctr_43, mem) ← alloc mem 2;
    let mem := link mem (add64 ctr_43 0) (Var lam_41) in
    let mem := link mem (add64 ctr_43 1) (Var lam_42) in
    let mem := link mem (add64 lam_42 1) (Ctr 2 42 ctr_43) in
    let mem := link mem (add64 lam_41 1) (Lam lam_42) in
    '(ctr_44, mem) ← alloc mem 3;
    let mem := link mem (add64 ctr_44 0) (Lam lam_41) in
    let mem := link mem (add64 ctr_44 1) dp1_12 in
    let mem := link mem (add64 ctr_44 2) dp1_30 in
    '(ctr_45, mem) ← alloc mem 2;
    let mem := link mem (add64 ctr_45 0) (Ctr 3 39 ctr_40) in
    let mem := link mem (add64 ctr_45 1) (Ctr 3 39 ctr_44) in
    let done := Ctr 2 30 ctr_45 in
    let mem := link mem host done in
    mem ← clear mem (get_loc term 0) 1;
    mem ← clear mem (get_loc (ask_arg mem term 0) 0) 2;
    redo st mem
  else Some (Break, st).

Definition rule_main (fuel : nat) (st : Loop) (term : Z) : option (Flow * Loop) :=
  let mem := wrk st in
  let host := host st in
  let mem := inc_cost mem in
  '(ctr_0, mem) ← alloc mem 1;
  let mem := link mem (add64 ctr_0 0) (Num 0) in
  '(ctr_1, mem) ← alloc mem 1;
  let mem := link mem (add64 ctr_1 0) (Num 1) in
  '(ctr_2, mem) ← alloc mem 2;
  let mem := link mem (add64 ctr_2 0) (Ctr 1 31 ctr_0) in
  let mem := link mem (add64 ctr_2 1) (Ctr 1 31 ctr_1) in
  '(cal_3, mem) ← alloc mem 2;
  let mem := link mem (add64 cal_3 0) (Num 1048) in
  let mem := link mem (add64 cal_3 1) (Ctr 2 30 ctr_2) in
  '(cal_4, mem) ← alloc mem 1;
  let mem := link mem (add64 cal_4 0) (Cal 2 29 cal_3) in
  let done := Cal 1 32 cal_4 in
  let mem := link mem host done in
  mem ← clear mem (get_loc term 0) 1;
  mem ← collect fuel mem (ask_arg mem term 0);
  redo st mem.

Definition rule_addrightleaf (st : Loop) (term : Z) : option (Flow * Loop) :=
  let mem := wrk st in
  let host := host st in
  if get_tag (ask_arg mem term 1) =? SUP then
    '(_, mem) ← cal_par mem host term (ask_arg mem term 1) 1;
    Some (Continue, set_wrk st mem)
  else if (get_tag (ask_arg mem term 1) =? CTR) && (get_ext (ask_arg mem term 1) =? 31) then
    let mem := inc_cost mem in
    '(ctr_0, mem) ← alloc mem 1;
    let mem := link mem (add64 ctr_0 0) (ask_arg mem (ask_arg mem term 1) 0) in
    '(ctr_1, mem) ← alloc mem 1;
    let mem := link mem (add64 ctr_1 0) (ask_arg mem term 0) in
    '(ctr_2, mem) ← alloc mem 2;
    let mem := link mem (add64 ctr_2 0) (Ctr 1 31 ctr_0) in
    let mem := link mem (add64 ctr_2 1) (Ctr 1 31 ctr_1) in
    let done := Ctr 2 30 ctr_2 in
    let mem := link mem host done in
    mem ← clear mem (get_loc term 0) 2;
    mem ← clear mem (get_loc (ask_arg mem term 1) 0) 1;
    redo st mem
  else if (get_tag (ask_arg mem term 1) =? CTR) && (get_ext (ask_arg mem term 1) =? 30) then
    let mem := inc_cost mem in
    '(cal_0, mem) ← alloc mem 2;
    let mem := link mem (add64 cal_0 0) (ask_arg mem term 0) in
    let mem := link mem (add64 cal_0 1) (ask_arg mem (ask_arg mem term 1) 1) in
    '(ctr_1, mem) ← alloc mem 2;
    let mem := link mem (add64 ctr_1 0) (ask_arg mem (ask_arg mem term 1) 0) in
    let mem := link mem (add64 ctr_1 1) (Cal 2 33 cal_0) in
    let done := Ctr 2 30 ctr_1 in
    let mem := link mem host done in
    mem ← clear mem (get_loc term 0) 2;
    mem ← clear mem (get_loc (ask_arg mem term 1) 0) 2;
    redo st mem
  else Some (Break, st).

Definition rule_addleftleaf (st : Loop) (term : Z) : option (Flow * Loop) :=
  let mem := wrk st in
  let host := host st in
  if get_tag (ask_arg mem term 1) =? SUP then
    '(_, mem) ← cal_par mem host term (ask_arg mem term 1) 1;
    Some (Continue, set_wrk st mem)
  else if (get_tag (ask_arg mem term 1) =? CTR) && (get_ext (ask_arg mem term 1) =? 31) then
    let mem := inc_cost mem in
    '(ctr_0, mem) ← alloc mem 1;
    let mem := link mem (add64 ctr_0 0) (ask_arg mem term 0) in
    '(ctr_1, mem) ← alloc mem 1;
    let mem := link mem (add64 ctr_1 0) (ask_arg mem (ask_arg mem term 1) 0) in
    '(ctr_2, mem) ← alloc mem 2;
    let mem := link mem (add64 ctr_2 0) (Ctr 1 31 ctr_0) in
    let mem := link mem (add64 ctr_2 1) (Ctr 1 31 ctr_1) in
    let done := Ctr 2 30 ctr_2 in
    let mem := link mem host done in
    mem ← clear mem (get_loc term 0) 2;
    mem ← clear mem (get_loc (ask_arg mem term 1) 0) 1;
    redo st mem
  else if (get_tag (ask_arg mem term 1) =? CTR) && (get_ext (ask_arg mem term 1) =? 30) then
    let mem := inc_cost mem in
    '(cal_0, mem) ← alloc mem 2;
    let mem := link mem (add64 cal_0 0) (ask_arg mem term 0) in
    let mem := link mem (add64 cal_0 1) (ask_arg mem (ask_arg mem term 1) 0) in
    '(ctr_1, mem) ← alloc mem 2;
    let mem := link mem (add64 ctr_1 0) (Cal 2 34 cal_0) in
    let mem := link mem (add64 ctr_1 1) (ask_arg mem (ask_arg mem term 1) 1) in
    let done := Ctr 2 30 ctr_1 in
    let mem := link mem host done in
    mem ← clear mem (get_loc term 0) 2;
    mem ← clear mem (get_loc (ask_arg mem term 1) 0) 2;
    redo st mem
  else Some (Break, st).

(** The second [switch (fun)]: here every case ends in [break]. *)
Definition reduce_fun (fuel : nat) (st : Loop) (term : Z) : option (Flow * Loop) :=
  let fun_ := get_ext term in
  if fun_ =? _GENTREE_ then rule_gentree st term
  else if fun_ =? _FFT_ then rule_fft st term
  else if fun_ =? _MAIN_ then rule_main fuel st term
  else if fun_ =? _ADDRIGHTLEAF_ then rule_addrightleaf st term
  else if fun_ =? _ADDLEFTLEAF_ then rule_addleftleaf st term
  else Some (Break, st).

(** The second half of the loop body ([init != 1]). *)
Definition reduce_ascent (fuel : nat) (st : Loop) (term : Z) : option (Flow * Loop) :=
  let tag := get_tag term in
  if tag =? APP then reduce_app fuel st term
  else if (tag =? DP0) || (tag =? DP1) then reduce_dup fuel st term
  else if tag =? OP2 then reduce_op2 st term
  else if tag =? FUN then reduce_fun fuel st term
  else Some (Break, st).

(** One pass through the body of [while (1)], up to [continue] or to the
    [break] out of the tag switch. *)
Definition reduce_body (fuel : nat) (slen : Z) (st : Loop) : option (Flow * Loop) :=
  let term := ask_lnk (wrk st) (host st) in
  if init st =? 1 then reduce_descent slen st term
  else reduce_ascent fuel st term.

(** The bottom of the loop: pop the next host, or leave the loop when the
    stack is empty ([inr]). *)
Definition reduce_pop (st : Loop) : Loop + Worker :=
  let '(item, stack) := stk_pop (stack st) in
  if item =? U64_MAX then inr (wrk st)
  else inl (mkLoop (Z.shiftr item 31) (trunc32 (Z.land item 0x7FFFFFFF)) stack (wrk st)).

(** One iteration of the loop. *)
Definition reduce_step (fuel : nat) (slen : Z) (st : Loop) : option (Loop + Worker) :=
  '(flow, st) ← reduce_body fuel slen st;
  match flow with
  | Continue => Some (inl st)
  | Break => Some (reduce_pop st)
  end.

Fixpoint reduce_loop (fuel : nat) (slen : Z) (st : Loop) : option Worker :=
  match fuel with
  | O => None
  | S fuel' =>
    r ← reduce_step fuel slen st;
    match r with
    | inl st => reduce_loop fuel' slen st
    | inr mem => Some mem
    end
  end.

(** [reduce]: [fuel] bounds the number of iterations of the loop and the
    depth of [collect]. *)
Definition reduce (fuel : nat) (mem : Worker) (root slen : Z) : option (Z * Worker) :=
  mem ← reduce_loop fuel slen (mkLoop 1 (trunc32 root) stk_init mem);
  Some (ask_lnk mem root, mem).

(** ** The normalizer *)

Definition set_bit (bits : gmap Z Z) (bit : Z) : gmap Z Z :=
  <[Z.shiftr bit 6 :=
      Z.lor (default 0 (bits !! Z.shiftr bit 6)) (Z.shiftl 1 (Z.land bit 0x3f))]> bits.

Definition get_bit (bits : gmap Z Z) (bit : Z) : Z :=
  Z.land (Z.shiftr (default 0 (bits !! Z.shiftr bit 6)) (Z.land bit 0x3F)) 1.

(** [normal_init] zeroes [normal_seen_data]. *)
Definition normal_init : gmap Z Z := ∅.

Fixpoint for_each {A B : Type} (l : list B) (body : B -> A -> option A) (a : A)
  : option A :=
  match l with
  | [] => Some a
  | x :: l => a ← body x a; for_each l body a
  end.

(** The addresses [normal_go] recurses into ([rec_locs], which has room
    for 16).  The OP2 case has its [break] inside [if (slen > 1)]:
    otherwise control falls into the CTR/FUN case. *)
Definition normal_rec_locs (mem : Worker) (term slen : Z) : option (list Z) :=
  let tag := get_tag term in
  let by_arity :=
    let arity := ask_ari mem term in
    if 16 <? arity then None
    else Some (map (fun i => get_loc term (Z.of_nat i)) (seq 0 (Z.to_nat arity))) in
  if tag =? LAM then Some [get_loc term 1]
  else if (tag =? APP) || (tag =? SUP) then Some [get_loc term 0; get_loc term 1]
  else if (tag =? DP0) || (tag =? DP1) then Some [get_loc term 2]
  else if tag =? OP2 then
    if 1 <? slen then Some [get_loc term 0; get_loc term 1] else by_arity
  else if (tag =? CTR) || (tag =? FUN) then by_arity
  else Some [].

(** [normal_go] on one thread.  The state is the worker and the global
    [normal_seen_data].  The branch that hands children to other threads
    ([normal_fork], [normal_join]) is concurrent and is not embedded: the
    function is undefined ([None]) where the C code takes it. *)
Fixpoint normal_go (fuel : nat) (host sidx slen : Z) (s : Worker * gmap Z Z)
  : option (Z * (Worker * gmap Z Z)) :=
  match fuel with
  | O => None
  | S fuel' =>
    let '(mem, seen) := s in
    let term := ask_lnk mem host in
    if NORMAL_SEEN_MCAP <=? Z.shiftr host 6 then None
    else if negb (get_bit seen host =? 0) then Some (term, (mem, seen))
    else
      '(term, mem) ← reduce fuel mem host slen;
      let seen := set_bit seen host in
      rec_locs ← normal_rec_locs mem term slen;
      let rec_size := Z.of_nat (length rec_locs) in
      if (2 <=? rec_size) && (rec_size <=? slen) then None
      else
        s ← for_each rec_locs
              (fun loc '(mem, seen) =>
                 '(done, (mem, seen)) ← normal_go fuel' loc sidx slen (mem, seen);
                 Some (link mem loc done, seen))
              (mem, seen);
        Some (term, s)
  end.

(** The [while (1)] of [normal]. *)
Fixpoint normal_loop (fuel gas : nat) (host cost_ : Z) (mem : Worker)
  : option (Z * (Worker * gmap Z Z)) :=
  match gas with
  | O => None
  | S gas =>
    '(done, (mem, seen)) ← normal_go fuel host 0 1 (mem, normal_init);
    if negb (cost mem =? cost_) then normal_loop fuel gas host (cost mem) mem
    else Some (done, (mem, seen))
  end.

(** [normal]: [fuel] bounds every loop and recursion below it. *)
Definition normal (fuel : nat) (mem : Worker) (host sidx slen : Z)
  : option (Z * (Worker * gmap Z Z)) :=
  '(_, (mem, _)) ← normal_go fuel host sidx slen (mem, normal_init);
  normal_loop fuel fuel host (cost mem) mem.

(** [ffi_normal] initialises worker [t] like this. *)
Definition ffi_worker (t : Z) (mem_data : gmap Z Z) (mem_size : Z)
    (id_to_arity_data : list Z) (id_to_arity_size : Z) : Worker :=
  mkWorker t mem_data (if t =? 0 then mem_size else 0) ∅ 0
           (mul64 MAX_DUPS t / MAX_WORKERS) id_to_arity_data id_to_arity_size.

(** ** Readback *)

(** Characters are the [u64] codes pushed on [chrs]. *)
Definition chr (c : ascii) : Z := Z.of_N (N_of_ascii c).

Definition codes (s : string) : list Z := map chr (list_ascii_of_string s).

Definition text (chrs : list Z) : string :=
  string_of_list_ascii (map (fun c => ascii_of_N (Z.to_N c)) chrs).

Fixpoint readback_vars (fuel : nat) (mem : Worker) (term : Z) (s : list Z * list Z)
  : option (list Z * list Z) :=
  match fuel with
  | O => None
  | S fuel =>
    let '(vars, seen) := s in
    if negb (stk_find seen term =? U64_MAX) then Some (vars, seen)
    else
      let seen := stk_push seen term in
      let tag := get_tag term in
      if tag =? LAM then
        let argm := ask_arg mem term 0 in
        let body := ask_arg mem term 1 in
        let vars := if negb (get_tag argm =? ERA)
                    then stk_push vars (Var (get_loc term 0)) else vars in
        readback_vars fuel mem body (vars, seen)
      else if (tag =? APP) || (tag =? SUP) || (tag =? OP2) then
        s ← readback_vars fuel mem (ask_arg mem term 0) (vars, seen);
        readback_vars fuel mem (ask_arg mem term 1) s
      else if (tag =? DP0) || (tag =? DP1) then
        readback_vars fuel mem (ask_arg mem term 2) (vars, seen)
      else if (tag =? CTR) || (tag =? FUN) then
        let arity := ask_ari mem term in
        for_loop (Z.to_nat arity) 0
          (fun i s => readback_vars fuel mem (ask_arg mem term i) s) (vars, seen)
      else Some (vars, seen)
  end.

(** A [u64] has at most 20 decimal digits. *)
Fixpoint readback_decimal_go (digits : nat) (chrs : list Z) (n : Z) : list Z :=
  match digits with
  | O => chrs
  | S digits =>
    if 0 <? n
    then stk_push (readback_decimal_go digits chrs (n / 10)) (chr "0" + n mod 10)
    else chrs
  end.

Definition readback_decimal (chrs : list Z) (n : Z) : list Z :=
  if n =? 0 then stk_push chrs (chr "0") else readback_decimal_go 20 chrs n.

Definition op2_symbol (ope : Z) : list Z :=
  if ope =? ADD then codes "+"
  else if ope =? SUB then codes "-"
  else if ope =? MUL then codes "*"
  else if ope =? DIV then codes "/"
  else if ope =? MOD then codes "%"
  else if ope =? AND then codes "&"
  else if ope =? OR then codes "|"
  else if ope =? XOR then codes "^"
  else if ope =? SHL then codes "<<"
  else if ope =? SHR then codes ">>"
  else if ope =? LTN then codes "<"
  else if ope =? LTE then codes "<="
  else if ope =? EQL then codes "=="
  else if ope =? GTE then codes ">="
  else if ope =? GTN then codes ">"
  else if ope =? NEQ then codes "!="
  else [].

(** [readback_term] threads the output [chrs] and the direction stacks
    [dirs], the array of [DIRS_MCAP] stacks indexed by color; an index
    outside the array is undefined. *)
Fixpoint readback_term (fuel : nat) (mem : Worker) (term : Z) (vars : list Z)
    (id_to_name_data : list (option string)) (id_to_name_mcap : Z)
    (s : list Z * list (list Z)) : option (list Z * list (list Z)) :=
  match fuel with
  | O => None
  | S fuel =>
    let go term s := readback_term fuel mem term vars id_to_name_data id_to_name_mcap s in
    let '(chrs, dirs) := s in
    let tag := get_tag term in
    if tag =? LAM then
      let chrs := stk_push chrs (chr "@") in
      let chrs :=
        if get_tag (ask_arg mem term 0) =? ERA then stk_push chrs (chr "_")
        else readback_decimal (stk_push chrs (chr "x")) (stk_find vars (Var (get_loc term 0))) in
      let chrs := stk_push chrs (chr " ") in
      go (ask_arg mem term 1) (chrs, dirs)
    else if tag =? APP then
      let chrs := stk_push chrs (chr "(") in
      '(chrs, dirs) ← go (ask_arg mem term 0) (chrs, dirs);
      let chrs := stk_push chrs (chr " ") in
      '(chrs, dirs) ← go (ask_arg mem term 1) (chrs, dirs);
      Some (stk_push chrs (chr ")"), dirs)
    else if tag =? SUP then
      let col := Z.to_nat (get_ext term) in
      dirs_col ← dirs !! col;
      if 0 <? Z.of_nat (length dirs_col) then
        let '(head, stk) := stk_pop dirs_col in
        let dirs := <[col := stk]> dirs in
        if head =? 0 then
          '(chrs, dirs) ← go (ask_arg mem term 0) (chrs, dirs);
          dirs_col ← dirs !! col;
          Some (chrs, <[col := stk_push dirs_col head]> dirs)
        else
          '(chrs, dirs) ← go (ask_arg mem term 1) (chrs, dirs);
          dirs_col ← dirs !! col;
          Some (chrs, <[col := stk_push dirs_col head]> dirs)
      else
        let chrs := stk_push chrs (chr "<") in
        '(chrs, dirs) ← go (ask_arg mem term 0) (chrs, dirs);
        let chrs := stk_push chrs (chr " ") in
        '(chrs, dirs) ← go (ask_arg mem term 1) (chrs, dirs);
        Some (stk_push chrs (chr ">"), dirs)
    else if (tag =? DP0) || (tag =? DP1) then
      let col := Z.to_nat (get_ext term) in
      dirs_col ← dirs !! col;
      let dirs := <[col := stk_push dirs_col (if tag =? DP0 then 0 else 1)]> dirs in
      '(chrs, dirs) ← go (ask_arg mem term 2) (chrs, dirs);
      dirs_col ← dirs !! col;
      Some (chrs, <[col := snd (stk_pop dirs_col)]> dirs)
    else if tag =? OP2 then
      let chrs := stk_push chrs (chr "(") in
      '(chrs, dirs) ← go (ask_arg mem term 0) (chrs, dirs);
      let chrs := chrs ++ op2_symbol (get_ext term) in
      '(chrs, dirs) ← go (ask_arg mem term 1) (chrs, dirs);
      Some (stk_push chrs (chr ")"), dirs)
    else if tag =? NUM then Some (readback_decimal chrs (get_num term), dirs)
    else if (tag =? CTR) || (tag =? FUN) then
      let func := get_ext term in
      let arit := ask_ari mem term in
      let chrs := stk_push chrs (chr "(") in
      let chrs :=
        match (if func <? id_to_name_mcap
               then mjoin (id_to_name_data !! Z.to_nat func) else None) with
        | Some name => chrs ++ codes name
        | None => readback_decimal (stk_push chrs (chr "$")) func
        end in
      '(chrs, dirs) ← for_loop (Z.to_nat arit) 0
                        (fun i '(chrs, dirs) =>
                           go (ask_arg mem term i) (stk_push chrs (chr " "), dirs))
                        (chrs, dirs);
      Some (stk_push chrs (chr ")"), dirs)
    else if tag =? VAR then
      Some (readback_decimal (stk_push chrs (chr "x")) (stk_find vars term), dirs)
    else Some (stk_push chrs (chr "?"), dirs)
  end.

(** The stores [code_data[i] = v] of the last two statements of
    [readback], in program order, as pairs [(i, v)]. *)
Definition readback_stores (chrs : list Z) (code_mcap : Z) : list (Z * Z) :=
  let chrs_size := Z.of_nat (length chrs) in
  imap (fun i c => (Z.of_nat i, c mod 256)) (take (Z.to_nat code_mcap) chrs)
  ++ [((if chrs_size <? code_mcap then chrs_size else code_mcap), chr "000")].

(** [readback] as the list of its stores into [code_data]. *)
Definition readback (fuel : nat) (code_mcap : Z) (mem : Worker) (term : Z)
    (id_to_name_data : list (option string)) (id_to_name_mcap : Z)
  : option (list (Z * Z)) :=
  '(vars, _) ← readback_vars fuel mem term (stk_init, stk_init);
  let dirs := replicate (Z.to_nat DIRS_MCAP) stk_init in
  '(chrs, _) ← readback_term fuel mem term vars id_to_name_data id_to_name_mcap (stk_init, dirs);
  Some (readback_stores chrs code_mcap).

(** ** Main *)

Definition LONG_MAX : Z := 2 ^ 63 - 1.
Definition LONG_MIN : Z := - 2 ^ 63.

Definition is_digit (c : Z) : bool := (chr "0" <=? c) && (c <=? chr "9").
Definition is_space (c : Z) : bool := (c =? 32) || ((9 <=? c) && (c <=? 13)).

Fixpoint skip_space (s : list Z) : list Z :=
  match s with
  | c :: rest => if is_space c then skip_space rest else s
  | [] => []
  end.

Fixpoint digits_value (acc : Z) (s : list Z) : Z :=
  match s with
  | c :: rest => if is_digit c then digits_value (acc * 10 + (c - chr "0")) rest else acc
  | [] => acc
  end.

(** [strtol(code, 0, 10)] belongs to the C library, not to the runtime;
    this is ISO C's description of it for a 64-bit [long]: white space is
    skipped, an optional sign is read, then the longest run of decimal
    digits; a value out of range is clamped to [LONG_MIN] or [LONG_MAX]. *)
Definition strtol (code : list Z) : Z :=
  let s := skip_space code in
  let '(negative, s) :=
    match s with
    | c :: rest => if c =? chr "-" then (true, rest)
                   else if c =? chr "+" then (false, rest) else (false, s)
    | [] => (false, s)
    end in
  let v := digits_value 0 s in
  if negative then Z.max (- v) LONG_MIN else Z.min v LONG_MAX.

(** [code] is the token without its terminating NUL, so [code[0]] of the
    empty token is 0.  The [long] result is converted to [u64].  The name
    table is passed and not used. *)
Definition parse_arg (code : string) (id_to_name_data : list (option string))
    (id_to_name_size : Z) : Z :=
  let code := codes code in
  if (chr "0" <=? hd 0 code) && (hd 0 code <=? chr "9")
  then Num (strtol code mod 2 ^ 64)
  else Num 0.

(** [id_to_arity_data] as [main] fills it; the entries [main] leaves
    uninitialised (10 to 27) are 0 here. *)
Definition id_to_arity_size : Z := 43.
Definition id_to_arity_data : list Z :=
  [2; 2; 0; 2; 1; 1; 2; 3; 3; 2;
   0; 0; 0; 0; 0; 0; 0; 0; 0; 0; 0; 0; 0; 0; 0; 0; 0; 0;
   1; 2; 2; 1; 1; 2; 2; 1; 2; 2; 2; 3; 2; 2; 2].

Definition id_to_name_size : Z := 43.
Definition id_to_name_data : list (option string) :=
  map Some
    ["HVM.log"; "HVM.put"; "String.nil"; "String.cons"; "IO.done"; "IO.do_input";
     "IO.do_output"; "IO.do_fetch"; "IO.do_store"; "IO.do_load";
     "Kind.Term.ct0"; "Kind.Term.ct1"; "Kind.Term.ct2"; "Kind.Term.ct3";
     "Kind.Term.ct4"; "Kind.Term.ct5"; "Kind.Term.ct6"; "Kind.Term.ct7";
     "Kind.Term.ct8"; "Kind.Term.ct9"; "Kind.Term.ctA"; "Kind.Term.ctB";
     "Kind.Term.ctC"; "Kind.Term.ctD"; "Kind.Term.ctE"; "Kind.Term.ctF";
     "Kind.Term.ctG"; "Kind.Term.num"; "Main"; "GenTree"; "Both"; "Leaf";
     "FFT"; "AddRightLeaf"; "AddLeftLeaf"; "Tree.length"; "Map"; "W"; "Range";
     "Zip"; "Complex.mul"; "Complex.add"; "Complex.sub"]%string.

(** The heap as a map from its first words. *)
Definition heap_of (words : list Z) : gmap Z Z :=
  list_to_map (imap (fun i w => (Z.of_nat i, w)) words).

(** * Specifications and example states *)

(** ** OP2-NUM *)

(** The result the specification gives for OP2 on two numbers: arithmetic
    is the mathematical result modulo [2^60], comparisons yield 0 or 1. *)
Definition op2_math (ope a b : Z) : Z :=
  if ope =? ADD then (a + b) mod 2 ^ 60
  else if ope =? SUB then (a - b) mod 2 ^ 60
  else if ope =? MUL then (a * b) mod 2 ^ 60
  else if ope =? DIV then (a / b) mod 2 ^ 60
  else if ope =? MOD then (a mod b) mod 2 ^ 60
  else if ope =? AND then Z.land a b mod 2 ^ 60
  else if ope =? OR then Z.lor a b mod 2 ^ 60
  else if ope =? XOR then Z.lxor a b mod 2 ^ 60
  else if ope =? SHL then (a * 2 ^ b) mod 2 ^ 60
  else if ope =? SHR then (a / 2 ^ b) mod 2 ^ 60
  else if ope =? LTN then (if a <? b then 1 else 0)
  else if ope =? LTE then (if a <=? b then 1 else 0)
  else if ope =? EQL then (if a =? b then 1 else 0)
  else if ope =? GTE then (if b <=? a then 1 else 0)
  else if ope =? GTN then (if b <? a then 1 else 0)
  else (if a =? b then 0 else 1).

(** The operand values on which the C operator is defined. *)
Definition op2_defined (ope b : Z) : Prop :=
  (ope = DIV \/ ope = MOD -> b <> 0) /\ (ope = SHL \/ ope = SHR -> b < 64).

(** The machine state of the ascent phase on [(+ 2 3)] stored at address 0. *)
Definition add_2_3 : Loop :=
  mkLoop 0 0 []
    (ffi_worker 0 (heap_of [Op2 ADD 1; Num 2; Num 3]) 3 id_to_arity_data id_to_arity_size).

(** The worker holding [(/ 1 0)] at address 0. *)
Definition div_1_0 : Worker :=
  ffi_worker 0 (heap_of [Op2 DIV 1; Num 1; Num 0]) 3 id_to_arity_data id_to_arity_size.

(** ** link and the back-pointer of a variable *)

Definition is_var (lnk : Z) : bool := get_tag lnk <=? VAR.

(** The binder slot a DP0, DP1 or VAR link targets. *)
Definition binder_slot (lnk : Z) : Z := get_loc lnk (if get_tag lnk =? DP1 then 1 else 0).

(** The back-pointer invariant at address [A]: a variable-class link
    stored at [A] has [Arg A] in the binder slot it targets. *)
Definition backlinked (mem : Worker) (A : Z) : Prop :=
  is_var (ask_lnk mem A) = true ->
  ask_lnk mem (binder_slot (ask_lnk mem A)) = Arg A.

(** The addresses [link mem loc lnk] writes. *)
Definition link_writes (loc lnk : Z) : list Z :=
  if is_var lnk then [loc; binder_slot lnk] else [loc].

(** The identity [@x x]: its link at address 0, its node at addresses 1
    and 2, the occurrence of [x] being the body, at address 2. *)
Definition lam_heap : Worker :=
  ffi_worker 0 (heap_of [Lam 1; Arg 2; Var 1]) 3 id_to_arity_data id_to_arity_size.

(** ** alloc *)

(** The block [[a, a + sz)] lies in the partition of worker [t]. *)
Definition in_partition (t a sz : Z) : Prop :=
  t * MEM_SPACE <= a /\ a + sz <= (t + 1) * MEM_SPACE.

(** Worker 1 with an empty heap, and the same after [clear mem 77 2]. *)
Definition worker_1 : Worker := ffi_worker 1 ∅ 0 id_to_arity_data id_to_arity_size.
Definition worker_1_freed : Worker := set_free worker_1 (<[2 := [77]]> ∅).

(** Worker 0 with its frontier one word below the end of its partition. *)
Definition worker_0_full : Worker :=
  ffi_worker 0 ∅ (MEM_SPACE - 1) id_to_arity_data id_to_arity_size.

(** ** Colors *)

(** The worker after [n] calls of [gen_dupk], and the color its next call
    returns. *)
Definition gen_dupk_calls (n : nat) (mem : Worker) : Worker :=
  Nat.iter n (fun mem => snd (gen_dupk mem)) mem.

Definition nth_dupk (mem : Worker) (n : nat) : Z := fst (gen_dupk (gen_dupk_calls n mem)).

Definition COLORS_PER_WORKER : Z := MAX_DUPS / MAX_WORKERS.

(** ** Readback: fans and the direction stacks *)

(** What [readback_term] does on [(chrs, dirs)]: it appends a text that
    does not depend on [chrs] and gives [dirs] back. *)
Definition appends (f : list Z * list (list Z) -> option (list Z * list (list Z)))
    (dirs : list (list Z)) (out : list Z) : Prop :=
  forall chrs, f (chrs, dirs) = Some (chrs ++ out, dirs).

(** The fan [<7 8>] of color 3 (its link at address 0, its node at 1), and
    direction stacks in which color 3 has the single direction 1. *)
Definition fan_7_8 : Worker :=
  ffi_worker 0 (heap_of [Par 3 1; Num 7; Num 8]) 3 id_to_arity_data id_to_arity_size.

Definition dirs_3_right : list (list Z) :=
  <[3%nat := [1]]> (replicate (Z.to_nat DIRS_MCAP) stk_init).

(** The fans [<<1 2> 3>], both of color 3 (the link of the outer one at
    address 0, its node at 1, the node of the inner one at 3), and
    direction stacks in which color 3 has the single direction 0. *)
Definition nested_fans : Worker :=
  ffi_worker 0 (heap_of [Par 3 1; Par 3 3; Num 3; Num 1; Num 2]) 5
    id_to_arity_data id_to_arity_size.

Definition dirs_3_left : list (list Z) :=
  <[3%nat := [0]]> (replicate (Z.to_nat DIRS_MCAP) stk_init).

(** The text [readback] produces when the buffer is large enough. *)
Definition readback_text (fuel : nat) (mem : Worker) (term : Z) : option string :=
  '(vars, _) ← readback_vars fuel mem term (stk_init, stk_init);
  '(chrs, _) ← readback_term fuel mem term vars id_to_name_data id_to_name_size
                 (stk_init, replicate (Z.to_nat DIRS_MCAP) stk_init);
  Some (text chrs).

(** ** Readback: the output buffer *)

(** The heap holding the number 12345. *)
Definition num_12345 : Worker :=
  ffi_worker 0 (heap_of [Num 12345]) 1 id_to_arity_data id_to_arity_size.

(** ** Functions outside the arity table *)

(** The function ids that have generated rules. *)
Definition rule_ids : list Z :=
  [_GENTREE_; _FFT_; _MAIN_; _ADDRIGHTLEAF_; _ADDLEFTLEAF_].

(** A call of function 50, which the table of 43 entries does not have. *)
Definition call_50 : Worker :=
  ffi_worker 0 (heap_of [Cal 1 50 1; Num 7]) 2 id_to_arity_data id_to_arity_size.

(** ** DUP-SUP *)

(** [dup x y = <7 8>] of color 5: [x] at address 0, [y] at address 1, the
    duplication node at 2 and the SUP node at 5. *)
Definition dup_7_8 : Loop :=
  mkLoop 0 0 []
    (ffi_worker 0 (heap_of [Dp0 5 2; Dp1 5 2; Arg 0; Arg 1; Par 5 5; Num 7; Num 8]) 7
       id_to_arity_data id_to_arity_size).

(** ** normal on a normal form *)

(** The graph [@x0 (x0^1)] in words 0 to 4: a lambda whose body is XOR of
    its variable and 1, an OP2 no rule applies to.  Words 5 to 9 are not
    reachable from the root; they hold a redex, [((@_ 42) 7)]. *)
Definition stuck_xor : Worker :=
  ffi_worker 0
    (heap_of [Lam 1; Arg 3; Op2 XOR 3; Var 1; Num 1;
              App 6; Lam 8; Num 7; Era; Num 42])
    10 id_to_arity_data id_to_arity_size.

(** ** The embedding on the scenarios of the specification *)

(** The number of rewrites and the printed normal form of the graph stored
    in the first words of the heap, with the tables of [main], on one
    worker. *)
Definition normal_text (fuel : nat) (words : list Z) : option (Z * string) :=
  let mem := ffi_worker 0 (heap_of words) (Z.of_nat (length words))
               id_to_arity_data id_to_arity_size in
  '(_, (mem, _)) ← normal fuel mem 0 0 1;
  txt ← readback_text fuel mem (ask_lnk mem 0);
  Some (cost mem, txt).

(** ** The link codec: round trips *)

(** The three fields of a link. *)
Definition decode (lnk : Z) : Z * Z * Z := (get_tag lnk, get_ext lnk, get_val lnk).

(** ** Stacks *)

(** [n] successive pops: the values popped, first pop first, and the stack
    left. *)
Fixpoint stk_pops (n : nat) (stack : list Z) : list Z * list Z :=
  match n with
  | O => ([], stack)
  | S n =>
    let '(val, stack) := stk_pop stack in
    let '(vals, stack) := stk_pops n stack in
    (val :: vals, stack)
  end.

(** ** reduce on a head normal form *)

(** The links [reduce] has no case for: neither an application, a
    projection of a duplication, an operation nor a call. *)
Definition head_normal (term : Z) : Prop :=
  get_tag term ∉ [APP; DP0; DP1; OP2; FUN].

(** ** reduce on an operation on two numbers *)

(** The worker after OP2-NUM at [host] on the node at [loc] with result
    [c]. *)
Definition op2_done (mem : Worker) (host loc c : Z) : Worker :=
  write (set_free (inc_cost mem) (<[2 := stk_push (free_stk mem 2) loc]> (free mem)))
        host (Num c).

(** ** A duplication node whose lock is held *)

(** [host] holds a projection of a duplication node whose lock byte is
    set. *)
Definition dup_locked (mem : Worker) (host : Z) : Prop :=
  let term := ask_lnk mem host in
  (get_tag term = DP0 \/ get_tag term = DP1)
  /\ Z.land (ask_lnk mem (get_loc term 0)) FLAG_BYTE <> 0.

(** [dup x y = 7] with the lock of the duplication node (bit 48 of its
    first word) held. *)
Definition dup_held : Worker :=
  ffi_worker 0 (heap_of [Dp0 5 2; Dp1 5 2; Z.lor (Arg 0) (2 ^ 48); Arg 1; Num 7]) 5
    id_to_arity_data id_to_arity_size.

(** ** APP-LAM *)

(** The redex [((@x x) 42)]: the application at address 0, its node at 1
    and 2, the lambda node at 3 and 4. *)
Definition app_id_42 : Loop :=
  mkLoop 0 0 []
    (ffi_worker 0 (heap_of [App 1; Lam 3; Num 42; Arg 4; Var 3]) 5
       id_to_arity_data id_to_arity_size).

(** ** collect *)

(** What [collect] may change of a worker: words of the heap, and the
    free-lists, to which it only adds. *)
Definition frees_only (mem mem' : Worker) : Prop :=
  tid mem' = tid mem /\ size mem' = size mem /\ cost mem' = cost mem
  /\ dups mem' = dups mem /\ aris mem' = aris mem /\ funs mem' = funs mem
  /\ forall sz, exists added, free_stk mem' sz = free_stk mem sz ++ added.

(** The worker of [fan_7_8] after [collect] of the fan. *)
Definition fan_7_8_collected : Worker :=
  set_free fan_7_8 (<[2 := [1]]> ∅).

(** ** readback_vars *)

(** [b] extends [a]: both stacks of [b] have those of [a] as a prefix. *)
Definition extends (a b : list Z * list Z) : Prop :=
  (exists vars, fst b = fst a ++ vars) /\ (exists seen, snd b = snd a ++ seen).

(** [@x (@y (x y))] at address 0: the lambda nodes at 1 and at 3, the
    application node at 5. *)
Definition lam_lam : Worker :=
  ffi_worker 0 (heap_of [Lam 1; Arg 5; Lam 3; Arg 6; App 5; Var 1; Var 3]) 7
    id_to_arity_data id_to_arity_size.

(** ** reduce on a beta-redex *)

(** The worker after APP-LAM at [host], for an application [term] of a
    lambda whose variable occurs. *)
Definition app_lam_done (mem : Worker) (host term : Z) : Worker :=
  let lam := ask_arg mem term 0 in
  let mem := link (inc_cost mem) (get_loc (ask_arg mem lam 0) 0) (ask_arg mem term 1) in
  let mem := link mem host (ask_arg mem lam 1) in
  let mem := set_free mem (<[2 := stk_push (free_stk mem 2) (get_loc term 0)]> (free mem)) in
  set_free mem (<[2 := stk_push (free_stk mem 2) (get_loc lam 0)]> (free mem)).

(** ** A generated rule: GenTree on a number *)

(** The first address beyond the frontier of a worker. *)
Definition frontier (mem : Worker) : Z := tid mem * MEM_SPACE + size mem.

(** The heap after the recursive case of GenTree on the number [n] with
    second argument [t], the three new nodes being at [F], [F + 2] and
    [F + 4]. *)
Definition gentree_heap (mem : Worker) (host F n t : Z) : Worker :=
  let mem := link (write mem F n) (F + 1) t in
  let mem := write mem (F + 2) (Num (get_num n - 1)) in
  let mem := write mem (F + 3) (Cal 2 33 F) in
  let mem := write mem (F + 4) (Num (get_num n - 2)) in
  let mem := write mem (F + 5) (Cal 2 34 (F + 2)) in
  write mem host (Cal 2 29 (F + 4)).

(** [(GenTree 5 (Leaf 0))] at address 0 of worker 0. *)
Definition gentree_5 : Loop :=
  mkLoop 0 0 []
    (ffi_worker 0 (heap_of [Cal 2 _GENTREE_ 1; Num 5; Ctr 1 31 3; Num 0]) 4
       id_to_arity_data id_to_arity_size).

(** The worker after a base case of GenTree at [host]. *)
Definition gentree_base_done (mem : Worker) (host term : Z) : Worker :=
  set_free (link (inc_cost mem) host (ask_arg mem term 1))
    (<[2 := stk_push (free_stk mem 2) (get_loc term 0)]> (free mem)).

(** ** reduce on the duplication of a number *)

(** [dup x y = 7]: the projections at addresses 0 and 1, the node at 2. *)
Definition dup_7 : Loop :=
  mkLoop 0 0 []
    (ffi_worker 0 (heap_of [Dp0 5 2; Dp1 5 2; Arg 0; Arg 1; Num 7]) 5
       id_to_arity_data id_to_arity_size).

(** ** reduce on a call of GenTree *)

(** [(GenTree 1 (Leaf 0))] at address 0 of worker 0. *)
Definition gentree_1 : Worker :=
  ffi_worker 0 (heap_of [Cal 2 _GENTREE_ 1; Num 1; Ctr 1 31 3; Num 0]) 4
    id_to_arity_data id_to_arity_size.

(** ** FUN-SUP: a call on a superposition *)

(** The heap after FUN-SUP on a call of arity 2 whose first argument is the
    superposition, the second node of the call being at [F] and the new
    duplication node at [F + 2]. *)
Definition cal_par_heap (mem : Worker) (host term argn F : Z) : Worker :=
  let col := get_ext argn in
  let fun0 := get_loc term 0 in
  let par0 := get_loc argn 0 in
  let mem := link mem fun0 (ask_arg mem argn 0) in
  let mem := link mem F (ask_arg mem argn 1) in
  let t := ask_arg mem term 1 in
  let mem := write (write mem (fun0 + 1) (Dp0 col (F + 2))) (F + 2) (Arg (fun0 + 1)) in
  let mem := write (write mem (F + 1) (Dp1 col (F + 2))) (F + 3) (Arg (F + 1)) in
  let mem := link mem (F + 4) t in
  let mem := write mem par0 (Cal 2 (get_ext term) fun0) in
  let mem := write mem (par0 + 1) (Cal 2 (get_ext term) F) in
  write mem host (Par col par0).

(** [(GenTree {2 3} (Leaf 0))] at address 0 of worker 0: the node of the
    call at 1, that of the superposition, of color 7, at 3. *)
Definition gentree_sup : Worker :=
  ffi_worker 0
    (heap_of [Cal 2 _GENTREE_ 1; Par 7 3; Ctr 1 31 5; Num 2; Num 3; Num 0]) 6
    id_to_arity_data id_to_arity_size.

(** ** The rule of Main on the term of a run without arguments *)

(** [clear] as a function, for a size below [MAX_ARITY]. *)
Definition push_free (mem : Worker) (sz loc : Z) : Worker :=
  set_free mem (<[sz := stk_push (free_stk mem sz) loc]> (free mem)).

(** The heap after the links of the rule of Main, the new nodes being at
    [F] to [F + 6]. *)
Definition main_heap (mem : Worker) (host F : Z) : Worker :=
  let mem := write mem F (Num 0) in
  let mem := write mem (F + 1) (Num 1) in
  let mem := write mem (F + 2) (Ctr 1 31 F) in
  let mem := write mem (F + 3) (Ctr 1 31 (F + 1)) in
  let mem := write mem (F + 4) (Num 1048) in
  let mem := write mem (F + 5) (Ctr 2 30 (F + 2)) in
  let mem := write mem (F + 6) (Cal 2 29 (F + 4)) in
  write mem host (Cal 1 32 (F + 6)).

(** The worker [main] starts from when the program has no argument. *)
Definition main_start : Loop :=
  mkLoop 0 0 []
    (ffi_worker 0 (heap_of [Cal 0 _MAIN_ 0]) 1 id_to_arity_data id_to_arity_size).

(** ** normal under a lambda *)

(** [@x (+ 2 3)]: the lambda at address 0, its node at 1 and 2, the
    operation in its body, at address 2, with its node at 3 and 4. *)
Definition lam_add_2_3 : Worker :=
  ffi_worker 0 (heap_of [Lam 1; Era; Op2 ADD 3; Num 2; Num 3]) 5
    id_to_arity_data id_to_arity_size.

(** ** reduce on the duplication of an eraser *)

(** The worker after DUP-ERA at [host]. *)
Definition dup_era_done (mem : Worker) (host term : Z) : Worker :=
  let slot0 := ask_arg mem term 0 in
  let mem := if get_tag slot0 =? ERA then inc_cost mem
             else write (inc_cost mem) (get_loc slot0 0) Era in
  let slot1 := ask_arg mem term 1 in
  let mem := if get_tag slot1 =? ERA then mem else write mem (get_loc slot1 0) Era in
  let mem := write mem host Era in
  set_free mem (<[3 := stk_push (free_stk mem 3) (get_loc term 0)]> (free mem)).

(** [dup x y = *]: the projections at addresses 0 and 1, the node at 2. *)
Definition dup_era : Worker :=
  ffi_worker 0 (heap_of [Dp0 5 2; Dp1 5 2; Arg 0; Arg 1; Era]) 5
    id_to_arity_data id_to_arity_size.

(** ** Generated rules: AddRightLeaf and AddLeftLeaf on a leaf *)

Definition add_leaf_id (left : bool) : Z :=
  if left then _ADDLEFTLEAF_ else _ADDRIGHTLEAF_.

(** The heap after AddLeftLeaf ([left]) or AddRightLeaf on [(Leaf a)], the
    new nodes being at [F], [F + 1] and [F + 2]. *)
Definition add_leaf_heap (left : bool) (mem : Worker) (host term F : Z) : Worker :=
  let mem :=
    if left then
      let mem := link mem F (ask_arg mem term 0) in
      link mem (F + 1) (ask_arg mem (ask_arg mem term 1) 0)
    else
      let mem := link mem F (ask_arg mem (ask_arg mem term 1) 0) in
      link mem (F + 1) (ask_arg mem term 0) in
  let mem := write mem (F + 2) (Ctr 1 31 F) in
  let mem := write mem (F + 3) (Ctr 1 31 (F + 1)) in
  write mem host (Ctr 2 30 (F + 2)).

(** [(AddRightLeaf 5 (Leaf 0))] at address 0 of worker 0. *)
Definition add_right_leaf_5 : Loop :=
  mkLoop 0 0 []
    (ffi_worker 0 (heap_of [Cal 2 _ADDRIGHTLEAF_ 1; Num 5; Ctr 1 31 3; Num 0]) 4
       id_to_arity_data id_to_arity_size).

(** ** Generated rules: AddRightLeaf and AddLeftLeaf on a pair *)

(** The heap after AddLeftLeaf ([left]) or AddRightLeaf on [(Both l r)],
    the node of the new call being at [F] and that of the pair at [F + 2]. *)
Definition add_both_heap (left : bool) (mem : Worker) (host term F : Z) : Worker :=
  let mem := link mem F (ask_arg mem term 0) in
  let mem :=
    if left then
      let mem := link mem (F + 1) (ask_arg mem (ask_arg mem term 1) 0) in
      let mem := write mem (F + 2) (Cal 2 34 F) in
      link mem (F + 3) (ask_arg mem (ask_arg mem term 1) 1)
    else
      let mem := link mem (F + 1) (ask_arg mem (ask_arg mem term 1) 1) in
      let mem := link mem (F + 2) (ask_arg mem (ask_arg mem term 1) 0) in
      write mem (F + 3) (Cal 2 33 F) in
  write mem host (Ctr 2 30 (F + 2)).

(** [(AddLeftLeaf 4 (Both (Leaf 0) (Leaf 1)))] at address 0 of worker 0. *)
Definition add_left_leaf_4 : Loop :=
  mkLoop 0 0 []
    (ffi_worker 0
       (heap_of [Cal 2 _ADDLEFTLEAF_ 1; Num 4; Ctr 2 30 3; Ctr 1 31 5; Ctr 1 31 6; Num 0; Num 1])
       7 id_to_arity_data id_to_arity_size).

(** * Properties *)

(** ** The link codec *)

Lemma lor_high_low (t r : Z) : 0 <= r < 2 ^ 60 -> Z.lor (t * 2 ^ 60) r = t * 2 ^ 60 + r.
Proof.
  intros Hr.
  assert (Hland : Z.land (t * 2 ^ 60) r = 0).
  { apply Z.bits_inj'. intros n Hn.
    rewrite Z.land_spec, Z.bits_0, <- Z.shiftl_mul_pow2 by lia.
    destruct (Z.ltb_spec n 60) as [Hlt | Hge].
    - rewrite Z.shiftl_spec_low by lia. reflexivity.
    - rewrite <- (Z.mod_small r (2 ^ 60)) by lia.
      rewrite Z.mod_pow2_bits_high by lia. apply andb_false_r. }
  rewrite <- Z.lxor_lor by exact Hland.
  symmetry. apply Z.add_nocarry_lxor. exact Hland.
Qed.

Lemma land_num_mask (v : Z) : Z.land v NUM_MASK = v mod 2 ^ 60.
Proof. change NUM_MASK with (Z.ones 60). apply Z.land_ones. lia. Qed.

Lemma Num_eq (v : Z) : Num v = NUM * TAG + v mod 2 ^ 60.
Proof.
  unfold Num. rewrite land_num_mask. change TAG with (2 ^ 60).
  apply lor_high_low. apply Z.mod_pos_bound. lia.
Qed.

Lemma get_tag_Num (v : Z) : get_tag (Num v) = NUM.
Proof.
  rewrite Num_eq. unfold get_tag. change TAG with (2 ^ 60).
  pose proof (Z.mod_pos_bound v (2 ^ 60) ltac:(lia)) as Hb.
  rewrite Z.div_add_l by lia. rewrite Z.div_small by lia. lia.
Qed.

Lemma get_num_Num (v : Z) : get_num (Num v) = v mod 2 ^ 60.
Proof.
  unfold get_num. change 0xFFFFFFFFFFFFFFF with NUM_MASK.
  rewrite land_num_mask, Num_eq. change TAG with (2 ^ 60).
  rewrite Z.add_comm, Z.mod_add by lia. apply Z.mod_mod. lia.
Qed.

Lemma get_num_range (lnk : Z) : 0 <= get_num lnk < 2 ^ 60.
Proof.
  unfold get_num. change 0xFFFFFFFFFFFFFFF with NUM_MASK.
  rewrite land_num_mask. apply Z.mod_pos_bound. lia.
Qed.

Lemma mod64_mod60 (x : Z) : (x mod 2 ^ 64) mod 2 ^ 60 = x mod 2 ^ 60.
Proof.
  apply Z.mod_mod_divide. exists (2 ^ 4). reflexivity.
Qed.

(** ** Memory *)

Lemma ask_lnk_write (mem : Worker) (loc val a : Z) :
  ask_lnk (write mem loc val) a = if decide (loc = a) then val else ask_lnk mem a.
Proof.
  unfold ask_lnk, write. simpl. rewrite lookup_insert.
  destruct (decide (loc = a)); reflexivity.
Qed.

Lemma ask_lnk_write_eq (mem : Worker) (loc val : Z) : ask_lnk (write mem loc val) loc = val.
Proof. rewrite ask_lnk_write. destruct (decide (loc = loc)); congruence. Qed.

Lemma ask_lnk_write_ne (mem : Worker) (loc val a : Z) :
  loc <> a -> ask_lnk (write mem loc val) a = ask_lnk mem a.
Proof. intros. rewrite ask_lnk_write. destruct (decide (loc = a)); congruence. Qed.

Lemma link_not_var (mem : Worker) (loc lnk : Z) :
  (get_tag lnk <=? VAR) = false -> link mem loc lnk = write mem loc lnk.
Proof. intros H. unfold link. rewrite H. reflexivity. Qed.

Lemma link_Num (mem : Worker) (loc v : Z) : link mem loc (Num v) = write mem loc (Num v).
Proof. apply link_not_var. rewrite get_tag_Num. reflexivity. Qed.

(** ** OP2-NUM *)

Lemma op2_num_math (ope a b : Z) :
  0 <= ope < 16 -> 0 <= a -> 0 <= b -> op2_defined ope b ->
  op2_num ope a b = Some (op2_math ope a b).
Proof.
  intros Hope Ha Hb [Hdiv Hsh].
  assert (Hcases : ope = ADD \/ ope = SUB \/ ope = MUL \/ ope = DIV \/ ope = MOD
                   \/ ope = AND \/ ope = OR \/ ope = XOR \/ ope = SHL \/ ope = SHR
                   \/ ope = LTN \/ ope = LTE \/ ope = EQL \/ ope = GTE \/ ope = GTN
                   \/ ope = NEQ).
  { unfold ADD, SUB, MUL, DIV, MOD, AND, OR, XOR, SHL, SHR, LTN, LTE, EQL, GTE, GTN, NEQ.
    lia. }
  unfold op2_num, op2_math, add64, sub64, mul64.
  repeat (destruct Hcases as [-> | Hcases]); [ .. | subst ope ];
    cbn [Z.eqb Pos.eqb ADD SUB MUL DIV MOD AND OR XOR SHL SHR LTN LTE EQL GTE GTN NEQ];
    rewrite ?land_num_mask, ?mod64_mod60; try reflexivity.
  - (* DIV *)
    destruct (Z.eqb_spec b 0) as [Hb0 | _]; [ exfalso; apply Hdiv; auto | reflexivity ].
  - (* MOD *)
    destruct (Z.eqb_spec b 0) as [Hb0 | _]; [ exfalso; apply Hdiv; auto | reflexivity ].
  - (* SHL *)
    destruct (Z.leb_spec 64 b) as [Hb64 | _].
    + exfalso. assert (b < 64) by (apply Hsh; auto). lia.
    + rewrite Z.shiftl_mul_pow2 by lia. reflexivity.
  - (* SHR *)
    destruct (Z.leb_spec 64 b) as [Hb64 | _].
    + exfalso. assert (b < 64) by (apply Hsh; auto). lia.
    + rewrite Z.shiftr_div_pow2 by lia. reflexivity.
  - (* GTE *)
    unfold Z.geb, Z.leb. rewrite (Z.compare_antisym a b).
    destruct (a ?= b); reflexivity.
  - (* GTN *)
    unfold Z.gtb, Z.ltb. rewrite (Z.compare_antisym a b).
    destruct (a ?= b); reflexivity.
  - (* NEQ *)
    destruct (a =? b); reflexivity.
Qed.

Lemma reduce_body_ascent (fuel : nat) (slen : Z) (st : Loop) :
  init st <> 1 ->
  reduce_body fuel slen st = reduce_ascent fuel st (ask_lnk (wrk st) (host st)).
Proof.
  intros Hinit. unfold reduce_body.
  destruct (Z.eqb_spec (init st) 1); [ contradiction | reflexivity ].
Qed.

Lemma reduce_body_descent (fuel : nat) (slen : Z) (st : Loop) :
  init st = 1 ->
  reduce_body fuel slen st = reduce_descent slen st (ask_lnk (wrk st) (host st)).
Proof. intros Hinit. unfold reduce_body. rewrite Hinit. reflexivity. Qed.

Lemma reduce_ascent_OP2 (fuel : nat) (st : Loop) (term : Z) :
  get_tag term = OP2 -> reduce_ascent fuel st term = reduce_op2 st term.
Proof. intros Htag. unfold reduce_ascent. rewrite Htag. reflexivity. Qed.

Lemma clear_small (mem : Worker) (loc sz : Z) :
  sz < MAX_ARITY ->
  clear mem loc sz = Some (set_free mem (<[sz := stk_push (free_stk mem sz) loc]> (free mem))).
Proof.
  intros Hsz. unfold clear.
  destruct (Z.leb_spec MAX_ARITY sz); [ lia | reflexivity ].
Qed.

(** C1 (as amended).  In the ascent phase, on an OP2 node whose operands
    are the numbers [a] and [b], one pass of the loop body of [reduce]
    counts one rewrite and leaves [Num c] at the host, where [c] is the
    mathematical result modulo [2^60] for ADD, SUB, MUL, DIV, MOD, AND, OR,
    XOR, SHL, SHR and 1 or 0 for LTN, LTE, EQL, GTE, GTN, NEQ; this for
    all 60-bit [a] and [b] on which the C operator is defined: a divisor
    other than 0 for DIV and MOD, a shift count below 64 for SHL and SHR. *)
Theorem op2_num_step (fuel : nat) (slen : Z) (st : Loop) (ope a b : Z) :
  let mem := wrk st in
  let term := ask_lnk mem (host st) in
  init st <> 1 ->
  get_tag term = OP2 ->
  get_ext term = ope ->
  0 <= ope < 16 ->
  get_tag (ask_arg mem term 0) = NUM ->
  get_tag (ask_arg mem term 1) = NUM ->
  get_num (ask_arg mem term 0) = a ->
  get_num (ask_arg mem term 1) = b ->
  op2_defined ope b ->
  exists st',
    reduce_body fuel slen st = Some (Break, st')
    /\ ask_lnk (wrk st') (host st) = Num (op2_math ope a b)
    /\ cost (wrk st') = add64 (cost mem) 1
    /\ host st' = host st /\ stack st' = stack st.
Proof.
  intros mem term Hinit Htag Hext Hope Htag0 Htag1 Ha Hb Hdef.
  rewrite reduce_body_ascent by exact Hinit.
  fold mem. fold term. rewrite reduce_ascent_OP2 by exact Htag.
  unfold reduce_op2. fold mem. fold term.
  rewrite Htag0, Htag1, Hext, Ha, Hb. cbn [Z.eqb Pos.eqb NUM andb].
  assert (Hnum : op2_num ope a b = Some (op2_math ope a b)).
  { apply op2_num_math; try assumption.
    - rewrite <- Ha. apply get_num_range.
    - rewrite <- Hb. apply get_num_range. }
  rewrite Hnum. cbn [mbind option_bind].
  rewrite clear_small by reflexivity. cbn [mbind option_bind].
  rewrite link_Num.
  eexists. split; [ reflexivity | ].
  cbn [wrk set_wrk host stack]. rewrite ask_lnk_write_eq.
  repeat split; reflexivity.
Qed.

Lemma op2_num_step_witness :
  exists st',
    reduce_body 0 1 add_2_3 = Some (Break, st')
    /\ ask_lnk (wrk st') (host add_2_3) = Num (op2_math ADD 2 3)
    /\ cost (wrk st') = add64 (cost (wrk add_2_3)) 1
    /\ host st' = host add_2_3 /\ stack st' = stack add_2_3.
Proof.
  apply (op2_num_step 0 1 add_2_3 ADD 2 3); try reflexivity.
  - discriminate.
  - unfold ADD. lia.
  - split; intros [H | H]; discriminate H.
Defined.

(** C1 (as stated) fails: on [(/ 1 0)], whose operands are the 60-bit
    numbers 1 and 0, the rule divides by zero; no [Num c] is produced and
    [reduce] does not return. *)
Lemma op2_div_by_zero :
  get_tag (ask_lnk div_1_0 0) = OP2
  /\ get_ext (ask_lnk div_1_0 0) = DIV
  /\ ask_arg div_1_0 (ask_lnk div_1_0 0) 0 = Num 1
  /\ ask_arg div_1_0 (ask_lnk div_1_0 0) 1 = Num 0
  /\ reduce_body 0 1 (mkLoop 0 0 [] div_1_0) = None
  /\ ~ (exists fuel r, reduce fuel div_1_0 0 1 = Some r).
Proof.
  repeat split; try reflexivity.
  intros (fuel & r & Hr).
  do 4 (destruct fuel as [ | fuel ]; [ discriminate Hr | ]).
  vm_compute in Hr. discriminate Hr.
Qed.

(** ** link and the back-pointer of a variable *)

Lemma link_frame (mem : Worker) (loc lnk A : Z) :
  A ∉ link_writes loc lnk -> ask_lnk (link mem loc lnk) A = ask_lnk mem A.
Proof.
  unfold link_writes, link, is_var, binder_slot. intros HA.
  destruct (get_tag lnk <=? VAR).
  - rewrite !ask_lnk_write_ne; [ reflexivity | | ];
      intros Heq; apply HA; rewrite <- Heq; set_solver.
  - rewrite ask_lnk_write_ne; [ reflexivity | ].
    intros Heq. apply HA. rewrite <- Heq. set_solver.
Qed.

Lemma link_slot (mem : Worker) (loc lnk : Z) :
  is_var lnk = true -> ask_lnk (link mem loc lnk) (binder_slot lnk) = Arg loc.
Proof.
  unfold link, is_var, binder_slot. intros ->. apply ask_lnk_write_eq.
Qed.

Lemma link_loc (mem : Worker) (loc lnk : Z) :
  (is_var lnk = true -> binder_slot lnk <> loc) ->
  ask_lnk (link mem loc lnk) loc = lnk.
Proof.
  unfold link, is_var, binder_slot. intros Hne.
  destruct (get_tag lnk <=? VAR).
  - rewrite ask_lnk_write_ne by (apply Hne; reflexivity). apply ask_lnk_write_eq.
  - apply ask_lnk_write_eq.
Qed.

(** C5 (as amended).  [link mem loc lnk] writes [lnk] at [loc] and, when
    [lnk] is a DP0, DP1 or VAR link, [Arg loc] in the binder slot it
    targets (slot 1 for DP1, slot 0 for DP0 and VAR), and nothing else.
    Provided that slot is not [loc] itself, [lnk] is then at [loc] with its
    back-pointer in place; and the back-pointer invariant is kept at every
    other address whose link and binder slot the call did not write. *)
Theorem link_backlinked (mem : Worker) (loc lnk : Z) :
  (is_var lnk = true -> binder_slot lnk <> loc) ->
  ask_lnk (link mem loc lnk) loc = lnk
  /\ (is_var lnk = true -> ask_lnk (link mem loc lnk) (binder_slot lnk) = Arg loc)
  /\ backlinked (link mem loc lnk) loc
  /\ (forall A, A ∉ link_writes loc lnk -> ask_lnk (link mem loc lnk) A = ask_lnk mem A)
  /\ (forall A, A ∉ link_writes loc lnk ->
                (is_var (ask_lnk mem A) = true ->
                 binder_slot (ask_lnk mem A) ∉ link_writes loc lnk) ->
                backlinked mem A -> backlinked (link mem loc lnk) A).
Proof.
  intros Hne.
  assert (Hloc : ask_lnk (link mem loc lnk) loc = lnk) by (apply link_loc; exact Hne).
  split; [ exact Hloc | ].
  split; [ apply link_slot | ].
  split.
  { unfold backlinked. rewrite Hloc. apply link_slot. }
  split; [ intros A; apply link_frame | ].
  intros A HA Hslot Hback. unfold backlinked.
  rewrite (link_frame mem loc lnk A HA). intros Hvar.
  rewrite link_frame by (apply Hslot; exact Hvar).
  apply Hback. exact Hvar.
Qed.

Lemma link_backlinked_witness :
  ask_lnk (link lam_heap 5 (Var 1)) 5 = Var 1
  /\ ask_lnk (link lam_heap 5 (Var 1)) (binder_slot (Var 1)) = Arg 5
  /\ backlinked (link lam_heap 5 (Var 1)) 5.
Proof.
  destruct (link_backlinked lam_heap 5 (Var 1)) as (Hloc & Hslot & Hback & _).
  - intros _. vm_compute. discriminate.
  - split; [ exact Hloc | ]. split; [ apply Hslot; reflexivity | exact Hback ].
Defined.

(** C5 (as stated) fails twice.  When the binder slot of [lnk] is [loc]
    itself, the second store overwrites the first: after
    [link mem 1 (Var 1)] address 1 holds [Arg 1], not [Var 1].  And [link]
    alone does not keep the invariant for every variable-class link in the
    heap: in [lam_heap] the occurrence at address 2 has its back-pointer;
    after the same variable is also linked at address 5 (as APP-LAM does
    with the body of a lambda) the occurrence at address 2, still in the
    heap and still reachable from the root, no longer has. *)
Lemma link_breaks_backlink :
  ask_lnk (link lam_heap 1 (Var 1)) 1 <> Var 1
  /\ backlinked lam_heap 2
  /\ is_var (ask_lnk (link lam_heap 5 (Var 1)) 2) = true
  /\ ~ backlinked (link lam_heap 5 (Var 1)) 2.
Proof.
  split; [ vm_compute; discriminate | ].
  split; [ intros _; reflexivity | ].
  split; [ reflexivity | ].
  intros Hback. specialize (Hback eq_refl). vm_compute in Hback. discriminate Hback.
Qed.

(** ** alloc *)

Lemma stk_pop_push (stack : list Z) (val : Z) : stk_pop (stk_push stack val) = (val, stack).
Proof.
  unfold stk_pop, stk_push. rewrite rev_app_distr. simpl. rewrite rev_involutive.
  reflexivity.
Qed.

(** C2 (as amended).  [alloc mem 0] is 0.  For a size from 1 to
    [MAX_ARITY - 1], [alloc] pops the free-list of exactly that size when it
    is not empty (the top entry being an address, not the marker [-1] of an
    empty stack); on an empty free-list it returns
    [tid * MEM_SPACE + size mem] and advances the frontier [size mem] by the
    requested size.  There is no test against the partition boundary: the
    bump never fails, wherever the frontier is, and the block it returns is
    inside the worker's partition as long as the frontier plus the size
    does not exceed [MEM_SPACE]. *)
Theorem alloc_cases (mem : Worker) (sz : Z) :
  alloc mem 0 = Some (0, mem)
  /\ (0 < sz < MAX_ARITY ->
      forall below top, free_stk mem sz = below ++ [top] -> top <> U64_MAX ->
      alloc mem sz = Some (top, set_free mem (<[sz := below]> (free mem))))
  /\ (0 < sz < MAX_ARITY ->
      free_stk mem sz = [] ->
      alloc mem sz = Some (add64 (mul64 (tid mem) MEM_SPACE) (size mem),
                           set_size mem (add64 (size mem) sz)))
  /\ (0 < sz -> 0 <= tid mem < MAX_WORKERS -> 0 <= size mem -> size mem + sz <= MEM_SPACE ->
      in_partition (tid mem) (add64 (mul64 (tid mem) MEM_SPACE) (size mem)) sz).
Proof.
  split; [ reflexivity | ].
  split; [ | split ].
  - intros Hsz below top Hfree Htop. unfold alloc.
    destruct (Z.eqb_spec sz 0); [ lia | ].
    destruct (Z.leb_spec MAX_ARITY sz); [ lia | ].
    rewrite Hfree. change (below ++ [top]) with (stk_push below top).
    rewrite stk_pop_push. unfold stk_push.
    destruct (Z.eqb_spec top U64_MAX); [ contradiction | ].
    destruct below; reflexivity.
  - intros Hsz Hfree. unfold alloc.
    destruct (Z.eqb_spec sz 0); [ lia | ].
    destruct (Z.leb_spec MAX_ARITY sz); [ lia | ].
    rewrite Hfree. reflexivity.
  - unfold in_partition, add64, mul64, MAX_WORKERS. change MEM_SPACE with 44739242.
    intros Hsz Htid Hsize Hfit.
    rewrite (Z.mod_small (tid mem * 44739242)) by lia.
    rewrite Z.mod_small by lia. lia.
Qed.

Lemma alloc_cases_witness :
  alloc worker_1_freed 2 = Some (77, set_free worker_1_freed (<[2 := []]> (free worker_1_freed)))
  /\ alloc worker_1 3 = Some (MEM_SPACE, set_size worker_1 3).
Proof.
  split.
  - destruct (alloc_cases worker_1_freed 2) as (_ & Hpop & _ & _).
    apply (Hpop ltac:(unfold MAX_ARITY; lia) [] 77); [ reflexivity | discriminate ].
  - destruct (alloc_cases worker_1 3) as (_ & _ & Hbump & _).
    apply (Hbump ltac:(unfold MAX_ARITY; lia)). reflexivity.
Defined.

(** C2 (as stated) fails: with one word left in the partition of worker 0,
    [alloc] of three words does not fail; it returns a block that crosses
    into the partition of worker 1. *)
Lemma alloc_crosses_partition :
  alloc worker_0_full 3 = Some (MEM_SPACE - 1, set_size worker_0_full (MEM_SPACE + 2))
  /\ ~ in_partition (tid worker_0_full) (MEM_SPACE - 1) 3.
Proof.
  split; [ reflexivity | ].
  unfold in_partition. vm_compute. intros [_ H]. apply H. reflexivity.
Qed.

(** ** Colors *)

Lemma dups_gen_dupk (mem : Worker) : dups (snd (gen_dupk mem)) = add64 (dups mem) 1.
Proof. reflexivity. Qed.

Lemma dups_gen_dupk_calls (n : nat) (mem : Worker) :
  0 <= dups mem < 2 ^ 64 ->
  dups (gen_dupk_calls n mem) = (dups mem + Z.of_nat n) mod 2 ^ 64.
Proof.
  intros Hd. induction n as [ | n IH ].
  - simpl. rewrite Z.add_0_r, Z.mod_small by lia. reflexivity.
  - unfold gen_dupk_calls in *. rewrite Nat.iter_succ, dups_gen_dupk, IH.
    unfold add64. rewrite Zplus_mod_idemp_l. f_equal. lia.
Qed.

Lemma nth_dupk_eq (mem : Worker) (n : nat) :
  0 <= dups mem < 2 ^ 64 ->
  nth_dupk mem n = (dups mem + Z.of_nat n) mod 2 ^ 24.
Proof.
  intros Hd. unfold nth_dupk. cbn [gen_dupk fst].
  rewrite dups_gen_dupk_calls by exact Hd.
  change 0xFFFFFF with (Z.ones 24). rewrite Z.land_ones by lia.
  apply Z.mod_mod_divide. exists (2 ^ 40). reflexivity.
Qed.

Lemma dups_ffi_worker (t : Z) (mem_data : gmap Z Z) (mem_size : Z) (a : list Z) (f : Z) :
  0 <= t < MAX_WORKERS ->
  dups (ffi_worker t mem_data mem_size a f) = MAX_DUPS * t / MAX_WORKERS.
Proof.
  unfold MAX_WORKERS. intros Ht. cbn [ffi_worker dups]. unfold mul64, MAX_DUPS, MAX_WORKERS.
  rewrite Z.mod_small by lia. reflexivity.
Qed.

(** C8 (as amended).  Worker [t] starts its counter at
    [MAX_DUPS * t / MAX_WORKERS]; [gen_dupk] returns the low 24 bits of the
    counter and adds one to it; and the colors of two distinct workers
    differ as long as each has made at most [MAX_DUPS / MAX_WORKERS]
    (1398101) calls. *)
Theorem colors_disjoint (s t : Z) (i j : nat) (mem_data : gmap Z Z) (mem_size : Z)
    (a : list Z) (f : Z) :
  let worker t := ffi_worker t mem_data mem_size a f in
  0 <= s < MAX_WORKERS -> 0 <= t < MAX_WORKERS -> s <> t ->
  Z.of_nat i < COLORS_PER_WORKER -> Z.of_nat j < COLORS_PER_WORKER ->
  dups (worker t) = MAX_DUPS * t / MAX_WORKERS
  /\ (forall mem, gen_dupk mem = (Z.land (dups mem) 0xFFFFFF, set_dups mem (add64 (dups mem) 1)))
  /\ nth_dupk (worker s) i <> nth_dupk (worker t) j.
Proof.
  intros worker Hs Ht Hst Hi Hj.
  split; [ apply dups_ffi_worker; exact Ht | ].
  split; [ reflexivity | ].
  unfold worker.
  assert (Hseed : forall u, 0 <= u < MAX_WORKERS ->
            0 <= dups (ffi_worker u mem_data mem_size a f) < 2 ^ 64).
  { intros u Hu. rewrite dups_ffi_worker by exact Hu.
    unfold MAX_WORKERS, MAX_DUPS in *. split.
    - apply Z.div_pos; lia.
    - apply Z.div_lt_upper_bound; lia. }
  rewrite !nth_dupk_eq by (apply Hseed; assumption).
  rewrite !dups_ffi_worker by assumption.
  unfold COLORS_PER_WORKER, MAX_WORKERS, MAX_DUPS in *.
  change (16777216 / 12) with 1398101 in *.
  pose proof (Z.mul_div_le (16777216 * s) 12 ltac:(lia)) as Hs1.
  pose proof (Z.mul_succ_div_gt (16777216 * s) 12 ltac:(lia)) as Hs2.
  pose proof (Z.mul_div_le (16777216 * t) 12 ltac:(lia)) as Ht1.
  pose proof (Z.mul_succ_div_gt (16777216 * t) 12 ltac:(lia)) as Ht2.
  rewrite !Z.mod_small by (change (2 ^ 24) with 16777216; lia).
  lia.
Qed.

Lemma colors_disjoint_witness :
  nth_dupk (ffi_worker 0 ∅ 0 [] 0) 5 <> nth_dupk (ffi_worker 1 ∅ 0 [] 0) 7.
Proof.
  destruct (colors_disjoint 0 1 5 7 ∅ 0 [] 0) as (_ & _ & Hne);
    [ unfold MAX_WORKERS; lia | unfold MAX_WORKERS; lia | lia
    | reflexivity | reflexivity | exact Hne ].
Defined.

(** C8 (as stated) fails: the counter of a worker is never checked against
    the start of the next worker's range, so call number 1398101 (counting
    from 0) of worker 0 returns the color of the first call of worker 1. *)
Lemma colors_collide :
  nth_dupk (ffi_worker 0 ∅ 0 [] 0) (Z.to_nat 1398101) = nth_dupk (ffi_worker 1 ∅ 0 [] 0) 0.
Proof.
  rewrite !nth_dupk_eq by (vm_compute; split; congruence).
  rewrite Z2Nat.id by lia. reflexivity.
Qed.

(** ** parse_arg *)

Lemma Num_mod64 (v : Z) : Num (v mod 2 ^ 64) = Num v.
Proof. rewrite !Num_eq, mod64_mod60. reflexivity. Qed.

Lemma digits_value_nonneg (s : list Z) (acc : Z) : 0 <= acc -> 0 <= digits_value acc s.
Proof.
  revert acc. induction s as [ | c rest IH ]; intros acc Hacc; simpl; [ exact Hacc | ].
  destruct (is_digit c) eqn:Hc; [ | exact Hacc ].
  apply IH. unfold is_digit in Hc. change (chr "0") with 48 in *. lia.
Qed.

Lemma strtol_leading_digit (s : list Z) :
  is_digit (hd 0 s) = true -> strtol s = Z.min (digits_value 0 s) LONG_MAX.
Proof.
  destruct s as [ | c rest ]; [ discriminate | ].
  cbn [hd]. intros Hc. unfold strtol.
  assert (Hrange : 48 <= c <= 57).
  { unfold is_digit in Hc. change (chr "0") with 48 in Hc. change (chr "9") with 57 in Hc.
    lia. }
  assert (Hspace : is_space c = false) by (unfold is_space; lia).
  cbn [skip_space]. rewrite Hspace.
  change (chr "-") with 45. change (chr "+") with 43.
  destruct (Z.eqb_spec c 45); [ lia | ].
  destruct (Z.eqb_spec c 43); [ lia | ].
  reflexivity.
Qed.



(** ** Readback: fans and the direction stacks *)

Lemma readback_decimal_go_app (digits : nat) (chrs : list Z) (n : Z) :
  readback_decimal_go digits chrs n = chrs ++ readback_decimal_go digits [] n.
Proof.
  revert n. induction digits as [ | digits IH ]; intros n; simpl.
  - rewrite app_nil_r. reflexivity.
  - destruct (0 <? n); [ | rewrite app_nil_r; reflexivity ].
    unfold stk_push. rewrite IH, app_assoc. reflexivity.
Qed.

Lemma readback_decimal_app (chrs : list Z) (n : Z) :
  readback_decimal chrs n = chrs ++ readback_decimal [] n.
Proof.
  unfold readback_decimal. destruct (n =? 0); [ reflexivity | ].
  apply readback_decimal_go_app.
Qed.

Ltac list_eq := rewrite <- ?app_assoc; cbn [app]; rewrite <- ?app_assoc; reflexivity.

Section Readback.
Variables (mem : Worker) (vars : list Z).
Variables (id_to_name_data : list (option string)) (id_to_name_mcap : Z).

Abbreviation rt fuel term :=
(readback_term fuel mem term vars id_to_name_data id_to_name_mcap).

Lemma for_loop_appends (body : Z -> list Z * list (list Z) -> option (list Z * list (list Z))) :
  (forall i chrs dirs r, body i (chrs, dirs) = Some r ->
     exists out, r = (chrs ++ out, dirs) /\ appends (body i) dirs out) ->
  forall n i chrs dirs r, for_loop n i body (chrs, dirs) = Some r ->
     exists out, r = (chrs ++ out, dirs) /\ appends (for_loop n i body) dirs out.
Proof.
  intros Hbody. induction n as [ | n IH ]; intros i chrs dirs r Hr; simpl in Hr.
  - injection Hr as <-. exists []. split; [ rewrite app_nil_r; reflexivity | ].
    intros c. simpl. rewrite app_nil_r. reflexivity.
  - destruct (body i (chrs, dirs)) as [ r1 | ] eqn:E1; [ | discriminate Hr ].
    cbn [mbind option_bind] in Hr.
    destruct (Hbody _ _ _ _ E1) as (out1 & -> & Happ1).
    destruct (IH _ _ _ _ Hr) as (out2 & -> & Happ2).
    exists (out1 ++ out2). split; [ rewrite app_assoc; reflexivity | ].
    intros c. simpl. rewrite Happ1. cbn [mbind option_bind].
    rewrite Happ2, app_assoc. reflexivity.
Qed.

Lemma readback_decimal_app2 (a b : list Z) (n : Z) :
  readback_decimal (a ++ b) n = a ++ readback_decimal b n.
Proof.
  rewrite (readback_decimal_app (a ++ b)), (readback_decimal_app b), app_assoc.
  reflexivity.
Qed.

Lemma stk_pop_nonempty (l : list Z) :
  0 < Z.of_nat (length l) -> exists below top, l = below ++ [top] /\ stk_pop l = (top, below).
Proof.
  intros Hlen. destruct (rev l) as [ | top below ] eqn:Hrev.
  - apply (f_equal (@rev Z)) in Hrev. rewrite rev_involutive in Hrev. subst l.
    simpl in Hlen. lia.
  - exists (rev below), top.
    assert (Hl : l = rev below ++ [top]).
    { apply (f_equal (@rev Z)) in Hrev. rewrite rev_involutive in Hrev. exact Hrev. }
    split; [ exact Hl | ]. unfold stk_pop. rewrite Hrev. reflexivity.
Qed.

(** The recursive call on a state whose output is [chrs ++ pre]. *)
Lemma appends_after (f : list Z * list (list Z) -> option (list Z * list (list Z)))
    (pre chrs : list Z) (dirs : list (list Z)) (r : list Z * list (list Z)) :
  (forall chrs dirs r, f (chrs, dirs) = Some r ->
     exists out, r = (chrs ++ out, dirs) /\ appends f dirs out) ->
  f (chrs ++ pre, dirs) = Some r ->
  exists out, r = (chrs ++ pre ++ out, dirs)
              /\ forall c, f (c ++ pre, dirs) = Some (c ++ pre ++ out, dirs).
Proof.
  intros Hf Hr. destruct (Hf _ _ _ Hr) as (out & -> & Happ).
  exists out. split; [ rewrite app_assoc; reflexivity | ].
  intros c. rewrite Happ, app_assoc. reflexivity.
Qed.

(** The recursive call made with the stack of one color replaced by
    [inner], that stack being mapped back by [g] afterwards. *)
Lemma appends_with_col (f : list Z * list (list Z) -> option (list Z * list (list Z)))
    (col : nat) (outer inner : list Z) (g : list Z -> list Z)
    (chrs : list Z) (dirs : list (list Z)) (r : list Z * list (list Z)) :
  (forall chrs dirs r, f (chrs, dirs) = Some r ->
     exists out, r = (chrs ++ out, dirs) /\ appends f dirs out) ->
  dirs !! col = Some outer ->
  g inner = outer ->
  (f (chrs, <[col := inner]> dirs)
     ≫= λ '(chrs, dirs), dirs !! col ≫= λ dirs_col, Some (chrs, <[col := g dirs_col]> dirs))
  = Some r ->
  exists out,
    r = (chrs ++ out, dirs)
    /\ appends f (<[col := inner]> dirs) out
    /\ forall c,
        (f (c, <[col := inner]> dirs)
           ≫= λ '(chrs, dirs), dirs !! col ≫= λ dirs_col, Some (chrs, <[col := g dirs_col]> dirs))
        = Some (c ++ out, dirs).
Proof.
  intros Hf Hcol Hg Hr.
  destruct (f (chrs, <[col := inner]> dirs)) as [ r1 | ] eqn:E1; [ | discriminate Hr ].
  destruct (Hf _ _ _ E1) as (out & -> & Happ).
  assert (Hback : (<[col := inner]> dirs !! col ≫= λ dirs_col,
                     Some (chrs ++ out, <[col := g dirs_col]> (<[col := inner]> dirs)))
                  = Some (chrs ++ out, dirs)).
  { rewrite list_lookup_insert_eq by (eapply lookup_lt_Some; exact Hcol).
    cbn [mbind option_bind]. rewrite list_insert_insert_eq, Hg, list_insert_id by exact Hcol.
    reflexivity. }
  cbn [mbind option_bind] in Hr. rewrite Hback in Hr. injection Hr as <-.
  exists out. split; [ reflexivity | ]. split; [ exact Happ | ].
  intros c. rewrite Happ. cbn [mbind option_bind].
  rewrite list_lookup_insert_eq by (eapply lookup_lt_Some; exact Hcol).
  cbn [mbind option_bind]. rewrite list_insert_insert_eq, Hg, list_insert_id by exact Hcol.
  reflexivity.
Qed.

Lemma readback_term_appends (fuel : nat) :
  forall term chrs dirs r, rt fuel term (chrs, dirs) = Some r ->
    exists out, r = (chrs ++ out, dirs) /\ appends (rt fuel term) dirs out.
Proof.
  induction fuel as [ | fuel IH ]; intros term chrs dirs r Hr; [ discriminate Hr | ].
  unfold appends. cbn [readback_term] in Hr |- *. unfold stk_push in Hr |- *.
  destruct (get_tag term =? LAM).
  { (* LAM *)
    destruct (get_tag (ask_arg mem term 0) =? ERA).
    - rewrite <- !app_assoc in Hr.
      destruct (appends_after _ _ _ _ _ (IH _) Hr) as (out & -> & Happ).
      eexists. split; [ reflexivity | ].
      intros c. rewrite <- !app_assoc, Happ. list_eq.
    - rewrite !readback_decimal_app2, <- !app_assoc in Hr.
      destruct (appends_after _ _ _ _ _ (IH _) Hr) as (out & -> & Happ).
      eexists. split; [ reflexivity | ].
      intros c. rewrite !readback_decimal_app2, <- !app_assoc, Happ. list_eq. }
  destruct (get_tag term =? APP).
  { (* APP *)
    destruct (rt fuel (ask_arg mem term 0) (chrs ++ [chr "("], dirs)) as [ r1 | ] eqn:E1;
      [ | discriminate Hr ].
    destruct (appends_after _ _ _ _ _ (IH _) E1) as (out1 & -> & Happ1).
    cbn [mbind option_bind] in Hr.
    destruct (rt fuel (ask_arg mem term 1) _) as [ r2 | ] eqn:E2; [ | discriminate Hr ].
    rewrite <- !app_assoc in E2.
    destruct (appends_after _ _ _ _ _ (IH _) E2) as (out2 & -> & Happ2).
    cbn [mbind option_bind] in Hr. injection Hr as <-.
    eexists. split; [ rewrite <- !app_assoc; reflexivity | ].
    intros c. rewrite Happ1. cbn [mbind option_bind].
    rewrite <- !app_assoc, Happ2. cbn [mbind option_bind]. list_eq. }
  destruct (get_tag term =? SUP).
  { (* SUP *)
    destruct (dirs !! Z.to_nat (get_ext term)) as [ dirs_col | ] eqn:Ecol;
      [ | discriminate Hr ].
    cbn [mbind option_bind] in Hr |- *.
    destruct (0 <? Z.of_nat (length dirs_col)) eqn:Elen.
    - apply Z.ltb_lt in Elen.
      destruct (stk_pop_nonempty _ Elen) as (below & top & -> & Epop).
      rewrite Epop in Hr |- *.
      destruct (top =? 0).
      + destruct (appends_with_col _ _ _ _ (fun s => s ++ [top]) _ _ _ (IH _) Ecol eq_refl Hr)
          as (out & -> & _ & Happ).
        exists out. split; [ reflexivity | exact Happ ].
      + destruct (appends_with_col _ _ _ _ (fun s => s ++ [top]) _ _ _ (IH _) Ecol eq_refl Hr)
          as (out & -> & _ & Happ).
        exists out. split; [ reflexivity | exact Happ ].
    - destruct (rt fuel (ask_arg mem term 0) (chrs ++ [chr "<"], dirs)) as [ r1 | ] eqn:E1;
        [ | discriminate Hr ].
      destruct (appends_after _ _ _ _ _ (IH _) E1) as (out1 & -> & Happ1).
      cbn [mbind option_bind] in Hr.
      destruct (rt fuel (ask_arg mem term 1) _) as [ r2 | ] eqn:E2; [ | discriminate Hr ].
      rewrite <- !app_assoc in E2.
      destruct (appends_after _ _ _ _ _ (IH _) E2) as (out2 & -> & Happ2).
      cbn [mbind option_bind] in Hr. injection Hr as <-.
      eexists. split; [ rewrite <- !app_assoc; reflexivity | ].
      intros c. rewrite Happ1. cbn [mbind option_bind].
      rewrite <- !app_assoc, Happ2. cbn [mbind option_bind]. list_eq. }
  destruct ((get_tag term =? DP0) || (get_tag term =? DP1)).
  { (* DP0, DP1 *)
    destruct (dirs !! Z.to_nat (get_ext term)) as [ dirs_col | ] eqn:Ecol;
      [ | discriminate Hr ].
    cbn [mbind option_bind] in Hr |- *.
    assert (Hpop : forall x, snd (stk_pop (dirs_col ++ [x])) = dirs_col).
    { intros x. rewrite (stk_pop_push dirs_col x : stk_pop (dirs_col ++ [x]) = _).
      reflexivity. }
    destruct (appends_with_col _ _ _ _ (fun s => snd (stk_pop s)) _ _ _ (IH _) Ecol
                (Hpop _) Hr)
      as (out & -> & _ & Happ).
    exists out. split; [ reflexivity | exact Happ ]. }
  destruct (get_tag term =? OP2).
  { (* OP2 *)
    destruct (rt fuel (ask_arg mem term 0) (chrs ++ [chr "("], dirs)) as [ r1 | ] eqn:E1;
      [ | discriminate Hr ].
    destruct (appends_after _ _ _ _ _ (IH _) E1) as (out1 & -> & Happ1).
    cbn [mbind option_bind] in Hr.
    destruct (rt fuel (ask_arg mem term 1) _) as [ r2 | ] eqn:E2; [ | discriminate Hr ].
    rewrite <- !app_assoc in E2.
    destruct (appends_after _ _ _ _ _ (IH _) E2) as (out2 & -> & Happ2).
    cbn [mbind option_bind] in Hr. injection Hr as <-.
    eexists. split; [ rewrite <- !app_assoc; reflexivity | ].
    intros c. rewrite Happ1. cbn [mbind option_bind].
    rewrite <- !app_assoc, Happ2. cbn [mbind option_bind]. list_eq. }
  destruct (get_tag term =? NUM).
  { (* NUM *)
    injection Hr as <-. rewrite readback_decimal_app.
    eexists. split; [ reflexivity | ].
    intros c. rewrite (readback_decimal_app c). reflexivity. }
  destruct ((get_tag term =? CTR) || (get_tag term =? FUN)).
  { (* CTR, FUN *)
    set (body := fun (i : Z) '(chrs, dirs) =>
                   rt fuel (ask_arg mem term i) (chrs ++ [chr " "], dirs)) in *.
    assert (Hbody : forall i chrs dirs r, body i (chrs, dirs) = Some r ->
              exists out, r = (chrs ++ out, dirs) /\ appends (body i) dirs out).
    { intros i c d r' Hr'. unfold body in Hr'.
      destruct (appends_after _ _ _ _ _ (IH _) Hr') as (out & -> & Happ).
      eexists. split; [ reflexivity | exact Happ ]. }
    pose proof (for_loop_appends body Hbody (Z.to_nat (ask_ari mem term)) 0) as Hloop.
    destruct (if get_ext term <? id_to_name_mcap
              then mjoin (id_to_name_data !! Z.to_nat (get_ext term)) else None)
      as [ name | ].
    - rewrite <- !app_assoc in Hr.
      destruct (for_loop _ _ _ _) as [ r1 | ] eqn:E1; [ | discriminate Hr ].
      destruct (appends_after _ _ _ _ _ Hloop E1) as (out & -> & Happ).
      cbn [mbind option_bind] in Hr. injection Hr as <-.
      eexists. split; [ rewrite <- !app_assoc; reflexivity | ].
      intros c. rewrite <- !app_assoc, Happ. cbn [mbind option_bind]. list_eq.
    - rewrite !readback_decimal_app2, <- !app_assoc in Hr.
      destruct (for_loop _ _ _ _) as [ r1 | ] eqn:E1; [ | discriminate Hr ].
      destruct (appends_after _ _ _ _ _ Hloop E1) as (out & -> & Happ).
      cbn [mbind option_bind] in Hr. injection Hr as <-.
      eexists. split; [ rewrite <- !app_assoc; reflexivity | ].
      intros c. rewrite !readback_decimal_app2, <- !app_assoc, Happ.
      cbn [mbind option_bind]. list_eq. }
  destruct (get_tag term =? VAR).
  { (* VAR *)
    injection Hr as <-. rewrite readback_decimal_app2.
    eexists. split; [ reflexivity | ].
    intros c. rewrite readback_decimal_app2. reflexivity. }
  injection Hr as <-. eexists. split; [ reflexivity | ]. intros c. reflexivity.
Qed.

(** C3 (as amended).  On a SUP whose color indexes the array of direction
    stacks (a color below [DIRS_MCAP]) and has the stack [below ++ [top]],
    [readback_term] prints exactly what it prints for the child selected by
    [top] (the first argument for 0, the second otherwise), that child being
    printed with the stack of the color popped to [below], so that a fan of
    the same color nested in it takes the next direction; afterwards every
    direction stack is what it was before.  When the stack of the color is
    empty it prints ["<"], the first child, a space, the second child and
    [">"]. *)
Theorem readback_term_sup (fuel : nat) (term : Z) (chrs : list Z) (dirs : list (list Z)) :
  get_tag term = SUP ->
  let col := Z.to_nat (get_ext term) in
  (forall below top out dirs',
     dirs !! col = Some (below ++ [top]) ->
     rt fuel (ask_arg mem term (if top =? 0 then 0 else 1)) ([], <[col := below]> dirs)
       = Some (out, dirs') ->
     rt (S fuel) term (chrs, dirs) = Some (chrs ++ out, dirs))
  /\ (forall a b dirs_a dirs_b,
       dirs !! col = Some [] ->
       rt fuel (ask_arg mem term 0) ([], dirs) = Some (a, dirs_a) ->
       rt fuel (ask_arg mem term 1) ([], dirs) = Some (b, dirs_b) ->
       rt (S fuel) term (chrs, dirs)
         = Some (chrs ++ codes "<" ++ a ++ codes " " ++ b ++ codes ">", dirs)).
Proof.
  intros Htag col. split.
  - intros below top out dirs' Hcol Hchild.
    destruct (readback_term_appends _ _ _ _ _ Hchild) as (out' & Heq & Happ).
    injection Heq as -> _. cbn [app] in Happ.
    cbn [readback_term]. rewrite Htag. cbn [Z.eqb Pos.eqb SUP LAM APP].
    fold col. rewrite Hcol. cbn [mbind option_bind].
    assert (Hlen : 0 < Z.of_nat (length (below ++ [top]))).
    { rewrite length_app. simpl. lia. }
    apply Z.ltb_lt in Hlen. rewrite Hlen.
    rewrite (stk_pop_push below top : stk_pop (below ++ [top]) = _).
    assert (Hlt : (col < length dirs)%nat) by (eapply lookup_lt_Some; exact Hcol).
    destruct (top =? 0); rewrite Happ; cbn [mbind option_bind];
      rewrite list_lookup_insert_eq by exact Hlt; cbn [mbind option_bind];
      unfold stk_push; rewrite list_insert_insert_eq, list_insert_id by exact Hcol;
      reflexivity.
  - intros a b dirs_a dirs_b Hcol Ha Hb.
    destruct (readback_term_appends _ _ _ _ _ Ha) as (a' & Heqa & Happa).
    injection Heqa as -> _. cbn [app] in Happa.
    destruct (readback_term_appends _ _ _ _ _ Hb) as (b' & Heqb & Happb).
    injection Heqb as -> _. cbn [app] in Happb.
    cbn [readback_term]. rewrite Htag. cbn [Z.eqb Pos.eqb SUP LAM APP].
    fold col. rewrite Hcol. cbn [mbind option_bind length Z.of_nat Z.ltb Z.compare].
    rewrite Happa. cbn [mbind option_bind]. rewrite Happb. cbn [mbind option_bind].
    unfold stk_push. f_equal. f_equal. list_eq.
Qed.

End Readback.

Lemma readback_term_sup_witness :
  readback_term 2 fan_7_8 (Par 3 1) [] id_to_name_data id_to_name_size ([], dirs_3_right)
  = Some (codes "8", dirs_3_right).
Proof.
  apply (proj1 (readback_term_sup fan_7_8 [] id_to_name_data id_to_name_size
                  1 (Par 3 1) [] dirs_3_right eq_refl)
           [] 1 (codes "8") (<[3%nat := []]> dirs_3_right)); reflexivity.
Defined.

(** C3 (as stated) fails for nested fans of one color: the stack is not
    left unchanged while the selected child is printed, its top is popped
    before the recursion and pushed back after it.  In [<<1 2> 3>] with the
    stack [[0]] for the color of both fans, the outer fan takes the
    direction and its first child, the fan [<1 2>], is printed with an
    empty stack, in raw form; printed with the stack unchanged, that child
    gives [1]. *)
Lemma readback_sup_pops_direction :
  ask_arg nested_fans (Par 3 1) 0 = Par 3 3
  /\ readback_term 3 nested_fans (Par 3 1) [] id_to_name_data id_to_name_size ([], dirs_3_left)
     = Some (codes "<1 2>", dirs_3_left)
  /\ readback_term 3 nested_fans (Par 3 3) [] id_to_name_data id_to_name_size ([], dirs_3_left)
     = Some (codes "1", dirs_3_left).
Proof. repeat split; reflexivity. Qed.

(** [dup a b = <<1 2> 3>; a] with all three of one color: the outer fan
    takes the direction pushed by [a], so the fan nested in it is printed
    with an empty stack, in raw form. *)
Example readback_nested_fan :
  readback_text 10
    (ffi_worker 0 (heap_of [Dp0 3 1; Arg 0; Era; Par 3 4; Par 3 6; Num 3; Num 1; Num 2])
       8 id_to_arity_data id_to_arity_size)
    (Dp0 3 1)
  = Some "<1 2>"%string.
Proof. reflexivity. Qed.

(** ** Readback: the output buffer *)

(** When the text has [code_mcap] characters or more, the terminating NUL
    is stored at index [code_mcap], which is not an index of a buffer of
    [code_mcap] bytes. *)
Lemma readback_stores_nul_index (chrs : list Z) (code_mcap : Z) :
  0 <= code_mcap <= Z.of_nat (length chrs) ->
  last (readback_stores chrs code_mcap) = Some (code_mcap, chr "000").
Proof.
  intros Hcap. unfold readback_stores. rewrite last_snoc.
  destruct (Z.ltb_spec (Z.of_nat (length chrs)) code_mcap); [ lia | reflexivity ].
Qed.

(** When the text is shorter than the buffer every store is inside it. *)
Lemma readback_stores_inside (chrs : list Z) (code_mcap : Z) :
  Z.of_nat (length chrs) < code_mcap ->
  Forall (fun store => 0 <= fst store < code_mcap) (readback_stores chrs code_mcap).
Proof.
  intros Hlen. unfold readback_stores. apply Forall_app. split.
  - apply Forall_forall. intros [i c] Hin.
    apply list_elem_of_lookup in Hin as [k Hk].
    rewrite list_lookup_imap in Hk.
    destruct (take (Z.to_nat code_mcap) chrs !! k) as [ c' | ] eqn:Hc; [ | discriminate Hk ].
    injection Hk as <- <-. apply lookup_lt_Some in Hc.
    rewrite length_take in Hc. cbn [fst]. lia.
  - constructor; [ | constructor ].
    destruct (Z.ltb_spec (Z.of_nat (length chrs)) code_mcap); cbn [fst]; lia.
Qed.

(** C4, at a failing input.  With a buffer of [code_mcap = 3] bytes (indices
    0 to 2) and the term 12345, [readback] stores the first three characters
    of the text and then stores the terminating NUL at index 3, one past the
    end of the buffer.  In general, whenever [readback] returns, its stores
    are those of a text [chrs]: the first [code_mcap] characters at most,
    each at its own index, then the NUL, which is inside the buffer when
    the text is shorter than [code_mcap] and at index [code_mcap] when it
    is not. *)
Theorem readback_nul_past_end :
  readback 10 3 num_12345 (ask_lnk num_12345 0) id_to_name_data id_to_name_size
  = Some [(0, chr "1"); (1, chr "2"); (2, chr "3"); (3, chr "000")]
  /\ forall fuel code_mcap mem term names n stores,
       readback fuel code_mcap mem term names n = Some stores ->
       exists chrs,
         stores = readback_stores chrs code_mcap
         /\ (Z.of_nat (length chrs) < code_mcap ->
             Forall (fun store => 0 <= fst store < code_mcap) stores)
         /\ (0 <= code_mcap <= Z.of_nat (length chrs) ->
             last stores = Some (code_mcap, chr "000")).
Proof.
  split; [ reflexivity | ].
  intros fuel code_mcap mem term names n stores Hrun. unfold readback in Hrun.
  destruct (readback_vars fuel mem term (stk_init, stk_init)) as [ [vars seen] | ];
    [ | discriminate Hrun ].
  cbn [mbind option_bind] in Hrun.
  destruct (readback_term fuel mem term vars names n _) as [ [chrs dirs] | ];
    [ | discriminate Hrun ].
  cbn [mbind option_bind] in Hrun. injection Hrun as <-.
  exists chrs. split; [ reflexivity | ].
  split; [ apply readback_stores_inside | apply readback_stores_nul_index ].
Qed.

(** ** Functions outside the arity table *)

Lemma ask_ari_outside (mem : Worker) (lnk : Z) :
  funs mem <= get_ext lnk -> ask_ari mem lnk = 0.
Proof.
  intros Hext. unfold ask_ari.
  destruct (Z.ltb_spec (get_ext lnk) (funs mem)); [ lia | reflexivity ].
Qed.

Lemma reduce_descent_outside (slen : Z) (st : Loop) (term : Z) :
  get_tag term = FUN -> funs (wrk st) <= get_ext term ->
  reduce_descent slen st term = Some (Break, st).
Proof.
  intros Htag Hext. unfold reduce_descent. rewrite Htag.
  cbn [Z.eqb Pos.eqb FUN APP DP0 DP1 OP2 orb].
  rewrite ask_ari_outside by exact Hext.
  cbn [Z.eqb]. rewrite !andb_false_r. reflexivity.
Qed.

Lemma reduce_fun_no_rule (fuel : nat) (st : Loop) (term : Z) :
  get_ext term ∉ rule_ids -> reduce_fun fuel st term = Some (Break, st).
Proof.
  intros Hid. unfold reduce_fun, rule_ids in *.
  repeat match goal with
         | |- context [get_ext term =? ?id] =>
             destruct (Z.eqb_spec (get_ext term) id) as [Heq | _];
             [ exfalso; apply Hid; rewrite Heq; set_solver | ]
         end.
  reflexivity.
Qed.

Lemma get_bit_normal_init (bit : Z) : get_bit normal_init bit = 0.
Proof.
  unfold get_bit, normal_init. rewrite lookup_empty. cbn [default].
  rewrite Z.shiftr_0_l. reflexivity.
Qed.

Lemma reduce_stuck_at_root (fuel : nat) (mem : Worker) (root slen : Z) :
  0 <= root < 2 ^ 32 ->
  reduce_body (S fuel) slen (mkLoop 1 root stk_init mem)
    = Some (Break, mkLoop 1 root stk_init mem) ->
  reduce (S fuel) mem root slen = Some (ask_lnk mem root, mem).
Proof.
  intros Hroot Hbody. unfold reduce, trunc32. rewrite Z.mod_small by exact Hroot.
  cbn [reduce_loop]. unfold reduce_step. rewrite Hbody. reflexivity.
Qed.

(** C9.  [ask_ari] is 0 on every link whose ext is not below the size of
    the arity table.  On a FUN link with such an id the descent phase of
    [reduce] forces no argument and the ascent phase, the id having no
    generated rule, applies none: both leave the state as it is and fall to
    the pop.  So [reduce] called on it returns the link with the worker
    unchanged, and [normal] returns it after marking the host as seen, the
    worker (heap, free-lists, cost) unchanged. *)
Theorem fun_outside_table_stuck (mem : Worker) :
  (forall lnk, funs mem <= get_ext lnk -> ask_ari mem lnk = 0)
  /\ (forall term, get_tag term = FUN -> funs mem <= get_ext term ->
      (forall fuel slen st,
         wrk st = mem -> init st = 1 -> ask_lnk mem (host st) = term ->
         reduce_body fuel slen st = Some (Break, st))
      /\ (forall fuel slen st,
            wrk st = mem -> init st <> 1 -> ask_lnk mem (host st) = term ->
            get_ext term ∉ rule_ids ->
            reduce_body fuel slen st = Some (Break, st))
      /\ (forall fuel root slen,
            0 <= root < 2 ^ 32 -> ask_lnk mem root = term ->
            reduce (S fuel) mem root slen = Some (term, mem))
      /\ (forall fuel host sidx slen,
            0 <= host < 2 ^ 29 -> ask_lnk mem host = term ->
            normal (S fuel) mem host sidx slen
              = Some (term, (mem, set_bit normal_init host)))).
Proof.
  split; [ apply ask_ari_outside | ].
  intros term Htag Hext.
  assert (Hdescent : forall fuel slen st,
            wrk st = mem -> init st = 1 -> ask_lnk mem (host st) = term ->
            reduce_body fuel slen st = Some (Break, st)).
  { intros fuel slen st Hwrk Hinit Hterm.
    rewrite reduce_body_descent by exact Hinit. rewrite Hwrk, Hterm.
    apply reduce_descent_outside; [ exact Htag | rewrite Hwrk; exact Hext ]. }
  assert (Hreduce : forall fuel root slen,
            0 <= root < 2 ^ 32 -> ask_lnk mem root = term ->
            reduce (S fuel) mem root slen = Some (term, mem)).
  { intros fuel root slen Hroot Hterm. rewrite <- Hterm.
    apply reduce_stuck_at_root; [ exact Hroot | ].
    apply Hdescent; [ reflexivity | reflexivity | exact Hterm ]. }
  split; [ exact Hdescent | ].
  split.
  { intros fuel slen st Hwrk Hinit Hterm Hid.
    rewrite reduce_body_ascent by exact Hinit. rewrite Hwrk, Hterm.
    unfold reduce_ascent. rewrite Htag. cbn [Z.eqb Pos.eqb FUN APP DP0 DP1 OP2 orb].
    apply reduce_fun_no_rule. exact Hid. }
  split; [ exact Hreduce | ].
  intros fuel host sidx slen Hhost Hterm.
  assert (Hgo : forall sidx slen,
            normal_go (S fuel) host sidx slen (mem, normal_init)
            = Some (term, (mem, set_bit normal_init host))).
  { intros sidx' slen'. cbn [normal_go].
    assert (Hidx : Z.shiftr host 6 < NORMAL_SEEN_MCAP).
    { rewrite Z.shiftr_div_pow2 by lia. apply Z.div_lt_upper_bound; [ lia | ].
      change (2 ^ 6 * NORMAL_SEEN_MCAP) with (2 ^ 29). lia. }
    destruct (Z.leb_spec NORMAL_SEEN_MCAP (Z.shiftr host 6)); [ lia | ].
    rewrite get_bit_normal_init. cbn [Z.eqb negb].
    rewrite Hreduce by (try exact Hterm; lia). cbn [mbind option_bind].
    unfold normal_rec_locs. rewrite Htag.
    cbn [Z.eqb Pos.eqb FUN LAM APP SUP DP0 DP1 OP2 CTR orb].
    rewrite ask_ari_outside by exact Hext. reflexivity. }
  unfold normal. rewrite Hgo. cbn [mbind option_bind normal_loop].
  rewrite Hgo. cbn [mbind option_bind]. rewrite Z.eqb_refl. reflexivity.
Qed.

Lemma fun_outside_table_stuck_witness :
  ask_ari call_50 (Cal 1 50 1) = 0
  /\ normal 1 call_50 0 0 MAX_WORKERS = Some (Cal 1 50 1, (call_50, set_bit normal_init 0)).
Proof.
  destruct (fun_outside_table_stuck call_50) as (Hari & Hstuck).
  split; [ apply Hari; vm_compute; discriminate | ].
  destruct (Hstuck (Cal 1 50 1)) as (_ & _ & _ & Hnormal).
  - reflexivity.
  - vm_compute. discriminate.
  - apply Hnormal; [ lia | reflexivity ].
Defined.

(** ** DUP-SUP *)

Lemma free_link (mem : Worker) (loc lnk : Z) : free (link mem loc lnk) = free mem.
Proof. unfold link. destruct (get_tag lnk <=? VAR); reflexivity. Qed.

Lemma cost_link (mem : Worker) (loc lnk : Z) : cost (link mem loc lnk) = cost mem.
Proof. unfold link. destruct (get_tag lnk <=? VAR); reflexivity. Qed.

Lemma subst_occurrence (fuel : nat) (mem : Worker) (lnk val : Z) :
  get_tag lnk <> ERA -> subst fuel mem lnk val = Some (link mem (get_loc lnk 0) val).
Proof.
  intros Htag. unfold subst.
  destruct (Z.eqb_spec (get_tag lnk) ERA); [ contradiction | reflexivity ].
Qed.

Lemma reduce_ascent_DUP (fuel : nat) (st : Loop) (term : Z) :
  get_tag term = DP0 \/ get_tag term = DP1 ->
  reduce_ascent fuel st term = reduce_dup fuel st term.
Proof. intros [Htag | Htag]; unfold reduce_ascent; rewrite Htag; reflexivity. Qed.

(** C6.  In the ascent phase at a DP0 or DP1 link whose shared subject is a
    SUP of the same color, one pass of the loop body annihilates the two
    nodes.  With [a] and [b] the arguments of the SUP and [L0], [L1] the
    occurrences recorded in slots 0 and 1 of the duplication node (neither
    slot being ERA, the host being the occurrence of its own projection, and
    the words of the two nodes not being among those the substitutions
    write): [a] is written at [L0], [b] at [L1], the host holds [a] for DP0
    and [b] for DP1, one rewrite is counted, the address of the 3-word
    duplication node is pushed on the free-list of size 3 and that of the
    2-word SUP node on the free-list of size 2, and the loop continues with
    [init = 1] at the same host. *)
Theorem dup_sup_annihilate (fuel : nat) (slen : Z) (st : Loop) :
  let mem := wrk st in
  let term := ask_lnk mem (host st) in
  let arg0 := ask_arg mem term 2 in
  let a := ask_arg mem arg0 0 in
  let b := ask_arg mem arg0 1 in
  let L0 := get_loc (ask_arg mem term 0) 0 in
  let L1 := get_loc (ask_arg mem term 1) 0 in
  let written := link_writes L0 a ++ link_writes L1 b in
  init st <> 1 ->
  get_tag term = DP0 \/ get_tag term = DP1 ->
  get_tag arg0 = SUP ->
  get_ext term = get_ext arg0 ->
  get_tag (ask_arg mem term 0) <> ERA ->
  get_tag (ask_arg mem term 1) <> ERA ->
  host st = (if get_tag term =? DP0 then L0 else L1) ->
  L0 <> L1 ->
  (is_var a = true -> binder_slot a <> L0 /\ binder_slot a <> L1) ->
  (is_var b = true -> binder_slot b <> L0 /\ binder_slot b <> L1) ->
  get_loc term 1 ∉ written -> get_loc arg0 0 ∉ written -> get_loc arg0 1 ∉ written ->
  exists st',
    reduce_body fuel slen st = Some (Continue, st')
    /\ init st' = 1 /\ host st' = host st /\ stack st' = stack st
    /\ cost (wrk st') = add64 (cost mem) 1
    /\ ask_lnk (wrk st') L0 = a
    /\ ask_lnk (wrk st') L1 = b
    /\ ask_lnk (wrk st') (host st) = (if get_tag term =? DP0 then a else b)
    /\ free_stk (wrk st') 3 = stk_push (free_stk mem 3) (get_loc term 0)
    /\ free_stk (wrk st') 2 = stk_push (free_stk mem 2) (get_loc arg0 0).
Proof.
  intros mem term arg0 a b L0 L1 written Hinit Htag Hsup Hext Hocc0 Hocc1 Hhost Hne Hva Hvb
         Hslot1 Hsup0 Hsup1.
  rewrite reduce_body_ascent by exact Hinit. fold mem. fold term.
  rewrite reduce_ascent_DUP by exact Htag.
  unfold reduce_dup, reduce_dup_rules. fold mem. fold term. fold arg0.
  rewrite Hsup. cbn [Z.eqb Pos.eqb SUP LAM]. rewrite <- Hext, Z.eqb_refl.
  change (ask_arg (inc_cost mem) term 0) with (ask_arg mem term 0).
  change (ask_arg (inc_cost mem) arg0 0) with a.
  apply not_elem_of_app in Hslot1 as [Hslot1a Hslot1b].
  apply not_elem_of_app in Hsup0 as [Hsup0a Hsup0b].
  apply not_elem_of_app in Hsup1 as [Hsup1a Hsup1b].
  rewrite subst_occurrence by exact Hocc0. cbn [mbind option_bind]. fold L0.
  set (mem1 := link (inc_cost mem) L0 a).
  assert (Hread1 : ask_arg mem1 term 1 = ask_arg mem term 1).
  { unfold ask_arg, mem1. rewrite link_frame by exact Hslot1a. reflexivity. }
  assert (Hreadb : ask_arg mem1 arg0 1 = b).
  { unfold ask_arg, mem1. rewrite link_frame by exact Hsup1a. reflexivity. }
  rewrite Hread1, Hreadb, subst_occurrence by exact Hocc1.
  cbn [mbind option_bind]. fold L1.
  set (mem2 := link mem1 L1 b).
  set (side := if get_tag term =? DP0 then 0 else 1).
  assert (Hreadx : ask_arg mem2 arg0 side = (if get_tag term =? DP0 then a else b)).
  { unfold ask_arg, mem2, mem1, side.
    destruct (get_tag term =? DP0).
    - rewrite !link_frame by assumption. reflexivity.
    - rewrite !link_frame by assumption. reflexivity. }
  rewrite Hreadx. rewrite !clear_small by reflexivity. cbn [mbind option_bind].
  unfold redo. cbn [mbind option_bind].
  eexists. split; [ reflexivity | ].
  cbn [init host stack wrk].
  split; [ reflexivity | ]. split; [ reflexivity | ]. split; [ reflexivity | ].
  set (x := if get_tag term =? DP0 then a else b).
  assert (HL0 : L0 ∉ link_writes L1 b).
  { unfold link_writes. destruct (is_var b) eqn:Hb.
    - destruct (Hvb eq_refl) as [? ?]. rewrite !not_elem_of_cons. auto using not_elem_of_nil.
    - rewrite !not_elem_of_cons. auto using not_elem_of_nil. }
  assert (HL1 : L1 ∉ link_writes L0 a).
  { unfold link_writes. destruct (is_var a) eqn:Ha.
    - destruct (Hva eq_refl) as [? ?]. rewrite !not_elem_of_cons. auto using not_elem_of_nil.
    - rewrite !not_elem_of_cons. auto using not_elem_of_nil. }
  assert (Hfinal : ask_lnk (link mem2 (host st) x) L0 = a
                   /\ ask_lnk (link mem2 (host st) x) L1 = b
                   /\ ask_lnk (link mem2 (host st) x) (host st) = x).
  { unfold x. rewrite Hhost. destruct (get_tag term =? DP0).
    - assert (Ha0 : ask_lnk (link mem2 L0 a) L0 = a).
      { apply link_loc. intros Ha. apply (Hva Ha). }
      split; [ exact Ha0 | ]. split; [ | exact Ha0 ].
      rewrite link_frame by exact HL1. unfold mem2.
      apply link_loc. intros Hb. apply (Hvb Hb).
    - assert (Hb1 : ask_lnk (link mem2 L1 b) L1 = b).
      { apply link_loc. intros Hb. apply (Hvb Hb). }
      split; [ | split; exact Hb1 ].
      rewrite link_frame by exact HL0. unfold mem2. rewrite link_frame by exact HL0.
      unfold mem1. apply link_loc. intros Ha. apply (Hva Ha). }
  destruct Hfinal as (Hf0 & Hf1 & Hfh).
  split.
  { cbn [cost set_free]. unfold mem2, mem1. rewrite !cost_link. reflexivity. }
  split; [ exact Hf0 | ]. split; [ exact Hf1 | ]. split; [ exact Hfh | ].
  unfold free_stk, mem2, mem1. cbn [free set_free].
  rewrite !free_link. cbn [free inc_cost set_cost].
  split.
  - rewrite lookup_insert_ne by discriminate. rewrite lookup_insert_eq. reflexivity.
  - rewrite lookup_insert_eq. cbn [default].
    rewrite lookup_insert_ne by discriminate. reflexivity.
Qed.

Ltac not_in_list :=
  match goal with
  | |- ?x ∉ ?l =>
      let l' := eval vm_compute in l in
      let x' := eval vm_compute in x in
      change (x' ∉ l')
  end;
  rewrite ?not_elem_of_cons; repeat split; (discriminate || apply not_elem_of_nil).

Lemma dup_sup_annihilate_witness :
  exists st',
    reduce_body 0 1 dup_7_8 = Some (Continue, st')
    /\ ask_lnk (wrk st') 0 = Num 7
    /\ ask_lnk (wrk st') 1 = Num 8
    /\ free_stk (wrk st') 3 = [2]
    /\ free_stk (wrk st') 2 = [5].
Proof.
  destruct (dup_sup_annihilate 0 1 dup_7_8)
    as (st' & Hbody & _ & _ & _ & _ & H0 & H1 & _ & Hfree3 & Hfree2).
  - discriminate.
  - left. reflexivity.
  - reflexivity.
  - reflexivity.
  - vm_compute. discriminate.
  - vm_compute. discriminate.
  - reflexivity.
  - vm_compute. discriminate.
  - intros Hvar. discriminate Hvar.
  - intros Hvar. discriminate Hvar.
  - not_in_list.
  - not_in_list.
  - not_in_list.
  - exists st'. repeat split; assumption.
Defined.

(** ** normal on a normal form *)

(** C7, at a failing input.  [stuck_xor] holds a graph in normal form,
    printed [@x0 (x0^1)]: [reduce] rewrites nothing at any of its term
    positions (the root, the body and the two operands).  [normal] on its
    root with [slen = 1] returns the root link and leaves words 0 to 4 as
    they were, but counts one rewrite:
    [normal_go] falls from its OP2 case into the CTR/FUN case, takes 3, the
    arity of function 7 (the code of XOR), for the arity of the OP2 node,
    and so reduces word 5, next to the node, where it fires APP-LAM.  The
    loop of [normal], which runs with [slen = 1] whatever budget [normal]
    was called with, does the same on its own. *)
Theorem normal_rewrites_beside_stuck_op2 :
  readback_text 20 stuck_xor (ask_lnk stuck_xor 0) = Some "@x0 (x0^1)"%string
  /\ Forall (fun host => reduce 20 stuck_xor host 1
                         = Some (ask_lnk stuck_xor host, stuck_xor)) [0; 2; 3; 4]
  /\ normal_rec_locs stuck_xor (Op2 XOR 3) 1 = Some [3; 4; 5]
  /\ cost stuck_xor = 0
  /\ (exists mem seen,
        normal 20 stuck_xor 0 0 1 = Some (Lam 1, (mem, seen))
        /\ cost mem = 1
        /\ map (ask_lnk mem) [0; 1; 2; 3; 4] = map (ask_lnk stuck_xor) [0; 1; 2; 3; 4]
        /\ ask_lnk stuck_xor 5 = App 6
        /\ ask_lnk mem 5 = Num 42
        /\ readback_text 20 mem (ask_lnk mem 0) = Some "@x0 (x0^1)"%string)
  /\ (exists mem seen,
        normal_loop 20 20 0 (cost stuck_xor) stuck_xor = Some (Lam 1, (mem, seen))
        /\ cost mem = 1).
Proof.
  split; [ reflexivity | ].
  split; [ repeat constructor | ].
  split; [ reflexivity | ]. split; [ reflexivity | ].
  split.
  - destruct (normal 20 stuck_xor 0 0 1) as [ [done [mem seen]] | ] eqn:Hnormal;
      [ | vm_compute in Hnormal; discriminate Hnormal ].
    exists mem, seen.
    assert (Hrun : normal 20 stuck_xor 0 0 1 = Some (done, (mem, seen))) by exact Hnormal.
    vm_compute in Hnormal. injection Hnormal as <- <- <-.
    split; [ exact Hrun | ]. repeat split; reflexivity.
  - destruct (normal_loop 20 20 0 (cost stuck_xor) stuck_xor)
      as [ [done [mem seen]] | ] eqn:Hloop;
      [ | vm_compute in Hloop; discriminate Hloop ].
    exists mem, seen.
    assert (Hrun : normal_loop 20 20 0 (cost stuck_xor) stuck_xor
                   = Some (done, (mem, seen))) by exact Hloop.
    vm_compute in Hloop. injection Hloop as <- <- <-.
    split; [ exact Hrun | reflexivity ].
Qed.

(** ** The embedding on the scenarios of the specification *)

(** [((@x x) 42)] *)
Example scenario_church_identity :
  normal_text 20 [App 1; Lam 3; Num 42; Arg 4; Var 3] = Some (1, "42"%string).
Proof. reflexivity. Qed.

(** [dup a b = (Both 7 8); (Both a b)] *)
Example scenario_duplicate_pair :
  normal_text 20 [Ctr 2 30 1; Dp0 9 3; Dp1 9 3; Arg 1; Arg 2; Ctr 2 30 6; Num 7; Num 8]
  = Some (3, "(Both (Both 7 8) (Both 7 8))"%string).
Proof. reflexivity. Qed.

(** [((@n (+ n n)) 21)], the two uses of [n] being the projections of a
    duplication. *)
Example scenario_arithmetic :
  normal_text 20 [App 1; Lam 3; Num 21; Arg 9; Op2 ADD 5; Dp0 1 7; Dp1 1 7;
                  Arg 5; Arg 6; Var 3]
  = Some (3, "42"%string).
Proof. reflexivity. Qed.

(** [(<(@x x) (@y y)> 5)] *)
Example scenario_fan_application :
  normal_text 20 [App 1; Par 2 3; Num 5; Lam 5; Lam 7; Arg 6; Var 5; Arg 8; Var 7]
  = Some (4, "<5 5>"%string).
Proof. reflexivity. Qed.

(** ** The link codec: round trips *)

Lemma lor_shift (n k r : Z) :
  0 <= n -> 0 <= r < 2 ^ n -> Z.lor (k * 2 ^ n) r = k * 2 ^ n + r.
Proof.
  intros Hn Hr.
  assert (Hland : Z.land (k * 2 ^ n) r = 0).
  { apply Z.bits_inj'. intros i Hi.
    rewrite Z.land_spec, Z.bits_0, <- Z.shiftl_mul_pow2 by lia.
    destruct (Z.ltb_spec i n) as [Hlt | Hge].
    - rewrite Z.shiftl_spec_low by lia. reflexivity.
    - rewrite <- (Z.mod_small r (2 ^ n)) by lia.
      rewrite Z.mod_pow2_bits_high by lia. apply andb_false_r. }
  rewrite <- Z.lxor_lor by exact Hland.
  symmetry. apply Z.add_nocarry_lxor. exact Hland.
Qed.

(** A word made of a tag, an ext and a val, as the constructors make it. *)
Lemma pack_fields (t e v : Z) :
  0 <= t < 16 -> 0 <= e < 2 ^ 24 -> 0 <= v < 2 ^ 32 ->
  decode (Z.lor (Z.lor (t * TAG) (mul64 e EXT)) v) = (t, e, v).
Proof.
  intros Ht He Hv. unfold mul64, EXT, TAG.
  change 0x100000000 with (2 ^ 32). change 0x1000000000000000 with (2 ^ 60).
  rewrite (Z.mod_small (e * 2 ^ 32)) by lia.
  rewrite (lor_shift 60 t (e * 2 ^ 32)) by lia.
  replace (t * 2 ^ 60 + e * 2 ^ 32) with ((t * 2 ^ 28 + e) * 2 ^ 32) by lia.
  rewrite lor_shift by lia.
  unfold decode, get_tag, get_ext, get_val, TAG, EXT.
  change 0x100000000 with (2 ^ 32). change 0x1000000000000000 with (2 ^ 60).
  change 0xFFFFFF with (Z.ones 24). change 0xFFFFFFFF with (Z.ones 32).
  rewrite !Z.land_ones by lia.
  f_equal; [ f_equal | ].
  - replace ((t * 2 ^ 28 + e) * 2 ^ 32 + v) with (t * 2 ^ 60 + (e * 2 ^ 32 + v)) by lia.
    rewrite Z.div_add_l by lia. rewrite (Z.div_small (e * 2 ^ 32 + v)) by lia. lia.
  - rewrite Z.div_add_l by lia. rewrite (Z.div_small v) by lia.
    rewrite Z.add_0_r. replace (t * 2 ^ 28 + e) with (e + (t * 16) * 2 ^ 24) by lia.
    rewrite Z.mod_add by lia. apply Z.mod_small. lia.
  - rewrite Z.add_comm, Z.mod_add by lia. apply Z.mod_small. lia.
Qed.

Lemma pack_tag_val (t v : Z) :
  0 <= t < 16 -> 0 <= v < 2 ^ 32 -> decode (Z.lor (t * TAG) v) = (t, 0, v).
Proof.
  intros Ht Hv.
  rewrite <- (pack_fields t 0 v) by lia. f_equal.
  unfold mul64. rewrite Z.mul_0_l, Z.mod_0_l by lia. rewrite Z.lor_0_r. reflexivity.
Qed.

(** X1.  Every constructor of a link that points into the heap can be read back:
    for a position below [2^32] and a color, operator or function id below
    [2^24], the tag, the ext and the val of the link are the constructor's
    tag and arguments (the ext being 0 for [Var], [Arg], [Lam] and [App]). *)
Theorem link_fields_roundtrip (col pos : Z) :
  0 <= col < 2 ^ 24 -> 0 <= pos < 2 ^ 32 ->
  decode (Var pos) = (VAR, 0, pos)
  /\ decode (Arg pos) = (ARG, 0, pos)
  /\ decode (Lam pos) = (LAM, 0, pos)
  /\ decode (App pos) = (APP, 0, pos)
  /\ decode (Dp0 col pos) = (DP0, col, pos)
  /\ decode (Dp1 col pos) = (DP1, col, pos)
  /\ decode (Par col pos) = (SUP, col, pos)
  /\ decode (Op2 col pos) = (OP2, col, pos)
  /\ (forall ari, decode (Ctr ari col pos) = (CTR, col, pos))
  /\ (forall ari, decode (Cal ari col pos) = (FUN, col, pos)).
Proof.
  intros Hcol Hpos.
  repeat split; intros;
    first [ apply pack_tag_val; [ vm_compute; split; congruence | exact Hpos ]
          | apply pack_fields; [ vm_compute; split; congruence | exact Hcol | exact Hpos ] ].
Qed.

Lemma link_fields_roundtrip_witness :
  decode (Dp1 16777215 4294967295) = (DP1, 16777215, 4294967295)
  /\ decode (Cal 2 34 100) = (FUN, 34, 100).
Proof.
  destruct (link_fields_roundtrip 16777215 4294967295) as (_ & _ & _ & _ & _ & Hdp1 & _);
    [ lia | lia | ].
  destruct (link_fields_roundtrip 34 100) as (_ & _ & _ & _ & _ & _ & _ & _ & _ & Hcal);
    [ lia | lia | ].
  split; [ exact Hdp1 | exact (Hcal 2) ].
Defined.

(** ** Numbers *)

(** X2.  [Num] keeps the low 60 bits of its argument and nothing else; on a
    64-bit word whose tag is NUM, [get_num] followed by [Num] gives the word
    back. *)
Theorem num_roundtrip (v : Z) :
  get_tag (Num v) = NUM
  /\ get_num (Num v) = v mod 2 ^ 60
  /\ Num (v mod 2 ^ 60) = Num v
  /\ 0 <= Num v < 2 ^ 64
  /\ (forall lnk, get_tag lnk = NUM -> Num (get_num lnk) = lnk).
Proof.
  split; [ apply get_tag_Num | ].
  split; [ apply get_num_Num | ].
  split; [ rewrite !Num_eq, Z.mod_mod by lia; reflexivity | ].
  split.
  { rewrite Num_eq. unfold NUM, TAG.
    pose proof (Z.mod_pos_bound v (2 ^ 60) ltac:(lia)). lia. }
  intros lnk Htag. rewrite Num_eq. unfold get_num.
  change 0xFFFFFFFFFFFFFFF with NUM_MASK. rewrite land_num_mask, Z.mod_mod by lia.
  unfold get_tag in Htag. rewrite <- Htag. change TAG with (2 ^ 60).
  pose proof (Z.div_mod lnk (2 ^ 60) ltac:(lia)). lia.
Qed.

Lemma num_roundtrip_witness : Num (get_num (Num (2 ^ 60 + 5))) = Num (2 ^ 60 + 5).
Proof.
  destruct (num_roundtrip 0) as (_ & _ & _ & _ & Hback).
  apply Hback. reflexivity.
Defined.

(** ** Stacks *)

(** X3.  A stack is last-in first-out: after pushing [vals] in order, as many
    pops return them in reverse order and leave the stack as it was before;
    a pop of the empty stack returns [-1] and leaves it empty. *)
Theorem stk_lifo (stack vals : list Z) :
  stk_pops (length vals) (fold_left stk_push vals stack) = (rev vals, stack)
  /\ stk_pop stk_init = (U64_MAX, stk_init).
Proof.
  split; [ | reflexivity ].
  induction vals as [ | val vals IH ] using rev_ind; [ reflexivity | ].
  rewrite fold_left_app, length_app, Nat.add_comm, rev_app_distr. cbn [length Nat.add fold_left rev app stk_pops].
  rewrite stk_pop_push, IH. reflexivity.
Qed.

Lemma stk_find_from_spec (data : list Z) (val i : Z) :
  (val ∉ data -> stk_find_from i data val = U64_MAX)
  /\ (val ∈ data ->
      exists k : nat, stk_find_from i data val = i + Z.of_nat k
                      /\ data !! k = Some val
                      /\ forall j : nat, (j < k)%nat -> data !! j <> Some val).
Proof.
  revert i. induction data as [ | x rest IH ]; intros i.
  - split; [ reflexivity | ]. intros Hin. inversion Hin.
  - cbn [stk_find_from]. destruct (Z.eqb_spec x val) as [-> | Hne].
    + split; [ intros Hnin; exfalso; apply Hnin; left | ].
      intros _. exists 0%nat. split; [ lia | ]. split; [ reflexivity | ].
      intros j Hj. lia.
    + destruct (IH (i + 1)) as [IHout IHin]. split.
      * intros Hnin. apply IHout. intros Hin. apply Hnin. right. exact Hin.
      * intros Hin. apply elem_of_cons in Hin. destruct Hin as [-> | Hin]; [ contradiction | ].
        destruct (IHin Hin) as (k & Hk & Hlook & Hfirst).
        exists (S k). split; [ lia | ]. split; [ exact Hlook | ].
        intros [ | j ] Hj; cbn; [ congruence | ]. apply Hfirst. lia.
Qed.

(** X4.  [stk_find] returns the index of the first occurrence of a value in a
    stack, counted from the bottom, and [-1] when the value is not there. *)
Theorem stk_find_first (stk : list Z) (val : Z) :
  (val ∉ stk -> stk_find stk val = U64_MAX)
  /\ (val ∈ stk ->
      exists k : nat, stk_find stk val = Z.of_nat k
                      /\ stk !! k = Some val
                      /\ forall j : nat, (j < k)%nat -> stk !! j <> Some val).
Proof.
  unfold stk_find. destruct (stk_find_from_spec stk val 0) as [Hout Hin].
  split; [ exact Hout | ]. intros H. destruct (Hin H) as (k & Hk & Hrest).
  exists k. split; [ rewrite Hk; lia | exact Hrest ].
Qed.

Lemma stk_find_first_witness :
  stk_find [5; 9; 7; 9] 4 = U64_MAX
  /\ exists k : nat, stk_find [5; 9; 7; 9] 9 = Z.of_nat k /\ [5; 9; 7; 9] !! k = Some 9.
Proof.
  split.
  - destruct (stk_find_first [5; 9; 7; 9] 4) as [Hout _]. apply Hout.
    rewrite !not_elem_of_cons. repeat split; try lia. apply not_elem_of_nil.
  - destruct (stk_find_first [5; 9; 7; 9] 9) as [_ Hin].
    destruct Hin as (k & Hk & Hlook & _).
    + right. left.
    + exists k. split; assumption.
Defined.

(** ** clear and alloc *)

(** X5.  A block given back with [clear] is the next block [alloc] returns for
    the same size, and after that the worker is what it was before the
    [clear]: the free-lists of all sizes, the heap, the frontier and the
    counters.  In between, only the free-list of that size has changed. *)
Theorem clear_alloc_roundtrip (mem : Worker) (loc sz : Z) :
  0 < sz < MAX_ARITY -> loc <> U64_MAX ->
  exists mem1 mem2,
    clear mem loc sz = Some mem1
    /\ (forall k, k <> sz -> free_stk mem1 k = free_stk mem k)
    /\ alloc mem1 sz = Some (loc, mem2)
    /\ (forall k, free_stk mem2 k = free_stk mem k)
    /\ node mem2 = node mem /\ size mem2 = size mem
    /\ cost mem2 = cost mem /\ dups mem2 = dups mem.
Proof.
  intros Hsz Hloc. unfold clear.
  destruct (Z.leb_spec MAX_ARITY sz) as [ | _ ]; [ lia | ].
  eexists. eexists. split; [ reflexivity | ].
  split.
  { intros k Hk. unfold free_stk, set_free. cbn [free].
    rewrite lookup_insert_ne by congruence. reflexivity. }
  unfold alloc.
  destruct (Z.eqb_spec sz 0) as [ | _ ]; [ lia | ].
  destruct (Z.leb_spec MAX_ARITY sz) as [ | _ ]; [ lia | ].
  assert (Hfree : free_stk (set_free mem (<[sz := stk_push (free_stk mem sz) loc]> (free mem))) sz
                  = stk_push (free_stk mem sz) loc).
  { unfold free_stk at 1, set_free. cbn [free]. rewrite lookup_insert_eq. reflexivity. }
  rewrite Hfree, stk_pop_push.
  destruct (Z.eqb_spec loc U64_MAX) as [ | _ ]; [ contradiction | ]. cbn [negb].
  unfold stk_push at 1.
  destruct (free_stk mem sz ++ [loc]) as [ | x l ] eqn:Happ;
    [ destruct (free_stk mem sz); discriminate | ].
  split; [ reflexivity | ].
  split.
  { intros k. unfold free_stk at 1, set_free. cbn [free].
    destruct (Z.eq_dec k sz) as [-> | Hk].
    - rewrite lookup_insert_eq. reflexivity.
    - rewrite !lookup_insert_ne by congruence. reflexivity. }
  repeat split.
Qed.

Lemma clear_alloc_roundtrip_witness :
  exists mem1 mem2,
    clear worker_1 77 2 = Some mem1
    /\ alloc mem1 2 = Some (77, mem2)
    /\ free_stk mem2 2 = free_stk worker_1 2.
Proof.
  destruct (clear_alloc_roundtrip worker_1 77 2) as (mem1 & mem2 & Hc & _ & Ha & Hf & _).
  - unfold MAX_ARITY. lia.
  - discriminate.
  - exists mem1, mem2. split; [ exact Hc | ]. split; [ exact Ha | apply Hf ].
Defined.

(** ** The bitmap of the normalizer *)

Lemma land_1_testbit (w k : Z) : 0 <= k -> Z.land (Z.shiftr w k) 1 = Z.b2z (Z.testbit w k).
Proof.
  intros Hk. change 1 with (Z.ones 1) at 1. rewrite Z.land_ones by lia.
  change (2 ^ 1) with 2. rewrite <- Z.bit0_mod, Z.shiftr_spec by lia.
  rewrite Z.add_0_l. reflexivity.
Qed.

Lemma bit_index (bit : Z) : 0 <= Z.land bit 0x3F < 64 /\ bit = 64 * Z.shiftr bit 6 + Z.land bit 0x3F.
Proof.
  change 0x3F with (Z.ones 6). rewrite Z.land_ones, Z.shiftr_div_pow2 by lia.
  change (2 ^ 6) with 64. pose proof (Z.mod_pos_bound bit 64 ltac:(lia)).
  pose proof (Z.div_mod bit 64 ltac:(lia)). lia.
Qed.

Lemma get_bit_set_bit_ne (bits : gmap Z Z) (bit other : Z) :
  other <> bit -> get_bit (set_bit bits bit) other = get_bit bits other.
Proof.
  unfold get_bit, set_bit. change 0x3f with 0x3F.
  destruct (bit_index bit) as [Hk Hbit]. destruct (bit_index other) as [Hk' Hother].
  intros Hne. destruct (Z.eq_dec (Z.shiftr other 6) (Z.shiftr bit 6)) as [Heq | Hw].
  - rewrite Heq, lookup_insert_eq. unfold default at 1. cbn [from_option id].
    rewrite !land_1_testbit by lia.
    rewrite Z.lor_spec, Z.shiftl_1_l, Z.pow2_bits_false by lia.
    rewrite orb_false_r. reflexivity.
  - rewrite lookup_insert_ne by congruence. reflexivity.
Qed.

(** X6.  [set_bit] sets the bit it is given and no other: after it, [get_bit]
    returns 1 at that index, and what it returned before at every other
    index, in the same word or in another. *)
Theorem set_bit_get_bit (bits : gmap Z Z) (bit other : Z) :
  get_bit (set_bit bits bit) bit = 1
  /\ (other <> bit -> get_bit (set_bit bits bit) other = get_bit bits other).
Proof.
  split; [ | apply get_bit_set_bit_ne ].
  unfold get_bit, set_bit. change 0x3f with 0x3F.
  destruct (bit_index bit) as [Hk Hbit].
  rewrite lookup_insert_eq. unfold default at 1. cbn [from_option id].
  rewrite land_1_testbit by lia.
  rewrite Z.lor_spec, Z.shiftl_1_l, Z.pow2_bits_true by lia.
  rewrite orb_true_r. reflexivity.
Qed.

Lemma set_bit_get_bit_witness :
  get_bit (set_bit normal_init 70) 70 = 1 /\ get_bit (set_bit normal_init 70) 71 = 0.
Proof.
  destruct (set_bit_get_bit normal_init 70 71) as [Hset Hother].
  split; [ exact Hset | ]. rewrite Hother; [ reflexivity | lia ].
Defined.

(** ** The lock of a duplication node *)

Lemma flag_set_bits (w : Z) :
  Z.land (Z.lor (Z.ldiff w FLAG_BYTE) (2 ^ 48)) FLAG_BYTE = 2 ^ 48.
Proof.
  rewrite Z.land_lor_distr_l, Z.land_ldiff, Z.lor_0_l. reflexivity.
Qed.

Lemma flag_fields (w v : Z) :
  v = Z.lor (Z.ldiff w FLAG_BYTE) (2 ^ 48) \/ v = Z.ldiff w FLAG_BYTE ->
  get_tag v = get_tag w /\ get_val v = get_val w.
Proof.
  assert (Hhigh : forall i, 60 <= i -> Z.testbit FLAG_BYTE i = false).
  { intros i Hi. change FLAG_BYTE with (Z.shiftl (Z.ones 8) 48).
    rewrite Z.shiftl_spec by lia. apply Z.ones_spec_high. lia. }
  assert (Hlow : forall i, 0 <= i < 32 -> Z.testbit FLAG_BYTE i = false).
  { intros i Hi. change FLAG_BYTE with (Z.shiftl (Z.ones 8) 48).
    apply Z.shiftl_spec_low. lia. }
  intros Hv. unfold get_tag, get_val. change TAG with (2 ^ 60).
  change 0xFFFFFFFF with (Z.ones 32).
  rewrite <- !Z.shiftr_div_pow2 by lia. split.
  - apply Z.bits_inj'. intros i Hi. rewrite !Z.shiftr_spec by lia.
    destruct Hv as [-> | ->];
      rewrite ?Z.lor_spec, Z.ldiff_spec, Hhigh by lia;
      rewrite ?Z.pow2_bits_false by lia; rewrite andb_true_r, ?orb_false_r; reflexivity.
  - apply Z.bits_inj'. intros i Hi. rewrite !Z.land_spec.
    destruct (Z.ltb_spec i 32).
    + destruct Hv as [-> | ->];
        rewrite ?Z.lor_spec, Z.ldiff_spec, Hlow by lia;
        rewrite ?Z.pow2_bits_false by lia; rewrite andb_true_r, ?orb_false_r; reflexivity.
    + rewrite Z.ones_spec_high by lia. rewrite !andb_false_r. reflexivity.
Qed.

(** X7.  The lock of a duplication node behaves as a lock and leaves the link in
    its word alone: once taken it is reported as held until it is released;
    after a release it is reported as free; neither operation changes the
    tag or the val of the word that holds the flag; and releasing a lock
    taken on a word whose flag byte was clear gives that word back. *)
Theorem dup_lock_protocol (mem : Worker) (loc : Z) :
  let mem1 := snd (atomic_flag_test_and_set mem loc) in
  let mem2 := atomic_flag_clear mem1 loc in
  fst (atomic_flag_test_and_set mem1 loc) = true
  /\ fst (atomic_flag_test_and_set mem2 loc) = false
  /\ get_tag (ask_lnk mem1 loc) = get_tag (ask_lnk mem loc)
  /\ get_val (ask_lnk mem1 loc) = get_val (ask_lnk mem loc)
  /\ get_tag (ask_lnk mem2 loc) = get_tag (ask_lnk mem loc)
  /\ get_val (ask_lnk mem2 loc) = get_val (ask_lnk mem loc)
  /\ (fst (atomic_flag_test_and_set mem loc) = false -> ask_lnk mem2 loc = ask_lnk mem loc)
  /\ (forall a, a <> loc -> ask_lnk mem2 a = ask_lnk mem a).
Proof.
  cbn zeta. unfold atomic_flag_clear, atomic_flag_test_and_set. cbn [fst snd].
  rewrite !ask_lnk_write_eq. set (w := ask_lnk mem loc).
  assert (Hclear : Z.ldiff (Z.lor (Z.ldiff w FLAG_BYTE) (2 ^ 48)) FLAG_BYTE = Z.ldiff w FLAG_BYTE).
  { apply Z.bits_inj'. intros i Hi. rewrite !Z.ldiff_spec, Z.lor_spec, Z.ldiff_spec.
    destruct (Z.testbit FLAG_BYTE i) eqn:Hf; [ rewrite !andb_false_r; reflexivity | ].
    rewrite !andb_true_r.
    destruct (Z.eq_dec i 48) as [-> | Hne]; [ discriminate Hf | ].
    rewrite Z.pow2_bits_false by lia. apply orb_false_r. }
  rewrite Hclear.
  split; [ rewrite flag_set_bits; reflexivity | ].
  split; [ rewrite Z.land_ldiff; reflexivity | ].
  destruct (flag_fields w _ (or_introl eq_refl)) as [Ht1 Hv1].
  destruct (flag_fields w _ (or_intror eq_refl)) as [Ht2 Hv2].
  repeat (split; [ assumption | ]).
  split.
  - intros Hfree. apply negb_false_iff, Z.eqb_eq in Hfree.
    apply Z.bits_inj'. intros i Hi. rewrite Z.ldiff_spec.
    apply (f_equal (fun x => Z.testbit x i)) in Hfree.
    rewrite Z.land_spec, Z.bits_0 in Hfree.
    destruct (Z.testbit w i), (Z.testbit FLAG_BYTE i); try reflexivity; discriminate.
  - intros a Ha. rewrite !ask_lnk_write_ne by congruence. reflexivity.
Qed.

Lemma dup_lock_protocol_witness :
  ask_lnk (atomic_flag_clear (snd (atomic_flag_test_and_set (wrk dup_7_8) 2)) 2) 2 = Arg 0.
Proof.
  destruct (dup_lock_protocol (wrk dup_7_8) 2) as (_ & _ & _ & _ & _ & _ & Hback & _).
  apply Hback. reflexivity.
Defined.

(** ** The work stack of reduce *)

Lemma phase_bit (loc : Z) : 0 <= loc < 2 ^ 31 -> Z.lor loc 0x80000000 = 2 ^ 31 + loc.
Proof.
  intros Hloc. change 0x80000000 with (1 * 2 ^ 31). rewrite Z.lor_comm.
  rewrite lor_shift by lia. lia.
Qed.

Lemma pop_item (item : Z) :
  0 <= item < 2 ^ 32 ->
  Z.shiftr item 31 = item / 2 ^ 31
  /\ trunc32 (Z.land item 0x7FFFFFFF) = item mod 2 ^ 31
  /\ item <> U64_MAX.
Proof.
  intros Hitem. change 0x7FFFFFFF with (Z.ones 31).
  rewrite Z.land_ones, Z.shiftr_div_pow2 by lia. unfold trunc32, U64_MAX.
  pose proof (Z.mod_pos_bound item (2 ^ 31) ltac:(lia)).
  rewrite Z.mod_small by lia. repeat split; lia.
Qed.

Lemma reduce_pop_push (i h : Z) (stk : list Z) (mem : Worker) (item : Z) :
  0 <= item < 2 ^ 32 ->
  reduce_pop (mkLoop i h (stk ++ [item]) mem)
  = inl (mkLoop (item / 2 ^ 31) (item mod 2 ^ 31) stk mem).
Proof.
  intros Hitem. destruct (pop_item item Hitem) as (Hshift & Hland & Hne).
  unfold reduce_pop. cbn [stack wrk]. change (stk ++ [item]) with (stk_push stk item).
  rewrite stk_pop_push.
  destruct (Z.eqb_spec item U64_MAX) as [ | _ ]; [ contradiction | ].
  rewrite Hshift, Hland. reflexivity.
Qed.

(** X8.  What [reduce] pushes on its work stack comes back as it should, as long
    as addresses are below [2^31]: a host pushed as it is is resumed in the
    ascent phase ([init = 0]), an address pushed with bit 31 set is visited
    in the descent phase ([init = 1]), and the empty stack ends the loop.
    Bit 31 of a host is taken for that mark: a host from [2^31] up comes
    back as another address, in the descent phase. *)
Theorem reduce_pop_phases (st : Loop) (loc : Z) :
  let pushed item := mkLoop (init st) (host st) (stk_push (stack st) item) (wrk st) in
  (stack st = [] -> reduce_pop st = inr (wrk st))
  /\ (0 <= loc < 2 ^ 31 ->
      reduce_pop (pushed loc) = inl (mkLoop 0 loc (stack st) (wrk st))
      /\ reduce_pop (pushed (Z.lor loc 0x80000000)) = inl (mkLoop 1 loc (stack st) (wrk st)))
  /\ (2 ^ 31 <= loc < 2 ^ 32 ->
      reduce_pop (pushed loc) = inl (mkLoop 1 (loc - 2 ^ 31) (stack st) (wrk st))).
Proof.
  cbn zeta. unfold stk_push. split; [ | split ].
  - intros Hempty. unfold reduce_pop. rewrite Hempty. reflexivity.
  - intros Hloc. split.
    + rewrite reduce_pop_push by lia.
      rewrite Z.div_small, Z.mod_small by lia. reflexivity.
    + rewrite phase_bit by exact Hloc. rewrite reduce_pop_push by lia.
      replace (2 ^ 31 + loc) with (loc + 1 * 2 ^ 31) by lia.
      rewrite Z.div_add, Z.mod_add by lia.
      rewrite Z.div_small, Z.mod_small by lia. reflexivity.
  - intros Hloc. rewrite reduce_pop_push by lia.
    replace loc with ((loc - 2 ^ 31) + 1 * 2 ^ 31) at 1 2 by lia.
    rewrite Z.div_add, Z.mod_add by lia.
    rewrite Z.div_small, Z.mod_small by lia. reflexivity.
Qed.

Lemma reduce_pop_phases_witness :
  reduce_pop (mkLoop 1 9 [5; Z.lor 7 0x80000000] (wrk add_2_3)) = inl (mkLoop 1 7 [5] (wrk add_2_3))
  /\ reduce_pop (mkLoop 1 9 [5] (wrk add_2_3)) = inl (mkLoop 0 5 [] (wrk add_2_3))
  /\ reduce_pop (mkLoop 1 9 [5; 2 ^ 31 + 5] (wrk add_2_3)) = inl (mkLoop 1 5 [5] (wrk add_2_3)).
Proof.
  destruct (reduce_pop_phases (mkLoop 1 9 [5] (wrk add_2_3)) 7) as (_ & Hlow & _).
  destruct (reduce_pop_phases (mkLoop 1 9 [] (wrk add_2_3)) 5) as (_ & Hlow' & _).
  destruct (reduce_pop_phases (mkLoop 1 9 [5] (wrk add_2_3)) (2 ^ 31 + 5)) as (_ & _ & Hhigh).
  split; [ apply Hlow; lia | ]. split; [ apply Hlow'; lia | ]. apply Hhigh. lia.
Defined.

(** ** reduce on a head normal form *)

Lemma reduce_descent_head_normal (slen : Z) (st : Loop) (term : Z) :
  head_normal term -> reduce_descent slen st term = Some (Break, st).
Proof.
  unfold head_normal. rewrite !not_elem_of_cons. intros (Happ & Hdp0 & Hdp1 & Hop2 & Hfun & _).
  unfold reduce_descent.
  destruct (Z.eqb_spec (get_tag term) APP); [ contradiction | ].
  destruct (Z.eqb_spec (get_tag term) DP0); [ contradiction | ].
  destruct (Z.eqb_spec (get_tag term) DP1); [ contradiction | ].
  destruct (Z.eqb_spec (get_tag term) OP2); [ contradiction | ].
  destruct (Z.eqb_spec (get_tag term) FUN); [ contradiction | ].
  reflexivity.
Qed.

Lemma reduce_ascent_head_normal (fuel : nat) (st : Loop) (term : Z) :
  head_normal term -> reduce_ascent fuel st term = Some (Break, st).
Proof.
  unfold head_normal. rewrite !not_elem_of_cons. intros (Happ & Hdp0 & Hdp1 & Hop2 & Hfun & _).
  unfold reduce_ascent.
  destruct (Z.eqb_spec (get_tag term) APP); [ contradiction | ].
  destruct (Z.eqb_spec (get_tag term) DP0); [ contradiction | ].
  destruct (Z.eqb_spec (get_tag term) DP1); [ contradiction | ].
  destruct (Z.eqb_spec (get_tag term) OP2); [ contradiction | ].
  destruct (Z.eqb_spec (get_tag term) FUN); [ contradiction | ].
  reflexivity.
Qed.

Lemma reduce_step_head_normal (fuel : nat) (slen : Z) (st : Loop) :
  head_normal (ask_lnk (wrk st) (host st)) ->
  reduce_step fuel slen st = Some (reduce_pop st).
Proof.
  intros Hhn. unfold reduce_step, reduce_body.
  destruct (init st =? 1).
  - rewrite reduce_descent_head_normal by exact Hhn. reflexivity.
  - rewrite reduce_ascent_head_normal by exact Hhn. reflexivity.
Qed.

Lemma reduce_head_normal_root (fuel : nat) (mem : Worker) (root slen : Z) :
  head_normal (ask_lnk mem (trunc32 root)) ->
  reduce (S fuel) mem root slen = Some (ask_lnk mem root, mem).
Proof.
  intros Hhn. unfold reduce. cbn [reduce_loop].
  rewrite reduce_step_head_normal by exact Hhn. reflexivity.
Qed.

(** X9.  [reduce] called on a link that is in head normal form (a variable, an
    argument marker, an eraser, a lambda, a superposition, a constructor or
    a number) returns at once with the worker as it was, whatever is below
    the head; so does [reduce] called with [slen] other than 1 on an
    operation, even when both operands are numbers. *)
Theorem reduce_leaves_head_normal (fuel : nat) (mem : Worker) (root slen : Z) :
  let term := ask_lnk mem (trunc32 root) in
  head_normal term \/ (get_tag term = OP2 /\ slen <> 1) ->
  reduce (S fuel) mem root slen = Some (ask_lnk mem root, mem).
Proof.
  intros term [Hhn | [Hop2 Hslen]].
  - apply reduce_head_normal_root. exact Hhn.
  - unfold reduce. cbn [reduce_loop]. unfold reduce_step, reduce_body. cbn [init wrk host].
    fold term. unfold reduce_descent. rewrite Hop2. cbn [Z.eqb Pos.eqb OP2 APP DP0 DP1 orb].
    destruct (Z.eqb_spec slen 1); [ contradiction | ]. reflexivity.
Qed.

Lemma reduce_leaves_head_normal_witness :
  reduce 1 (wrk add_2_3) 1 1 = Some (Num 2, wrk add_2_3)
  /\ reduce 1 (wrk add_2_3) 0 MAX_WORKERS = Some (Op2 ADD 1, wrk add_2_3).
Proof.
  split.
  - apply (reduce_leaves_head_normal 0 (wrk add_2_3) 1 1). left.
    unfold head_normal. not_in_list.
  - apply (reduce_leaves_head_normal 0 (wrk add_2_3) 0 MAX_WORKERS). right.
    split; [ reflexivity | discriminate ].
Defined.

(** ** reduce on an operation on two numbers *)

Lemma head_normal_NUM (term : Z) : get_tag term = NUM -> head_normal term.
Proof. intros Htag. unfold head_normal. rewrite Htag. not_in_list. Qed.

Lemma reduce_loop_next (fuel : nat) (slen : Z) (st st' : Loop) :
  reduce_step (S fuel) slen st = Some (inl st') ->
  reduce_loop (S fuel) slen st = reduce_loop fuel slen st'.
Proof. intros Hstep. cbn [reduce_loop]. rewrite Hstep. reflexivity. Qed.

Lemma reduce_loop_last (fuel : nat) (slen : Z) (st : Loop) (mem : Worker) :
  reduce_step (S fuel) slen st = Some (inr mem) ->
  reduce_loop (S fuel) slen st = Some mem.
Proof. intros Hstep. cbn [reduce_loop]. rewrite Hstep. reflexivity. Qed.

Lemma reduce_op2_numbers_run (fuel : nat) (mem : Worker) (root : Z) :
  let term := ask_lnk mem root in
  let a := get_num (ask_arg mem term 0) in
  let b := get_num (ask_arg mem term 1) in
  0 <= root < 2 ^ 31 ->
  get_tag term = OP2 ->
  get_val term + 1 < 2 ^ 31 ->
  get_ext term < 16 ->
  get_tag (ask_arg mem term 0) = NUM ->
  get_tag (ask_arg mem term 1) = NUM ->
  op2_defined (get_ext term) b ->
  reduce (4 + fuel) mem root 1
  = Some (Num (op2_math (get_ext term) a b),
          op2_done mem root (get_loc term 0) (op2_math (get_ext term) a b)).
Proof.
  intros term a b Hroot Htag Hval Hext Htag0 Htag1 Hdef.
  assert (Hv : 0 <= get_val term).
  { unfold get_val. change 0xFFFFFFFF with (Z.ones 32). rewrite Z.land_ones by lia.
    apply Z.mod_pos_bound. lia. }
  assert (Hloc0 : get_loc term 0 = get_val term).
  { unfold get_loc, add64. rewrite Z.add_0_r. apply Z.mod_small. lia. }
  assert (Hloc1 : get_loc term 1 = get_val term + 1).
  { unfold get_loc, add64. apply Z.mod_small. lia. }
  assert (Hnum : op2_num (get_ext term) a b = Some (op2_math (get_ext term) a b)).
  { apply op2_num_math; try assumption.
    - split; [ | exact Hext ]. unfold get_ext. change 0xFFFFFF with (Z.ones 24).
      rewrite Z.land_ones by lia. apply Z.mod_pos_bound. lia.
    - apply get_num_range.
    - apply get_num_range. }
  set (loc0 := get_val term) in *.
  (* descent at the root: the node is pushed, then its first operand *)
  assert (Hstep1 : forall f, reduce_step f 1 (mkLoop 1 root stk_init mem)
                   = Some (inl (mkLoop 1 (loc0 + 1) [root; Z.lor loc0 0x80000000] mem))).
  { intros f. unfold reduce_step. rewrite reduce_body_descent by reflexivity.
    cbn [wrk host]. fold term. unfold reduce_descent. rewrite Htag.
    cbn [Z.eqb Pos.eqb OP2 APP DP0 DP1 orb mbind option_bind init stack wrk host].
    rewrite Hloc0, Hloc1. unfold trunc32. rewrite (Z.mod_small (loc0 + 1)) by lia.
    reflexivity. }
  (* descent at the second operand: a number; the first operand is popped *)
  assert (Hstep2 : forall f, reduce_step f 1 (mkLoop 1 (loc0 + 1) [root; Z.lor loc0 0x80000000] mem)
                   = Some (inl (mkLoop 1 loc0 [root] mem))).
  { intros f. rewrite reduce_step_head_normal
      by (cbn [wrk host]; apply head_normal_NUM; rewrite <- Hloc1; exact Htag1).
    rewrite phase_bit by lia.
    change [root; 2 ^ 31 + loc0] with ([root] ++ [2 ^ 31 + loc0]).
    rewrite reduce_pop_push by lia. replace (2 ^ 31 + loc0) with (loc0 + 1 * 2 ^ 31) by lia.
    rewrite Z.div_add, Z.mod_add by lia.
    rewrite Z.div_small, Z.mod_small by lia. reflexivity. }
  (* descent at the first operand: a number; the node is popped *)
  assert (Hstep3 : forall f, reduce_step f 1 (mkLoop 1 loc0 [root] mem)
                   = Some (inl (mkLoop 0 root [] mem))).
  { intros f. rewrite reduce_step_head_normal
      by (cbn [wrk host]; apply head_normal_NUM; rewrite <- Hloc0; exact Htag0).
    change [root] with ([] ++ [root]) at 1.
    rewrite reduce_pop_push by lia. rewrite Z.div_small, Z.mod_small by lia. reflexivity. }
  (* ascent at the node: OP2-NUM, and the empty stack ends the loop *)
  assert (Hstep4 : forall f, reduce_step f 1 (mkLoop 0 root [] mem)
                   = Some (inr (op2_done mem root loc0 (op2_math (get_ext term) a b)))).
  { intros f. unfold reduce_step. rewrite reduce_body_ascent by discriminate.
    cbn [wrk host]. fold term. rewrite reduce_ascent_OP2 by exact Htag.
    unfold reduce_op2. cbn [wrk host]. rewrite Htag0, Htag1. cbn [Z.eqb Pos.eqb NUM andb].
    fold a. fold b. rewrite Hnum. cbn [mbind option_bind].
    rewrite clear_small by reflexivity. cbn [mbind option_bind].
    rewrite link_Num, Hloc0. reflexivity. }
  unfold reduce, trunc32. rewrite (Z.mod_small root) by lia.
  change (4 + fuel)%nat with (S (S (S (S fuel)))).
  rewrite (reduce_loop_next _ _ _ _ (Hstep1 _)).
  rewrite (reduce_loop_next _ _ _ _ (Hstep2 _)).
  rewrite (reduce_loop_next _ _ _ _ (Hstep3 _)).
  rewrite (reduce_loop_last _ _ _ _ (Hstep4 _)).
  cbn [mbind option_bind]. unfold op2_done at 1. rewrite ask_lnk_write_eq, Hloc0. reflexivity.
Qed.

(** X10.  [reduce] with [slen = 1] evaluates an operation on two numbers from
    start to end: called on a host below [2^31] that holds an OP2 link whose
    node (also below [2^31]) has two numbers [a] and [b] as operands, on
    which the operator is defined, it needs four iterations of its loop (a
    descent into each operand and the ascent to the node), counts one
    rewrite, returns the number [op2_math ope a b], leaves it at the host,
    puts the node on the free-list of size 2 and changes no other word of
    the heap. *)
Theorem reduce_op2_numbers (fuel : nat) (mem : Worker) (root : Z) :
  let term := ask_lnk mem root in
  let a := get_num (ask_arg mem term 0) in
  let b := get_num (ask_arg mem term 1) in
  0 <= root < 2 ^ 31 ->
  get_tag term = OP2 ->
  get_val term + 1 < 2 ^ 31 ->
  get_ext term < 16 ->
  get_tag (ask_arg mem term 0) = NUM ->
  get_tag (ask_arg mem term 1) = NUM ->
  op2_defined (get_ext term) b ->
  exists mem',
    reduce (4 + fuel) mem root 1 = Some (Num (op2_math (get_ext term) a b), mem')
    /\ ask_lnk mem' root = Num (op2_math (get_ext term) a b)
    /\ (forall A, A <> root -> ask_lnk mem' A = ask_lnk mem A)
    /\ cost mem' = add64 (cost mem) 1
    /\ free_stk mem' 2 = stk_push (free_stk mem 2) (get_loc term 0)
    /\ size mem' = size mem.
Proof.
  intros term a b Hroot Htag Hval Hext Htag0 Htag1 Hdef.
  eexists. split; [ apply reduce_op2_numbers_run; assumption | ].
  unfold op2_done. split; [ apply ask_lnk_write_eq | ].
  split; [ intros A HA; rewrite ask_lnk_write_ne by congruence; reflexivity | ].
  split; [ reflexivity | ].
  split; [ | reflexivity ].
  unfold free_stk. cbn [free write set_node set_free]. rewrite lookup_insert_eq. reflexivity.
Qed.

Lemma reduce_op2_numbers_witness :
  exists mem',
    reduce 4 (wrk add_2_3) 0 1 = Some (Num 5, mem')
    /\ ask_lnk mem' 0 = Num 5 /\ cost mem' = 1 /\ free_stk mem' 2 = [1].
Proof.
  destruct (reduce_op2_numbers 0 (wrk add_2_3) 0)
    as (mem' & Hrun & Hroot & _ & Hcost & Hfree & _).
  - lia.
  - reflexivity.
  - vm_compute. reflexivity.
  - vm_compute. reflexivity.
  - reflexivity.
  - reflexivity.
  - split; intros [H | H]; discriminate H.
  - exists mem'. repeat split; assumption.
Defined.

(** X11.  [normal] with [slen = 1] on the same graph: the first pass does the
    rewrite, the loop of [normal] runs once more, finds the cost unchanged
    and stops.  The result is the number, one rewrite is counted in all and
    the host is the only address marked as seen. *)
Theorem normal_op2_numbers (fuel : nat) (mem : Worker) (root sidx : Z) :
  let term := ask_lnk mem root in
  let a := get_num (ask_arg mem term 0) in
  let b := get_num (ask_arg mem term 1) in
  0 <= root < 2 ^ 29 ->
  get_tag term = OP2 ->
  get_val term + 1 < 2 ^ 31 ->
  get_ext term < 16 ->
  get_tag (ask_arg mem term 0) = NUM ->
  get_tag (ask_arg mem term 1) = NUM ->
  op2_defined (get_ext term) b ->
  exists mem',
    normal (4 + fuel) mem root sidx 1
    = Some (Num (op2_math (get_ext term) a b), (mem', set_bit normal_init root))
    /\ ask_lnk mem' root = Num (op2_math (get_ext term) a b)
    /\ cost mem' = add64 (cost mem) 1.
Proof.
  intros term a b Hroot Htag Hval Hext Htag0 Htag1 Hdef.
  set (c := op2_math (get_ext term) a b).
  set (mem' := op2_done mem root (get_loc term 0) c).
  assert (Hseen : (NORMAL_SEEN_MCAP <=? Z.shiftr root 6) = false).
  { apply Z.leb_gt. rewrite Z.shiftr_div_pow2 by lia. apply Z.div_lt_upper_bound; [ lia | ].
    change (2 ^ 6 * NORMAL_SEEN_MCAP) with (2 ^ 29). lia. }
  assert (Hroot' : ask_lnk mem' root = Num c) by apply ask_lnk_write_eq.
  assert (Hgo1 : normal_go (4 + fuel) root sidx 1 (mem, normal_init)
                 = Some (Num c, (mem', set_bit normal_init root))).
  { change (4 + fuel)%nat with (S (3 + fuel)). cbn [normal_go].
    rewrite Hseen, get_bit_normal_init. cbn [Z.eqb negb].
    change (S (3 + fuel)) with (4 + fuel)%nat.
    rewrite (reduce_op2_numbers_run fuel mem root) by (assumption || lia).
    cbn [mbind option_bind]. unfold normal_rec_locs. rewrite get_tag_Num.
    reflexivity. }
  assert (Hgo2 : normal_go (4 + fuel) root 0 1 (mem', normal_init)
                 = Some (Num c, (mem', set_bit normal_init root))).
  { change (4 + fuel)%nat with (S (3 + fuel)). cbn [normal_go].
    rewrite Hseen, get_bit_normal_init. cbn [Z.eqb negb].
    rewrite reduce_head_normal_root.
    2:{ unfold trunc32. rewrite Z.mod_small by lia. rewrite Hroot'.
        apply head_normal_NUM, get_tag_Num. }
    cbn [mbind option_bind]. rewrite Hroot'. unfold normal_rec_locs. rewrite get_tag_Num.
    reflexivity. }
  exists mem'. split; [ | split; [ exact Hroot' | reflexivity ] ].
  unfold normal. rewrite Hgo1. cbn [mbind option_bind].
  change (4 + fuel)%nat with (S (3 + fuel)) at 2. cbn [normal_loop].
  change (S (3 + fuel)) with (4 + fuel)%nat.
  rewrite Hgo2. cbn [mbind option_bind]. rewrite Z.eqb_refl. reflexivity.
Qed.

Lemma normal_op2_numbers_witness :
  exists mem',
    normal 4 (wrk add_2_3) 0 0 1 = Some (Num 5, (mem', set_bit normal_init 0))
    /\ cost mem' = 1.
Proof.
  destruct (normal_op2_numbers 0 (wrk add_2_3) 0 0) as (mem' & Hrun & _ & Hcost).
  - lia.
  - reflexivity.
  - vm_compute. reflexivity.
  - vm_compute. reflexivity.
  - reflexivity.
  - reflexivity.
  - split; intros [H | H]; discriminate H.
  - exists mem'. split; assumption.
Defined.

(** ** A duplication node whose lock is held *)

Lemma reduce_step_locked (fuel : nat) (slen : Z) (st : Loop) :
  init st = 1 -> dup_locked (wrk st) (host st) ->
  exists st',
    reduce_step fuel slen st = Some (inl st')
    /\ init st' = 1 /\ host st' = host st /\ dup_locked (wrk st') (host st').
Proof.
  intros Hinit [Htag Hflag]. set (term := ask_lnk (wrk st) (host st)) in *.
  set (loc := get_loc term 0) in *. set (word := ask_lnk (wrk st) loc) in *.
  set (word' := Z.lor (Z.ldiff word FLAG_BYTE) (2 ^ 48)).
  exists (set_wrk st (write (wrk st) loc word')).
  split.
  { unfold reduce_step. rewrite reduce_body_descent by exact Hinit. fold term.
    unfold reduce_descent.
    replace ((get_tag term =? DP0) || (get_tag term =? DP1)) with true
      by (destruct Htag as [-> | ->]; reflexivity).
    replace (get_tag term =? APP) with false
      by (destruct Htag as [-> | ->]; reflexivity).
    unfold atomic_flag_test_and_set. fold loc. fold word.
    destruct (Z.eqb_spec (Z.land word FLAG_BYTE) 0) as [ | _ ]; [ contradiction | ].
    reflexivity. }
  split; [ exact Hinit | ]. split; [ reflexivity | ].
  cbn [set_wrk wrk host]. unfold dup_locked. cbn zeta.
  destruct (flag_fields word word' (or_introl eq_refl)) as [Htag' Hval'].
  assert (Hterm : get_tag (ask_lnk (write (wrk st) loc word') (host st)) = get_tag term
                  /\ get_loc (ask_lnk (write (wrk st) loc word') (host st)) 0 = loc).
  { rewrite ask_lnk_write. destruct (decide (loc = host st)) as [Heq | Hne].
    - assert (Hword : word = term) by (unfold word, term; rewrite <- Heq; reflexivity).
      split; [ rewrite Htag', Hword; reflexivity | ].
      unfold get_loc. rewrite Hval', Hword. reflexivity.
    - split; reflexivity. }
  destruct Hterm as [-> ->]. split; [ exact Htag | ].
  rewrite ask_lnk_write_eq. unfold word'. rewrite flag_set_bits. discriminate.
Qed.

Lemma reduce_loop_locked (fuel : nat) (slen : Z) (st : Loop) :
  init st = 1 -> dup_locked (wrk st) (host st) -> reduce_loop fuel slen st = None.
Proof.
  revert st. induction fuel as [ | fuel IH ]; intros st Hinit Hlocked; [ reflexivity | ].
  destruct (reduce_step_locked (S fuel) slen st Hinit Hlocked)
    as (st' & Hstep & Hinit' & _ & Hlocked').
  rewrite (reduce_loop_next _ _ _ _ Hstep). apply IH; assumption.
Qed.

(** X12.  [reduce] never returns when the link at its root is a projection of a
    duplication node whose lock is held: no number of iterations of its
    loop is enough.  Each iteration finds the flag set, sets it again and
    starts over at the same host; nothing in the thread itself releases
    the lock. *)
Theorem reduce_spins_on_held_lock (fuel : nat) (mem : Worker) (root slen : Z) :
  dup_locked mem (trunc32 root) -> reduce fuel mem root slen = None.
Proof.
  intros Hlocked. unfold reduce.
  rewrite reduce_loop_locked; [ reflexivity | reflexivity | exact Hlocked ].
Qed.

Lemma reduce_spins_on_held_lock_witness : reduce 1000 dup_held 0 1 = None.
Proof.
  apply (reduce_spins_on_held_lock 1000 dup_held 0 1).
  split; [ left; reflexivity | vm_compute; discriminate ].
Defined.

(** ** DUP-NUM *)

Lemma collect_Num (fuel : nat) (mem : Worker) (lnk : Z) :
  get_tag lnk = NUM -> collect (S fuel) mem lnk = Some mem.
Proof. intros Htag. cbn [collect]. rewrite Htag. reflexivity. Qed.

Lemma subst_Num (fuel : nat) (mem : Worker) (lnk val : Z) :
  get_tag val = NUM ->
  subst (S fuel) mem lnk val
  = Some (if get_tag lnk =? ERA then mem else write mem (get_loc lnk 0) val).
Proof.
  intros Htag. unfold subst. destruct (get_tag lnk =? ERA); cbn [negb].
  - apply collect_Num. exact Htag.
  - rewrite link_not_var by (rewrite Htag; reflexivity). reflexivity.
Qed.

Lemma dup_num_step (fuel : nat) (slen : Z) (st : Loop) :
  let mem := wrk st in
  let term := ask_lnk mem (host st) in
  let n := ask_arg mem term 2 in
  let slot0 := ask_arg mem term 0 in
  let slot1 := ask_arg mem term 1 in
  let L0 := get_loc slot0 0 in
  let L1 := get_loc slot1 0 in
  let node0 := get_loc term 0 in
  init st <> 1 ->
  get_tag term = DP0 \/ get_tag term = DP1 ->
  get_tag n = NUM ->
  host st <> node0 ->
  (get_tag slot0 <> ERA -> L0 <> node0 /\ L0 <> get_loc term 1) ->
  (get_tag slot1 <> ERA -> L1 <> node0) ->
  exists st',
    reduce_body (S fuel) slen st = Some (Break, st')
    /\ host st' = host st /\ stack st' = stack st
    /\ cost (wrk st') = add64 (cost mem) 1
    /\ ask_lnk (wrk st') (host st) = n
    /\ (get_tag slot0 <> ERA -> ask_lnk (wrk st') L0 = n)
    /\ (get_tag slot1 <> ERA -> ask_lnk (wrk st') L1 = n)
    /\ ask_lnk (wrk st') node0 = Z.ldiff slot0 FLAG_BYTE
    /\ (forall A, A <> host st -> A <> node0 ->
                  (get_tag slot0 <> ERA -> A <> L0) -> (get_tag slot1 <> ERA -> A <> L1) ->
                  ask_lnk (wrk st') A = ask_lnk mem A)
    /\ free_stk (wrk st') 3 = stk_push (free_stk mem 3) node0.
Proof.
  intros mem term n slot0 slot1 L0 L1 node0 Hinit Htag Hnum Hhost Hocc0 Hocc1.
  rewrite reduce_body_ascent by exact Hinit. fold mem. fold term.
  rewrite reduce_ascent_DUP by exact Htag.
  unfold reduce_dup, reduce_dup_rules. fold mem. fold term. fold n.
  rewrite Hnum. cbn [Z.eqb Pos.eqb NUM LAM SUP].
  change (ask_arg (inc_cost mem) term 0) with slot0.
  rewrite subst_Num by exact Hnum. cbn [mbind option_bind]. fold L0.
  set (mem1 := if get_tag slot0 =? ERA then inc_cost mem else write (inc_cost mem) L0 n).
  assert (Hslot1 : ask_arg mem1 term 1 = slot1).
  { unfold mem1, ask_arg. destruct (Z.eqb_spec (get_tag slot0) ERA) as [ | Hne ]; [ reflexivity | ].
    rewrite ask_lnk_write_ne; [ reflexivity | apply (Hocc0 Hne) ]. }
  rewrite Hslot1, subst_Num by exact Hnum. cbn [mbind option_bind]. fold L1.
  set (mem2 := if get_tag slot1 =? ERA then mem1 else write mem1 L1 n).
  rewrite clear_small by reflexivity. cbn [mbind option_bind]. fold node0.
  rewrite link_not_var by (rewrite Hnum; reflexivity).
  set (mem3 := write (set_free mem2 (<[3 := stk_push (free_stk mem2 3) node0]> (free mem2)))
                     (host st) n).
  cbn [wrk set_wrk].
  assert (Hask3 : forall A, ask_lnk mem3 A
                    = if decide (host st = A) then n
                      else if negb (get_tag slot1 =? ERA) && bool_decide (L1 = A) then n
                      else if negb (get_tag slot0 =? ERA) && bool_decide (L0 = A) then n
                      else ask_lnk mem A).
  { intros A. unfold mem3. rewrite ask_lnk_write. destruct (decide (host st = A)); [ reflexivity | ].
    change (ask_lnk (set_free mem2 _) A) with (ask_lnk mem2 A).
    unfold mem2, mem1.
    destruct (get_tag slot1 =? ERA), (get_tag slot0 =? ERA); cbn [negb andb];
      rewrite ?ask_lnk_write; repeat case_bool_decide; repeat case_decide;
      try reflexivity; try congruence. }
  assert (Hnode : ask_lnk mem3 node0 = slot0).
  { rewrite Hask3. destruct (decide (host st = node0)); [ contradiction | ].
    destruct (Z.eqb_spec (get_tag slot1) ERA) as [ | Hne1 ]; cbn [negb andb];
    destruct (Z.eqb_spec (get_tag slot0) ERA) as [ | Hne0 ]; cbn [negb andb];
      repeat case_bool_decide; try reflexivity;
      try (exfalso; apply (Hocc1 Hne1); assumption);
      try (exfalso; apply (proj1 (Hocc0 Hne0)); assumption). }
  eexists. split; [ reflexivity | ].
  cbn [host stack wrk set_wrk]. unfold atomic_flag_clear. rewrite Hnode.
  split; [ reflexivity | ]. split; [ reflexivity | ].
  split.
  { unfold mem3, mem2, mem1.
    destruct (get_tag slot1 =? ERA), (get_tag slot0 =? ERA); reflexivity. }
  split.
  { rewrite ask_lnk_write_ne by congruence. rewrite Hask3.
    destruct (decide (host st = host st)); [ reflexivity | contradiction ]. }
  split.
  { intros Hne0. destruct (Hocc0 Hne0) as [HL0 _].
    rewrite ask_lnk_write_ne by congruence. rewrite Hask3.
    destruct (Z.eqb_spec (get_tag slot0) ERA) as [ | _ ]; [ contradiction | ].
    cbn [negb andb]. rewrite (bool_decide_eq_true_2 (L0 = L0)) by reflexivity.
    destruct (decide (host st = L0)); [ reflexivity | ].
    destruct (negb (get_tag slot1 =? ERA) && bool_decide (L1 = L0)); reflexivity. }
  split.
  { intros Hne1. pose proof (Hocc1 Hne1) as HL1.
    rewrite ask_lnk_write_ne by congruence. rewrite Hask3.
    destruct (Z.eqb_spec (get_tag slot1) ERA) as [ | _ ]; [ contradiction | ].
    cbn [negb andb]. rewrite (bool_decide_eq_true_2 (L1 = L1)) by reflexivity.
    destruct (decide (host st = L1)); reflexivity. }
  split; [ apply ask_lnk_write_eq | ].
  split.
  { intros A HA Hnode0 HA0 HA1. rewrite ask_lnk_write_ne by congruence. rewrite Hask3.
    destruct (decide (host st = A)); [ congruence | ].
    destruct (Z.eqb_spec (get_tag slot1) ERA) as [ | Hne1 ]; cbn [negb andb];
    destruct (Z.eqb_spec (get_tag slot0) ERA) as [ | Hne0 ]; cbn [negb andb];
      repeat case_bool_decide; try reflexivity;
      try (exfalso; apply (HA1 Hne1); congruence);
      try (exfalso; apply (HA0 Hne0); congruence). }
  unfold free_stk, mem3. cbn [free write set_node set_free]. rewrite lookup_insert_eq.
  cbn [default from_option id]. f_equal.
  unfold mem2, mem1. destruct (get_tag slot1 =? ERA), (get_tag slot0 =? ERA); reflexivity.
Qed.

(** X13.  In the ascent phase at a DP0 or DP1 link whose shared subject is a
    number [n], one pass of the loop body copies the number: [n] is written
    at each occurrence the duplication node records (a slot holding ERA
    records none), the host holds [n], one rewrite is counted, the 3-word
    node goes on the free-list of size 3 and its lock is released; every
    other word of the heap is left as it was, and the pass ends at the pop
    of the work stack.  This on a duplication node whose first two words
    are not themselves the host or an occurrence. *)
Theorem dup_num_copies (fuel : nat) (slen : Z) (st : Loop) :
  let mem := wrk st in
  let term := ask_lnk mem (host st) in
  let n := ask_arg mem term 2 in
  let slot0 := ask_arg mem term 0 in
  let slot1 := ask_arg mem term 1 in
  let L0 := get_loc slot0 0 in
  let L1 := get_loc slot1 0 in
  let node0 := get_loc term 0 in
  init st <> 1 ->
  get_tag term = DP0 \/ get_tag term = DP1 ->
  get_tag n = NUM ->
  host st <> node0 ->
  (get_tag slot0 <> ERA -> L0 <> node0 /\ L0 <> get_loc term 1) ->
  (get_tag slot1 <> ERA -> L1 <> node0) ->
  exists st',
    reduce_body (S fuel) slen st = Some (Break, st')
    /\ host st' = host st /\ stack st' = stack st
    /\ cost (wrk st') = add64 (cost mem) 1
    /\ ask_lnk (wrk st') (host st) = n
    /\ (get_tag slot0 <> ERA -> ask_lnk (wrk st') L0 = n)
    /\ (get_tag slot1 <> ERA -> ask_lnk (wrk st') L1 = n)
    /\ ask_lnk (wrk st') node0 = Z.ldiff slot0 FLAG_BYTE
    /\ Z.land (ask_lnk (wrk st') node0) FLAG_BYTE = 0
    /\ (forall A, A <> host st -> A <> node0 ->
                  (get_tag slot0 <> ERA -> A <> L0) -> (get_tag slot1 <> ERA -> A <> L1) ->
                  ask_lnk (wrk st') A = ask_lnk mem A)
    /\ free_stk (wrk st') 3 = stk_push (free_stk mem 3) node0.
Proof.
  intros mem term n slot0 slot1 L0 L1 node0 Hinit Htag Hnum Hhost Hocc0 Hocc1.
  destruct (dup_num_step fuel slen st Hinit Htag Hnum Hhost Hocc0 Hocc1)
    as (st' & Hbody & Hh & Hs & Hcost & Hres & Hres0 & Hres1 & Hword & Hframe & Hfree).
  exists st'. split; [ exact Hbody | ].
  split; [ exact Hh | ]. split; [ exact Hs | ]. split; [ exact Hcost | ].
  split; [ exact Hres | ]. split; [ exact Hres0 | ]. split; [ exact Hres1 | ].
  split; [ exact Hword | ].
  split; [ | split; [ exact Hframe | exact Hfree ] ].
  fold mem term node0 slot0 in Hword. rewrite Hword. apply Z.land_ldiff.
Qed.

Lemma dup_num_copies_witness :
  exists st',
    reduce_body 1 1 (mkLoop 0 0 [] dup_held) = Some (Break, st')
    /\ ask_lnk (wrk st') 0 = Num 7
    /\ ask_lnk (wrk st') 1 = Num 7
    /\ ask_lnk (wrk st') 2 = Arg 0
    /\ ask_lnk (wrk st') 4 = Num 7
    /\ free_stk (wrk st') 3 = [2].
Proof.
  destruct (dup_num_copies 0 1 (mkLoop 0 0 [] dup_held))
    as (st' & Hbody & _ & _ & _ & Hhost & _ & H1 & Hnode & _ & Hframe & Hfree).
  - discriminate.
  - left. reflexivity.
  - reflexivity.
  - discriminate.
  - intros _. split; discriminate.
  - intros _. discriminate.
  - exists st'. split; [ exact Hbody | ]. split; [ exact Hhost | ].
    split; [ apply H1; vm_compute; discriminate | ].
    split; [ exact Hnode | ]. split; [ | exact Hfree ].
    apply (Hframe 4); try discriminate; intros _; discriminate.
Defined.

(** ** APP-LAM *)

Lemma reduce_ascent_APP (fuel : nat) (st : Loop) (term : Z) :
  get_tag term = APP -> reduce_ascent fuel st term = reduce_app fuel st term.
Proof. intros Htag. unfold reduce_ascent. rewrite Htag. reflexivity. Qed.

(** X14.  In the ascent phase at an application of a lambda whose variable
    occurs (its binder slot is not ERA), one pass of the loop body
    substitutes: the argument [x] is written at the occurrence [L] of the
    variable, the host receives the body as it is after that write, one
    rewrite is counted, the application node and then the lambda node go
    on the free-list of size 2, and the loop continues with [init = 1] at
    the same host.  When the body is the variable itself the host so
    receives the argument, with the back-pointer of an argument that is a
    variable redirected to the host; when the body is another word the
    host receives it and the occurrence holds the argument. *)
Theorem app_lam_substitutes (fuel : nat) (slen : Z) (st : Loop) :
  let mem := wrk st in
  let term := ask_lnk mem (host st) in
  let lam := ask_arg mem term 0 in
  let x := ask_arg mem term 1 in
  let L := get_loc (ask_arg mem lam 0) 0 in
  let body := ask_arg mem lam 1 in
  init st <> 1 ->
  get_tag term = APP ->
  get_tag lam = LAM ->
  get_tag (ask_arg mem lam 0) <> ERA ->
  exists st',
    reduce_body fuel slen st = Some (Continue, st')
    /\ init st' = 1 /\ host st' = host st /\ stack st' = stack st
    /\ cost (wrk st') = add64 (cost mem) 1
    /\ free_stk (wrk st') 2
       = stk_push (stk_push (free_stk mem 2) (get_loc term 0)) (get_loc lam 0)
    /\ (get_loc lam 1 = L ->
        (is_var x = true -> binder_slot x <> L /\ binder_slot x <> host st) ->
        ask_lnk (wrk st') (host st) = x
        /\ (is_var x = true -> ask_lnk (wrk st') (binder_slot x) = Arg (host st)))
    /\ (get_loc lam 1 ∉ link_writes L x ->
        (is_var body = true -> binder_slot body <> host st) ->
        ask_lnk (wrk st') (host st) = body
        /\ (L ∉ link_writes (host st) body ->
            (is_var x = true -> binder_slot x <> L) ->
            ask_lnk (wrk st') L = x)).
Proof.
  intros mem term lam x L body Hinit Htag Hlam Hocc.
  rewrite reduce_body_ascent by exact Hinit. fold mem. fold term.
  rewrite reduce_ascent_APP by exact Htag.
  unfold reduce_app. fold mem. fold term. fold lam. rewrite Hlam.
  cbn [Z.eqb Pos.eqb LAM].
  change (ask_arg (inc_cost mem) lam 0) with (ask_arg mem lam 0).
  change (ask_arg (inc_cost mem) term 1) with x.
  rewrite subst_occurrence by exact Hocc. cbn [mbind option_bind]. fold L.
  set (mem1 := link (inc_cost mem) L x).
  set (body' := ask_arg mem1 lam 1).
  rewrite !clear_small by reflexivity. cbn [mbind option_bind]. unfold redo.
  eexists. split; [ reflexivity | ]. cbn [init host stack wrk].
  split; [ reflexivity | ]. split; [ reflexivity | ]. split; [ reflexivity | ].
  split.
  { cbn [cost set_free]. unfold mem1. rewrite !cost_link. reflexivity. }
  split.
  { unfold free_stk. cbn [free set_free]. rewrite lookup_insert_eq.
    cbn [default from_option id]. rewrite lookup_insert_eq. cbn [default from_option id].
    unfold mem1. rewrite !free_link. reflexivity. }
  change (ask_lnk (set_free (set_free (link mem1 (host st) body') _) _) ?A)
    with (ask_lnk (link mem1 (host st) body') A).
  split.
  - intros Hid Hx.
    assert (Hbody : body' = x).
    { unfold body', ask_arg, mem1. rewrite Hid. apply link_loc.
      intros Hvar. apply (Hx Hvar). }
    rewrite Hbody. split.
    + apply link_loc. intros Hvar. apply (Hx Hvar).
    + apply link_slot.
  - intros Hsep Hbody.
    assert (Hbody' : body' = body).
    { unfold body', ask_arg, mem1. rewrite link_frame by exact Hsep. reflexivity. }
    rewrite Hbody'. split.
    + apply link_loc. exact Hbody.
    + intros HL Hx. rewrite link_frame by exact HL. unfold mem1. apply link_loc. exact Hx.
Qed.

Lemma app_lam_substitutes_witness :
  exists st',
    reduce_body 0 1 app_id_42 = Some (Continue, st')
    /\ ask_lnk (wrk st') 0 = Num 42
    /\ cost (wrk st') = 1
    /\ free_stk (wrk st') 2 = [1; 3].
Proof.
  destruct (app_lam_substitutes 0 1 app_id_42)
    as (st' & Hbody & _ & _ & _ & Hcost & Hfree & Hid & _).
  - discriminate.
  - reflexivity.
  - reflexivity.
  - vm_compute. discriminate.
  - exists st'. split; [ exact Hbody | ].
    destruct Hid as [Hhost _]; [ reflexivity | intros Hvar; discriminate Hvar | ].
    split; [ exact Hhost | ]. split; [ exact Hcost | exact Hfree ].
Defined.

(** ** Numbers in decimal: readback against parse_arg *)

Lemma is_digit_range (c : Z) : is_digit c = true <-> 48 <= c <= 57.
Proof.
  unfold is_digit. change (chr "0") with 48. change (chr "9") with 57. lia.
Qed.

Lemma digits_value_snoc (l : list Z) (acc c : Z) :
  Forall (fun d => is_digit d = true) l -> is_digit c = true ->
  digits_value acc (l ++ [c]) = digits_value acc l * 10 + (c - 48).
Proof.
  intros Hl Hc. revert acc. induction Hl as [ | d l Hd Hl IH ]; intros acc; cbn [app digits_value].
  - rewrite Hc. reflexivity.
  - rewrite Hd. apply IH.
Qed.

Lemma readback_decimal_go_digits (digits : nat) (n : Z) :
  0 <= n < 10 ^ Z.of_nat digits ->
  let ds := readback_decimal_go digits [] n in
  Forall (fun d => is_digit d = true) ds
  /\ digits_value 0 ds = n
  /\ (0 < n -> ds <> [] /\ hd 0 ds <> 48).
Proof.
  revert n. induction digits as [ | digits IH ]; intros n Hn.
  - cbn in Hn. assert (n = 0) as -> by lia. cbn. repeat split; try constructor; lia.
  - cbn [readback_decimal_go]. destruct (Z.ltb_spec 0 n) as [Hpos | Hzero].
    + assert (Hdiv : 0 <= n / 10 < 10 ^ Z.of_nat digits).
      { split; [ apply Z.div_pos; lia | ].
        apply Z.div_lt_upper_bound; [ lia | ].
        rewrite <- Z.pow_succ_r by lia. rewrite <- Nat2Z.inj_succ. lia. }
      destruct (IH (n / 10) Hdiv) as (Hds & Hval & Hhead).
      pose proof (Z.mod_pos_bound n 10 ltac:(lia)) as Hmod.
      assert (Hc : is_digit (chr "0" + n mod 10) = true).
      { apply is_digit_range. change (chr "0") with 48. lia. }
      unfold stk_push. split; [ apply Forall_app; split; [ exact Hds | ] | ].
      { constructor; [ exact Hc | constructor ]. }
      split.
      { rewrite digits_value_snoc by assumption. rewrite Hval.
        change (chr "0") with 48. pose proof (Z.div_mod n 10 ltac:(lia)). lia. }
      intros _. split; [ intros Heq; apply app_eq_nil in Heq as [_ Heq]; discriminate Heq | ].
      destruct (Z.eq_dec (n / 10) 0) as [Hsmall | Hbig].
      * rewrite Hsmall. assert (Hnil : readback_decimal_go digits [] 0 = [])
          by (destruct digits; reflexivity).
        rewrite Hnil. cbn [app hd]. change (chr "0") with 48.
        pose proof (Z.div_mod n 10 ltac:(lia)). lia.
      * destruct Hhead as [Hne Hhd]; [ lia | ].
        destruct (readback_decimal_go digits [] (n / 10)); [ contradiction | exact Hhd ].
    + assert (n = 0) as -> by lia. cbn. repeat split; try constructor; lia.
Qed.

Lemma codes_text (l : list Z) : Forall (fun c => 0 <= c < 256) l -> codes (text l) = l.
Proof.
  intros Hl. unfold codes, text. rewrite list_ascii_of_string_of_list_ascii.
  induction Hl as [ | c l Hc Hl IH ]; [ reflexivity | ].
  cbn [map]. rewrite IH. f_equal. unfold chr.
  rewrite N_ascii_embedding by lia. lia.
Qed.

(** X15.  The decimal text [readback] prints for a number is the one [parse_arg]
    reads.  For a [u64] [n], [readback_decimal] appends to the output a
    non-empty run of decimal digits, without a leading 0 unless [n] is 0,
    whose value is [n]; for [n] below [2^60] the printed form of the link
    [Num n] is that text, and [parse_arg] on it gives [Num n] back. *)
Theorem readback_decimal_parses (n : Z) :
  0 <= n < 2 ^ 64 ->
  let ds := readback_decimal [] n in
  (forall chrs, readback_decimal chrs n = chrs ++ ds)
  /\ ds <> []
  /\ Forall (fun d => is_digit d = true) ds
  /\ digits_value 0 ds = n
  /\ (n <> 0 -> hd 0 ds <> chr "0")
  /\ (n < 2 ^ 60 ->
      (forall fuel mem, readback_text (S fuel) mem (Num n) = Some (text ds))
      /\ (forall names size, parse_arg (text ds) names size = Num n)).
Proof.
  intros Hn ds.
  assert (Hds : ds <> [] /\ Forall (fun d => is_digit d = true) ds
                /\ digits_value 0 ds = n /\ (n <> 0 -> hd 0 ds <> 48)).
  { unfold ds, readback_decimal. destruct (Z.eqb_spec n 0) as [-> | Hne].
    - cbn. repeat split; try discriminate; try lia. constructor; [ reflexivity | constructor ].
    - destruct (readback_decimal_go_digits 20 n ltac:(cbn; lia)) as (Hall & Hval & Hhead).
      destruct Hhead as [Hnil Hhd]; [ lia | ].
      repeat split; try assumption. intros _. exact Hhd. }
  destruct Hds as (Hnil & Hall & Hval & Hhd).
  split; [ intros chrs; apply readback_decimal_app | ].
  split; [ exact Hnil | ]. split; [ exact Hall | ]. split; [ exact Hval | ].
  split; [ exact Hhd | ].
  intros Hsmall. split.
  - intros fuel mem. unfold readback_text. cbn [readback_vars readback_term].
    rewrite get_tag_Num. cbn [stk_find stk_find_from stk_init Z.eqb negb NUM LAM APP SUP OP2 DP0 DP1
                               Pos.eqb orb mbind option_bind].
    rewrite get_num_Num, Z.mod_small by lia. reflexivity.
  - intros names size.
    assert (Hcodes : codes (text ds) = ds).
    { apply codes_text. eapply Forall_impl; [ exact Hall | ].
      intros c Hc. apply is_digit_range in Hc. lia. }
    assert (Hd : is_digit (hd 0 ds) = true).
    { destruct Hall as [ | d ds' Hd _ ]; [ contradiction | exact Hd ]. }
    unfold parse_arg. rewrite Hcodes. fold (is_digit (hd 0 ds)). rewrite Hd.
    rewrite Num_mod64, strtol_leading_digit by exact Hd.
    rewrite Hval, Z.min_l by (unfold LONG_MAX; lia). reflexivity.
Qed.

Lemma readback_decimal_parses_witness :
  readback_decimal [] 1234567890123 = codes "1234567890123"
  /\ parse_arg (text (readback_decimal [] 1234567890123)) id_to_name_data id_to_name_size
     = Num 1234567890123.
Proof.
  destruct (readback_decimal_parses 1234567890123) as (_ & _ & _ & _ & _ & Hround);
    [ lia | ].
  split; [ reflexivity | ]. apply Hround. lia.
Defined.

(** ** Loops that keep a preorder *)

Lemma for_loop_preorder {A : Type} (R : A -> A -> Prop) (body : Z -> A -> option A) :
  (forall a, R a a) -> (forall a b c, R a b -> R b c -> R a c) ->
  (forall i a a', body i a = Some a' -> R a a') ->
  forall n i a a', for_loop n i body a = Some a' -> R a a'.
Proof.
  intros Hrefl Htrans Hbody. induction n as [ | n IH ]; intros i a a' Hloop; cbn in Hloop.
  - injection Hloop as <-. apply Hrefl.
  - destruct (body i a) as [ a1 | ] eqn:Hstep; [ | discriminate Hloop ].
    cbn [mbind option_bind] in Hloop.
    eapply Htrans; [ eapply Hbody; exact Hstep | eapply IH; exact Hloop ].
Qed.

(** ** collect *)

Lemma frees_only_refl (mem : Worker) : frees_only mem mem.
Proof.
  repeat split. intros sz. exists []. rewrite app_nil_r. reflexivity.
Qed.

Lemma frees_only_trans (a b c : Worker) : frees_only a b -> frees_only b c -> frees_only a c.
Proof.
  intros (H1 & H2 & H3 & H4 & H5 & H6 & H7) (G1 & G2 & G3 & G4 & G5 & G6 & G7).
  repeat split; try congruence.
  intros sz. destruct (H7 sz) as [x Hx]. destruct (G7 sz) as [y Hy].
  exists (x ++ y). rewrite Hy, Hx, app_assoc. reflexivity.
Qed.

Lemma frees_only_link (mem : Worker) (loc lnk : Z) : frees_only mem (link mem loc lnk).
Proof.
  unfold link. destruct (get_tag lnk <=? VAR);
    (repeat split; intros sz; exists []; rewrite app_nil_r; reflexivity).
Qed.

Lemma frees_only_clear (mem mem' : Worker) (loc sz : Z) :
  clear mem loc sz = Some mem' -> frees_only mem mem'.
Proof.
  unfold clear. destruct (MAX_ARITY <=? sz); [ discriminate | ].
  intros [= <-]. repeat split. intros k. unfold free_stk at 1. cbn [free set_free].
  destruct (Z.eq_dec k sz) as [-> | Hne].
  - rewrite lookup_insert_eq. exists [loc]. reflexivity.
  - rewrite lookup_insert_ne by congruence. exists []. rewrite app_nil_r. reflexivity.
Qed.

Lemma collect_frees_only (fuel : nat) :
  forall mem term mem', collect fuel mem term = Some mem' -> frees_only mem mem'.
Proof.
  induction fuel as [ | fuel IH ]; intros mem term mem' Hc; [ discriminate Hc | ].
  cbn [collect] in Hc.
  destruct (get_tag term =? DP0); [ injection Hc as <-; apply frees_only_link | ].
  destruct (get_tag term =? DP1); [ injection Hc as <-; apply frees_only_link | ].
  destruct (get_tag term =? VAR); [ injection Hc as <-; apply frees_only_link | ].
  destruct (get_tag term =? LAM).
  { match type of Hc with (collect fuel ?m ?t ≫= _) = _ =>
      destruct (collect fuel m t) as [ m1 | ] eqn:H1; [ | discriminate Hc ];
      assert (Hm : frees_only mem m)
        by (destruct (negb (get_tag (ask_arg mem term 0) =? ERA));
            [ apply frees_only_link | apply frees_only_refl ])
    end.
    cbn [mbind option_bind] in Hc.
    eapply frees_only_trans; [ exact Hm | ].
    eapply frees_only_trans; [ eapply IH; exact H1 | eapply frees_only_clear; exact Hc ]. }
  destruct ((get_tag term =? APP) || (get_tag term =? SUP) || (get_tag term =? OP2)).
  { destruct (collect fuel mem (ask_arg mem term 0)) as [ m1 | ] eqn:H1; [ | discriminate Hc ].
    cbn [mbind option_bind] in Hc.
    destruct (collect fuel m1 (ask_arg m1 term 1)) as [ m2 | ] eqn:H2; [ | discriminate Hc ].
    cbn [mbind option_bind] in Hc.
    eapply frees_only_trans; [ eapply IH; exact H1 | ].
    eapply frees_only_trans; [ eapply IH; exact H2 | eapply frees_only_clear; exact Hc ]. }
  destruct (get_tag term =? NUM); [ injection Hc as <-; apply frees_only_refl | ].
  destruct ((get_tag term =? CTR) || (get_tag term =? FUN));
    [ | injection Hc as <-; apply frees_only_refl ].
  match type of Hc with (?loop ≫= _) = _ =>
    destruct loop as [ m1 | ] eqn:H1; [ | discriminate Hc ] end.
  cbn [mbind option_bind] in Hc.
  eapply frees_only_trans; [ | eapply frees_only_clear; exact Hc ].
  eapply (for_loop_preorder frees_only); [ apply frees_only_refl | apply frees_only_trans | | exact H1 ].
  intros i a a' Hbody. eapply IH. exact Hbody.
Qed.

(** X16.  Garbage collection is free of charge and allocates nothing: whatever
    graph [collect] is called on, and [subst] with it, the worker it leaves
    has the same rewrite count, frontier, color counter and tables, and each
    of its free-lists is the one before with the freed nodes added on top.
    Only words of the heap are written. *)
Theorem collect_only_frees (fuel : nat) (mem mem' : Worker) (term : Z) :
  (collect fuel mem term = Some mem' -> frees_only mem mem')
  /\ (forall lnk, subst fuel mem lnk term = Some mem' -> frees_only mem mem').
Proof.
  split; [ apply collect_frees_only | ].
  intros lnk. unfold subst. destruct (negb (get_tag lnk =? ERA)).
  - intros [= <-]. apply frees_only_link.
  - apply collect_frees_only.
Qed.

Lemma collect_only_frees_witness :
  collect 2 fan_7_8 (Par 3 1) = Some fan_7_8_collected
  /\ cost fan_7_8_collected = cost fan_7_8
  /\ size fan_7_8_collected = size fan_7_8.
Proof.
  assert (Hrun : collect 2 fan_7_8 (Par 3 1) = Some fan_7_8_collected) by reflexivity.
  destruct (collect_only_frees 2 fan_7_8 fan_7_8_collected (Par 3 1)) as [Hcollect _].
  destruct (Hcollect Hrun) as (_ & Hsize & Hcost & _).
  split; [ exact Hrun | ]. split; [ exact Hcost | exact Hsize ].
Defined.

(** ** readback_vars *)

Lemma extends_refl (a : list Z * list Z) : extends a a.
Proof. split; exists []; rewrite app_nil_r; reflexivity. Qed.

Lemma extends_trans (a b c : list Z * list Z) : extends a b -> extends b c -> extends a c.
Proof.
  intros [[v1 Hv1] [s1 Hs1]] [[v2 Hv2] [s2 Hs2]].
  split; [ exists (v1 ++ v2); rewrite Hv2, Hv1 | exists (s1 ++ s2); rewrite Hs2, Hs1 ];
    rewrite app_assoc; reflexivity.
Qed.

Lemma extends_push (vars seen new_vars : list Z) (term : Z) :
  extends (vars, seen) (vars ++ new_vars, stk_push seen term).
Proof. split; [ exists new_vars | exists [term] ]; reflexivity. Qed.

Lemma readback_vars_extends (fuel : nat) :
  forall mem term s s', readback_vars fuel mem term s = Some s' -> extends s s'.
Proof.
  induction fuel as [ | fuel IH ]; intros mem term [vars seen] s' Hrun; [ discriminate Hrun | ].
  cbn [readback_vars] in Hrun.
  destruct (negb (stk_find seen term =? U64_MAX)); [ injection Hrun as <-; apply extends_refl | ].
  destruct (get_tag term =? LAM).
  { eapply extends_trans; [ | eapply IH; exact Hrun ].
    destruct (negb (get_tag (ask_arg mem term 0) =? ERA)).
    - apply extends_push.
    - rewrite <- (app_nil_r vars) at 2. apply extends_push. }
  assert (Hpush : extends (vars, seen) (vars, stk_push seen term)).
  { rewrite <- (app_nil_r vars) at 2. apply extends_push. }
  destruct ((get_tag term =? APP) || (get_tag term =? SUP) || (get_tag term =? OP2)).
  { match type of Hrun with (?first ≫= _) = _ =>
      destruct first as [ s1 | ] eqn:H1; [ | discriminate Hrun ] end.
    cbn [mbind option_bind] in Hrun.
    eapply extends_trans; [ exact Hpush | ].
    eapply extends_trans; [ eapply IH; exact H1 | eapply IH; exact Hrun ]. }
  destruct ((get_tag term =? DP0) || (get_tag term =? DP1)).
  { eapply extends_trans; [ exact Hpush | eapply IH; exact Hrun ]. }
  destruct ((get_tag term =? CTR) || (get_tag term =? FUN));
    [ | injection Hrun as <-; exact Hpush ].
  eapply extends_trans; [ exact Hpush | ].
  eapply (for_loop_preorder extends); [ apply extends_refl | apply extends_trans | | exact Hrun ].
  intros i a a' Hbody. eapply IH. exact Hbody.
Qed.

Lemma stk_find_from_app (data added : list Z) (val i : Z) :
  val ∈ data -> stk_find_from i (data ++ added) val = stk_find_from i data val.
Proof.
  revert i. induction data as [ | x rest IH ]; intros i Hin; [ inversion Hin | ].
  cbn [app stk_find_from]. destruct (Z.eqb_spec x val) as [ | Hne ]; [ reflexivity | ].
  apply IH. apply elem_of_cons in Hin. destruct Hin as [-> | Hin]; [ contradiction | exact Hin ].
Qed.

(** X17.  [readback_vars] only adds to the two stacks it is given, on top: the
    variables found before keep their indices, hence the names
    [readback_term] prints for them, however much of the graph is visited
    afterwards. *)
Theorem readback_vars_keeps_names (fuel : nat) (mem : Worker) (term : Z)
    (vars seen vars' seen' : list Z) (var : Z) :
  readback_vars fuel mem term (vars, seen) = Some (vars', seen') ->
  (exists added, vars' = vars ++ added)
  /\ (exists visited, seen' = seen ++ visited)
  /\ (var ∈ vars -> stk_find vars' var = stk_find vars var).
Proof.
  intros Hrun. destruct (readback_vars_extends _ _ _ _ _ Hrun) as [[added Hv] [visited Hs]].
  cbn [fst snd] in Hv, Hs.
  split; [ exists added; exact Hv | ]. split; [ exists visited; exact Hs | ].
  intros Hin. rewrite Hv. apply stk_find_from_app. exact Hin.
Qed.

Lemma readback_vars_keeps_names_witness :
  readback_vars 4 lam_lam (Lam 3) ([Var 1], [Lam 1]) = Some ([Var 1; Var 3], [Lam 1; Lam 3; App 5; Var 1; Var 3])
  /\ stk_find [Var 1; Var 3] (Var 1) = stk_find [Var 1] (Var 1).
Proof.
  assert (Hrun : readback_vars 4 lam_lam (Lam 3) ([Var 1], [Lam 1])
                 = Some ([Var 1; Var 3], [Lam 1; Lam 3; App 5; Var 1; Var 3])) by reflexivity.
  destruct (readback_vars_keeps_names 4 lam_lam (Lam 3) [Var 1] [Lam 1]
              [Var 1; Var 3] [Lam 1; Lam 3; App 5; Var 1; Var 3] (Var 1) Hrun) as (_ & _ & Hfind).
  split; [ exact Hrun | ]. apply Hfind. left.
Defined.

(** ** readback_term: output and direction stacks *)

(** X18.  Whatever the graph, a call of [readback_term] that returns only appends
    to the output, gives every direction stack back as it found it, and
    appends the same text whatever was in the output before: the text of a
    term depends on the heap, the variable names and the direction stacks,
    not on what has been printed so far. *)
Theorem readback_term_appends_text (fuel : nat) (mem : Worker) (term : Z) (vars : list Z)
    (names : list (option string)) (mcap : Z)
    (chrs chrs' : list Z) (dirs dirs' : list (list Z)) :
  readback_term fuel mem term vars names mcap (chrs, dirs) = Some (chrs', dirs') ->
  dirs' = dirs
  /\ exists out,
       chrs' = chrs ++ out
       /\ forall before,
            readback_term fuel mem term vars names mcap (before, dirs)
            = Some (before ++ out, dirs).
Proof.
  intros Hrun.
  destruct (readback_term_appends mem vars names mcap fuel term chrs dirs _ Hrun)
    as (out & Heq & Happ).
  injection Heq as -> ->. split; [ reflexivity | ].
  exists out. split; [ reflexivity | exact Happ ].
Qed.

Lemma readback_term_appends_text_witness :
  readback_term 2 fan_7_8 (Par 3 1) [] id_to_name_data id_to_name_size
    (codes "(f ", dirs_3_right)
  = Some (codes "(f 8", dirs_3_right).
Proof.
  assert (Hrun : readback_term 2 fan_7_8 (Par 3 1) [] id_to_name_data id_to_name_size
                   ([], dirs_3_right) = Some (codes "8", dirs_3_right)) by reflexivity.
  destruct (readback_term_appends_text _ _ _ _ _ _ _ _ _ _ Hrun) as (_ & out & Hout & Hany).
  cbn [app] in Hout. rewrite <- Hout in Hany. apply (Hany (codes "(f ")).
Defined.

(** ** reduce on a beta-redex *)

Lemma reduce_body_app_lam (fuel : nat) (slen : Z) (st : Loop) :
  let mem := wrk st in
  let term := ask_lnk mem (host st) in
  let lam := ask_arg mem term 0 in
  init st <> 1 ->
  get_tag term = APP ->
  get_tag lam = LAM ->
  get_tag (ask_arg mem lam 0) <> ERA ->
  reduce_body fuel slen st
  = Some (Continue, mkLoop 1 (host st) (stack st) (app_lam_done mem (host st) term)).
Proof.
  intros mem term lam Hinit Htag Hlam Hocc.
  rewrite reduce_body_ascent by exact Hinit. fold mem. fold term.
  rewrite reduce_ascent_APP by exact Htag.
  unfold reduce_app. fold mem. fold term. fold lam. rewrite Hlam.
  cbn [Z.eqb Pos.eqb LAM].
  change (ask_arg (inc_cost mem) lam 0) with (ask_arg mem lam 0).
  rewrite subst_occurrence by exact Hocc. cbn [mbind option_bind].
  rewrite !clear_small by reflexivity. reflexivity.
Qed.

Lemma link_inc_cost (mem : Worker) (loc lnk : Z) :
  link (inc_cost mem) loc lnk = inc_cost (link mem loc lnk).
Proof. unfold link. destruct (get_tag lnk <=? VAR); reflexivity. Qed.

Lemma ask_lnk_app_lam_done (mem : Worker) (host term A : Z) :
  let lam := ask_arg mem term 0 in
  let mem1 := link mem (get_loc (ask_arg mem lam 0) 0) (ask_arg mem term 1) in
  ask_lnk (app_lam_done mem host term) A
  = ask_lnk (link mem1 host (ask_arg mem1 lam 1)) A.
Proof.
  cbn zeta. unfold app_lam_done.
  change (ask_lnk (set_free (set_free ?m _) _) A) with (ask_lnk m A).
  rewrite link_inc_cost.
  change (ask_arg (inc_cost ?m) ?t ?i) with (ask_arg m t i).
  rewrite link_inc_cost. reflexivity.
Qed.

Lemma cost_app_lam_done (mem : Worker) (host term : Z) :
  cost (app_lam_done mem host term) = add64 (cost mem) 1.
Proof. unfold app_lam_done. cbn [cost set_free]. rewrite !cost_link. reflexivity. Qed.

Lemma head_normal_not_APP (term : Z) : head_normal term -> get_tag term <> APP.
Proof. unfold head_normal. rewrite !not_elem_of_cons. tauto. Qed.

Lemma reduce_app_lam_run (fuel : nat) (mem : Worker) (root slen : Z) :
  let term := ask_lnk mem root in
  let lam := ask_arg mem term 0 in
  let mem' := app_lam_done mem root term in
  0 <= root < 2 ^ 31 ->
  get_tag term = APP ->
  get_tag lam = LAM ->
  get_tag (ask_arg mem lam 0) <> ERA ->
  head_normal (ask_lnk mem' root) ->
  reduce (4 + fuel) mem root slen = Some (ask_lnk mem' root, mem').
Proof.
  intros term lam mem' Hroot Htag Hlam Hocc Hhn.
  assert (Hv : 0 <= get_val term < 2 ^ 32).
  { unfold get_val. change 0xFFFFFFFF with (Z.ones 32). rewrite Z.land_ones by lia.
    apply Z.mod_pos_bound. lia. }
  assert (Hloc0 : get_loc term 0 = get_val term).
  { unfold get_loc, add64. rewrite Z.add_0_r. apply Z.mod_small. lia. }
  (* descent at the root: the host is pushed, the function is visited *)
  assert (Hstep1 : forall f, reduce_step f slen (mkLoop 1 root stk_init mem)
                   = Some (inl (mkLoop 1 (get_val term) [root] mem))).
  { intros f. unfold reduce_step. rewrite reduce_body_descent by reflexivity.
    cbn [wrk host]. fold term. unfold reduce_descent. rewrite Htag.
    cbn [Z.eqb Pos.eqb APP mbind option_bind init stack wrk host].
    rewrite Hloc0. unfold trunc32. rewrite Z.mod_small by lia. reflexivity. }
  (* descent at the function: a lambda; the host is popped *)
  assert (Hstep2 : forall f, reduce_step f slen (mkLoop 1 (get_val term) [root] mem)
                   = Some (inl (mkLoop 0 root [] mem))).
  { intros f. rewrite reduce_step_head_normal.
    - change [root] with ([] ++ [root]) at 1. rewrite reduce_pop_push by lia.
      rewrite Z.div_small, Z.mod_small by lia. reflexivity.
    - cbn [wrk host]. rewrite <- Hloc0. fold (ask_arg mem term 0). fold lam.
      unfold head_normal. rewrite Hlam. not_in_list. }
  (* ascent at the host: APP-LAM *)
  assert (Hstep3 : forall f, reduce_step f slen (mkLoop 0 root [] mem)
                   = Some (inl (mkLoop 1 root [] mem'))).
  { intros f. unfold reduce_step.
    rewrite (reduce_body_app_lam f slen (mkLoop 0 root [] mem))
      by (cbn [init wrk host]; (discriminate || assumption)).
    reflexivity. }
  (* descent at the host: the result is in head normal form, the stack is empty *)
  assert (Hstep4 : forall f, reduce_step f slen (mkLoop 1 root [] mem') = Some (inr mem')).
  { intros f. rewrite reduce_step_head_normal by exact Hhn. reflexivity. }
  unfold reduce, trunc32. rewrite (Z.mod_small root) by lia.
  change (4 + fuel)%nat with (S (S (S (S fuel)))).
  rewrite (reduce_loop_next _ _ _ _ (Hstep1 _)).
  rewrite (reduce_loop_next _ _ _ _ (Hstep2 _)).
  rewrite (reduce_loop_next _ _ _ _ (Hstep3 _)).
  rewrite (reduce_loop_last _ _ _ _ (Hstep4 _)).
  reflexivity.
Qed.

(** X19.  [reduce] contracts a beta-redex whose contractum is in head normal
    form with one rewrite.  Called, with any [slen], on a root below [2^31]
    that holds an application of a lambda whose variable occurs, it needs
    four iterations of its loop.  When the body of the lambda is its
    variable, [reduce] returns the argument [x], which must then be in
    head normal form; when the body is another word in head normal form,
    [reduce] returns the body and the occurrence of the variable holds the
    argument.  In both cases the result is at the root and one rewrite is
    counted. *)
Theorem reduce_beta (fuel : nat) (mem : Worker) (root slen : Z) :
  let term := ask_lnk mem root in
  let lam := ask_arg mem term 0 in
  let x := ask_arg mem term 1 in
  let L := get_loc (ask_arg mem lam 0) 0 in
  let body := ask_arg mem lam 1 in
  0 <= root < 2 ^ 31 ->
  get_tag term = APP ->
  get_tag lam = LAM ->
  get_tag (ask_arg mem lam 0) <> ERA ->
  (get_loc lam 1 = L ->
   (is_var x = true -> binder_slot x <> L /\ binder_slot x <> root) ->
   head_normal x ->
   exists mem',
     reduce (4 + fuel) mem root slen = Some (x, mem')
     /\ ask_lnk mem' root = x /\ cost mem' = add64 (cost mem) 1)
  /\ (get_loc lam 1 ∉ link_writes L x ->
      (is_var body = true -> binder_slot body <> root) ->
      head_normal body ->
      exists mem',
        reduce (4 + fuel) mem root slen = Some (body, mem')
        /\ ask_lnk mem' root = body /\ cost mem' = add64 (cost mem) 1
        /\ (L ∉ link_writes root body -> (is_var x = true -> binder_slot x <> L) ->
            ask_lnk mem' L = x)).
Proof.
  intros term lam x L body Hroot Htag Hlam Hocc.
  set (mem' := app_lam_done mem root term).
  set (mem1 := link mem L x).
  assert (Hask : forall A, ask_lnk mem' A = ask_lnk (link mem1 root (ask_arg mem1 lam 1)) A)
    by (intros A; apply ask_lnk_app_lam_done).
  split.
  - intros Hid Hx Hhn.
    assert (Hbody : ask_arg mem1 lam 1 = x).
    { unfold ask_arg, mem1. fold lam. rewrite Hid. apply link_loc.
      intros Hvar. apply (Hx Hvar). }
    assert (Hres : ask_lnk mem' root = x).
    { rewrite Hask, Hbody. apply link_loc. intros Hvar. apply (Hx Hvar). }
    exists mem'. split; [ | split; [ exact Hres | apply cost_app_lam_done ] ].
    rewrite <- Hres. apply reduce_app_lam_run; try assumption.
    fold term. fold mem'. rewrite Hres. exact Hhn.
  - intros Hsep Hbody Hhn.
    assert (Hbody' : ask_arg mem1 lam 1 = body).
    { unfold ask_arg, mem1. fold lam. rewrite link_frame by exact Hsep. reflexivity. }
    assert (Hres : ask_lnk mem' root = body).
    { rewrite Hask, Hbody'. apply link_loc. exact Hbody. }
    exists mem'. split; [ | split; [ exact Hres | split; [ apply cost_app_lam_done | ] ] ].
    + rewrite <- Hres. apply reduce_app_lam_run; try assumption.
      fold term. fold mem'. rewrite Hres. exact Hhn.
    + intros HL Hx. rewrite Hask, Hbody'. rewrite link_frame by exact HL.
      unfold mem1. apply link_loc. exact Hx.
Qed.

Lemma reduce_beta_witness :
  exists mem',
    reduce 4 (wrk app_id_42) 0 MAX_WORKERS = Some (Num 42, mem') /\ cost mem' = 1.
Proof.
  destruct (reduce_beta 0 (wrk app_id_42) 0 MAX_WORKERS) as [Hid _].
  - lia.
  - reflexivity.
  - reflexivity.
  - vm_compute. discriminate.
  - destruct Hid as (mem' & Hrun & _ & Hcost).
    + reflexivity.
    + intros Hvar. discriminate Hvar.
    + unfold head_normal. not_in_list.
    + exists mem'. split; [ exact Hrun | exact Hcost ].
Defined.

(** ** A generated rule: GenTree on a number *)

Lemma add64_small (a b : Z) : 0 <= a + b < 2 ^ 64 -> add64 a b = a + b.
Proof. intros H. unfold add64. apply Z.mod_small. exact H. Qed.

Lemma alloc_fresh (mem : Worker) (sz F s : Z) :
  0 < sz < MAX_ARITY -> free_stk mem sz = [] ->
  0 <= tid mem -> 0 <= size mem ->
  frontier mem = F -> F + sz <= 2 ^ 32 -> size mem + sz = s ->
  alloc mem sz = Some (F, set_size mem s).
Proof.
  intros Hsz Hfree Htid Hsize <- Hfit <-. unfold alloc, frontier in *.
  change MEM_SPACE with 44739242 in *.
  destruct (Z.eqb_spec sz 0); [ lia | ].
  destruct (Z.leb_spec MAX_ARITY sz); [ lia | ].
  rewrite Hfree. cbn [stk_pop rev negb]. rewrite Z.eqb_refl. cbn [negb].
  cbn [tid set_size size]. unfold mul64.
  rewrite (Z.mod_small (tid mem * 44739242)) by lia.
  rewrite !add64_small by lia. reflexivity.
Qed.

Lemma rule_copy_Num (mem : Worker) (cpy : Z) :
  get_tag cpy = NUM -> rule_copy mem cpy = Some (cpy, cpy, inc_cost mem).
Proof. intros Htag. unfold rule_copy. rewrite Htag. reflexivity. Qed.

Lemma rule_sub_Num (mem : Worker) (x k : Z) :
  get_tag x = NUM -> 0 <= k <= get_num x ->
  rule_sub mem x k = Some (Num (get_num x - k), inc_cost mem).
Proof.
  intros Htag Hk. unfold rule_sub. rewrite Htag, get_tag_Num. cbn [Z.eqb Pos.eqb NUM andb].
  pose proof (get_num_range x) as Hx.
  rewrite get_num_Num, (Z.mod_small k) by lia.
  unfold sub64. rewrite Z.mod_small by lia. reflexivity.
Qed.

Lemma get_tag_Cal (ari fun_ pos : Z) :
  0 <= fun_ < 2 ^ 24 -> 0 <= pos < 2 ^ 32 -> get_tag (Cal ari fun_ pos) = FUN.
Proof.
  intros Hfun Hpos.
  pose proof (pack_fields FUN fun_ pos ltac:(unfold FUN; lia) Hfun Hpos) as H.
  injection H as Htag _ _. exact Htag.
Qed.

Lemma link_Cal (mem : Worker) (loc ari fun_ pos : Z) :
  0 <= fun_ < 2 ^ 24 -> 0 <= pos < 2 ^ 32 ->
  link mem loc (Cal ari fun_ pos) = write mem loc (Cal ari fun_ pos).
Proof. intros Hfun Hpos. apply link_not_var. rewrite get_tag_Cal by assumption. reflexivity. Qed.

Lemma tid_link (mem : Worker) (loc lnk : Z) : tid (link mem loc lnk) = tid mem.
Proof. unfold link. destruct (get_tag lnk <=? VAR); reflexivity. Qed.

Lemma size_link (mem : Worker) (loc lnk : Z) : size (link mem loc lnk) = size mem.
Proof. unfold link. destruct (get_tag lnk <=? VAR); reflexivity. Qed.

Lemma free_stk_link (mem : Worker) (loc lnk sz : Z) :
  free_stk (link mem loc lnk) sz = free_stk mem sz.
Proof. unfold free_stk. rewrite free_link. reflexivity. Qed.

Lemma frontier_link (mem : Worker) (loc lnk : Z) : frontier (link mem loc lnk) = frontier mem.
Proof. unfold frontier. rewrite tid_link, size_link. reflexivity. Qed.

Lemma node_set_size_link (mem : Worker) (loc lnk s : Z) :
  set_size (link mem loc lnk) s = link (set_size mem s) loc lnk.
Proof. unfold link. destruct (get_tag lnk <=? VAR); reflexivity. Qed.

Ltac fresh_side :=
  unfold frontier, free_stk in *; change MEM_SPACE with 44739242 in *;
  repeat (cbn [tid size free write set_node set_size inc_cost set_cost];
          rewrite ?free_link, ?tid_link, ?size_link);
  first [ assumption | unfold MAX_ARITY; lia | reflexivity ].

Lemma rule_gentree_number (st : Loop) (term : Z) :
  let mem := wrk st in
  let n := ask_arg mem term 0 in
  let t := ask_arg mem term 1 in
  let F := frontier mem in
  get_tag n = NUM -> 3 <= get_num n ->
  free_stk mem 2 = [] ->
  0 <= tid mem -> 0 <= size mem -> F + 6 <= 2 ^ 32 ->
  get_loc term 1 < F ->
  exists mem',
    rule_gentree st term = Some (Continue, mkLoop 1 (host st) (stack st) mem')
    /\ node mem' = node (gentree_heap mem (host st) F n t)
    /\ cost mem' = add64 (add64 (add64 (add64 (add64 (cost mem) 1) 1) 1) 1) 1
    /\ size mem' = size mem + 6
    /\ free_stk mem' 2 = [get_loc term 0].
Proof.
  intros mem n t F Hnum Hn Hfree Htid Hsize Hfit Hloc.
  assert (HF : 0 <= F) by (unfold F, frontier; change MEM_SPACE with 44739242; lia).
  assert (HFe : F = frontier mem) by reflexivity. clearbody F.
  unfold rule_gentree. fold mem. fold n. rewrite Hnum.
  cbn [Z.eqb Pos.eqb NUM SUP CTR andb orb].
  destruct (Z.eqb_spec (get_num n) 0); [ lia | ].
  destruct (Z.eqb_spec (get_num n) 1); [ lia | ].
  destruct (Z.eqb_spec (get_num n) 2); [ lia | ].
  change (ask_arg (inc_cost mem) term 0) with n.
  rewrite rule_copy_Num by exact Hnum. cbn [mbind option_bind].
  rewrite rule_copy_Num by exact Hnum. cbn [mbind option_bind].
  rewrite rule_sub_Num by (try exact Hnum; lia). cbn [mbind option_bind].
  rewrite rule_sub_Num by (try exact Hnum; lia). cbn [mbind option_bind].
  set (mem5 := inc_cost (inc_cost (inc_cost (inc_cost (inc_cost mem))))).
  rewrite (alloc_fresh mem5 2 F (size mem + 2)) by (unfold mem5; fresh_side).
  cbn [mbind option_bind].
  rewrite !add64_small by lia. rewrite Z.add_0_r.
  rewrite (link_not_var _ F n) by (rewrite Hnum; reflexivity).
  assert (Ht : ask_arg (write (set_size mem5 (size mem + 2)) F n) term 1 = t).
  { unfold ask_arg. rewrite ask_lnk_write_ne by lia. reflexivity. }
  rewrite Ht.
  set (mem6 := link (write (set_size mem5 (size mem + 2)) F n) (F + 1) t).
  rewrite (alloc_fresh mem6 2 (F + 2) (size mem + 4)) by (unfold mem6, mem5; fresh_side).
  cbn [mbind option_bind].
  rewrite !add64_small by lia. rewrite Z.add_0_r.
  replace (F + 2 + 1) with (F + 3) by lia.
  rewrite link_Num, link_Cal by lia.
  set (mem7 := write (write (set_size mem6 (size mem + 4)) (F + 2) (Num (get_num n - 1)))
                     (F + 3) (Cal 2 33 F)).
  rewrite (alloc_fresh mem7 2 (F + 4) (size mem + 6)) by (unfold mem7, mem6, mem5; fresh_side).
  cbn [mbind option_bind].
  rewrite !add64_small by lia. rewrite Z.add_0_r.
  replace (F + 4 + 1) with (F + 5) by lia.
  rewrite link_Num, !link_Cal by lia.
  rewrite clear_small by reflexivity. cbn [mbind option_bind]. unfold redo.
  eexists. split; [ reflexivity | ].
  unfold free_stk in *. unfold mem7, mem6, mem5, gentree_heap, link.
  destruct (get_tag t <=? VAR);
    cbn [node cost size free set_free write set_node set_size inc_cost set_cost];
    (split; [ reflexivity | ]; split; [ reflexivity | ]; split; [ reflexivity | ];
     rewrite lookup_insert_eq; unfold default at 1; cbn [from_option id];
     rewrite Hfree; reflexivity).
Qed.

Lemma add64_add64 (a b c : Z) : add64 (add64 a b) c = add64 a (b + c).
Proof. unfold add64. rewrite Zplus_mod_idemp_l. f_equal. lia. Qed.

Lemma ask_lnk_node (mem mem' : Worker) (A : Z) :
  node mem = node mem' -> ask_lnk mem A = ask_lnk mem' A.
Proof. intros H. unfold ask_lnk. rewrite H. reflexivity. Qed.

(** X20.  The recursive case of the generated rule of GenTree, on a number [n]
    of at least 3 with any second argument [t]: one pass of the loop body in
    the ascent phase rewrites [(GenTree n t)] at the host to
    [(GenTree (n - 2) (AddLeftLeaf (n - 1) (AddRightLeaf n t)))].  It
    counts five rewrites (one for the rule, one for each of the two copies
    of [n] and of the two subtractions done in line), takes three 2-word
    nodes at the frontier of the worker, moves [t] to the innermost of them
    (with the back-pointer of a variable [t] redirected there), pushes the
    node of the call on the free-list of size 2 and leaves every other word
    below the frontier as it was.  This for a worker whose free-list of
    size 2 is empty and whose frontier, with six more words, stays below
    [2^32]. *)
Theorem gentree_unfolds (fuel : nat) (slen : Z) (st : Loop) :
  let mem := wrk st in
  let term := ask_lnk mem (host st) in
  let n := ask_arg mem term 0 in
  let t := ask_arg mem term 1 in
  let F := frontier mem in
  init st <> 1 ->
  get_tag term = FUN -> get_ext term = _GENTREE_ ->
  get_tag n = NUM -> 3 <= get_num n ->
  free_stk mem 2 = [] ->
  0 <= tid mem -> 0 <= size mem -> F + 6 <= 2 ^ 32 ->
  host st < F -> get_loc term 1 < F ->
  (is_var t = true -> binder_slot t < F /\ binder_slot t <> host st) ->
  exists st',
    reduce_body fuel slen st = Some (Continue, st')
    /\ init st' = 1 /\ host st' = host st /\ stack st' = stack st
    /\ cost (wrk st') = add64 (cost mem) 5
    /\ size (wrk st') = size mem + 6
    /\ free_stk (wrk st') 2 = [get_loc term 0]
    /\ ask_lnk (wrk st') (host st) = Cal 2 _GENTREE_ (F + 4)
    /\ ask_lnk (wrk st') (F + 4) = Num (get_num n - 2)
    /\ ask_lnk (wrk st') (F + 5) = Cal 2 _ADDLEFTLEAF_ (F + 2)
    /\ ask_lnk (wrk st') (F + 2) = Num (get_num n - 1)
    /\ ask_lnk (wrk st') (F + 3) = Cal 2 _ADDRIGHTLEAF_ F
    /\ ask_lnk (wrk st') F = n
    /\ ask_lnk (wrk st') (F + 1) = t
    /\ (is_var t = true -> ask_lnk (wrk st') (binder_slot t) = Arg (F + 1))
    /\ (forall A, A < F -> A <> host st -> (is_var t = true -> A <> binder_slot t) ->
                  ask_lnk (wrk st') A = ask_lnk mem A).
Proof.
  intros mem term n t F Hinit Htag Hext Hnum Hn Hfree Htid Hsize Hfit Hhost Hloc Hvar.
  destruct (rule_gentree_number st term Hnum Hn Hfree Htid Hsize Hfit Hloc)
    as (mem' & Hrule & Hnode & Hcost & Hsz & Hfr).
  fold mem in Hnode, Hcost, Hsz. fold n in Hnode. fold t in Hnode. fold F in Hnode.
  exists (mkLoop 1 (host st) (stack st) mem'). split.
  { rewrite reduce_body_ascent by exact Hinit. fold mem. fold term.
    unfold reduce_ascent. rewrite Htag. cbn [Z.eqb Pos.eqb FUN APP DP0 DP1 OP2 orb].
    unfold reduce_fun. rewrite Hext. cbn [Z.eqb Pos.eqb _GENTREE_]. exact Hrule. }
  cbn [init host stack wrk].
  split; [ reflexivity | ]. split; [ reflexivity | ]. split; [ reflexivity | ].
  split; [ rewrite Hcost, !add64_add64; reflexivity | ].
  split; [ exact Hsz | ]. split; [ exact Hfr | ].
  assert (HF : 0 <= F) by (unfold F, frontier; change MEM_SPACE with 44739242; lia).
  assert (Hread : forall A, ask_lnk mem' A = ask_lnk (gentree_heap mem (host st) F n t) A)
    by (intros A; apply ask_lnk_node; exact Hnode).
  assert (Hwrites : forall A, A ∉ link_writes (F + 1) t <-> A <> F + 1 /\ (is_var t = true -> A <> binder_slot t)).
  { intros A. unfold link_writes. destruct (is_var t).
    - rewrite !not_elem_of_cons. split; [ intros (? & ? & _); auto | ].
      intros [? Hb]. repeat split; auto using not_elem_of_nil.
    - rewrite !not_elem_of_cons. split; [ intros (? & _); split; [ auto | discriminate ] | ].
      intros [? _]. split; auto using not_elem_of_nil. }
  assert (Hslot : is_var t = true -> binder_slot t <> F + 1)
    by (intros Hv; destruct (Hvar Hv); lia).
  rewrite !Hread. unfold gentree_heap. cbn zeta.
  split; [ apply ask_lnk_write_eq | ].
  split; [ rewrite !ask_lnk_write_ne by lia; apply ask_lnk_write_eq | ].
  split; [ rewrite !ask_lnk_write_ne by lia; apply ask_lnk_write_eq | ].
  split; [ rewrite !ask_lnk_write_ne by lia; apply ask_lnk_write_eq | ].
  split; [ rewrite !ask_lnk_write_ne by lia; apply ask_lnk_write_eq | ].
  split.
  { rewrite !ask_lnk_write_ne by lia. rewrite link_frame; [ apply ask_lnk_write_eq | ].
    apply Hwrites. split; [ lia | ]. intros Hv. destruct (Hvar Hv). lia. }
  split; [ rewrite !ask_lnk_write_ne by lia; apply link_loc; exact Hslot | ].
  split.
  { intros Hv. destruct (Hvar Hv) as [Hlt Hne].
    rewrite !ask_lnk_write_ne by lia. apply link_slot. exact Hv. }
  intros A HA HAhost HAslot. rewrite Hread. unfold gentree_heap. cbn zeta.
  rewrite !ask_lnk_write_ne by lia. rewrite link_frame by (apply Hwrites; split; [ lia | exact HAslot ]).
  apply ask_lnk_write_ne. lia.
Qed.

Lemma gentree_unfolds_witness :
  exists st',
    reduce_body 0 1 gentree_5 = Some (Continue, st')
    /\ cost (wrk st') = 5
    /\ ask_lnk (wrk st') 0 = Cal 2 _GENTREE_ 8
    /\ ask_lnk (wrk st') 8 = Num 3
    /\ ask_lnk (wrk st') 9 = Cal 2 _ADDLEFTLEAF_ 6
    /\ ask_lnk (wrk st') 6 = Num 4
    /\ ask_lnk (wrk st') 7 = Cal 2 _ADDRIGHTLEAF_ 4
    /\ ask_lnk (wrk st') 4 = Num 5
    /\ ask_lnk (wrk st') 5 = Ctr 1 31 3.
Proof.
  destruct (gentree_unfolds 0 1 gentree_5)
    as (st' & Hbody & _ & _ & _ & Hcost & _ & _ & H0 & H8 & H9 & H6 & H7 & H4 & H5 & _).
  - discriminate.
  - reflexivity.
  - reflexivity.
  - reflexivity.
  - vm_compute. discriminate.
  - reflexivity.
  - vm_compute. discriminate.
  - vm_compute. discriminate.
  - vm_compute. discriminate.
  - reflexivity.
  - reflexivity.
  - intros Hv. discriminate Hv.
  - exists st'. repeat split; assumption.
Defined.

Lemma reduce_body_gentree_base (fuel : nat) (slen : Z) (st : Loop) :
  let mem := wrk st in
  let term := ask_lnk mem (host st) in
  let n := ask_arg mem term 0 in
  init st <> 1 ->
  get_tag term = FUN -> get_ext term = _GENTREE_ ->
  get_tag n = NUM -> get_num n <= 1 ->
  reduce_body fuel slen st
  = Some (Continue, mkLoop 1 (host st) (stack st) (gentree_base_done mem (host st) term)).
Proof.
  intros mem term n Hinit Htag Hext Hnum Hn.
  pose proof (get_num_range n) as Hrange.
  rewrite reduce_body_ascent by exact Hinit. fold mem. fold term.
  unfold reduce_ascent. rewrite Htag. cbn [Z.eqb Pos.eqb FUN APP DP0 DP1 OP2 orb].
  unfold reduce_fun. rewrite Hext. cbn [Z.eqb Pos.eqb _GENTREE_].
  unfold rule_gentree, gentree_base_done. fold mem. fold n. rewrite Hnum.
  cbn [Z.eqb Pos.eqb NUM SUP andb].
  change (ask_arg (inc_cost mem) term 1) with (ask_arg mem term 1).
  destruct (Z.eqb_spec (get_num n) 0) as [ | Hne0 ].
  - rewrite clear_small by reflexivity. unfold free_stk. rewrite free_link. reflexivity.
  - destruct (Z.eqb_spec (get_num n) 1) as [ | Hne1 ]; [ | lia ].
    rewrite clear_small by reflexivity. unfold free_stk. rewrite free_link. reflexivity.
Qed.

Lemma ask_lnk_gentree_base_done (mem : Worker) (host term A : Z) :
  ask_lnk (gentree_base_done mem host term) A = ask_lnk (link mem host (ask_arg mem term 1)) A.
Proof. unfold gentree_base_done. rewrite link_inc_cost. reflexivity. Qed.

(** X21.  The base cases of the generated rule of GenTree: on the number 0 or 1,
    one pass of the loop body in the ascent phase rewrites [(GenTree n t)]
    at the host to [t].  One rewrite is counted, nothing is allocated, the
    node of the call goes on the free-list of size 2, a variable [t] has
    its back-pointer redirected to the host, and no other word changes. *)
Theorem gentree_base (fuel : nat) (slen : Z) (st : Loop) :
  let mem := wrk st in
  let term := ask_lnk mem (host st) in
  let n := ask_arg mem term 0 in
  let t := ask_arg mem term 1 in
  init st <> 1 ->
  get_tag term = FUN -> get_ext term = _GENTREE_ ->
  get_tag n = NUM -> get_num n <= 1 ->
  (is_var t = true -> binder_slot t <> host st) ->
  exists st',
    reduce_body fuel slen st = Some (Continue, st')
    /\ init st' = 1 /\ host st' = host st /\ stack st' = stack st
    /\ cost (wrk st') = add64 (cost mem) 1
    /\ size (wrk st') = size mem
    /\ free_stk (wrk st') 2 = stk_push (free_stk mem 2) (get_loc term 0)
    /\ ask_lnk (wrk st') (host st) = t
    /\ (is_var t = true -> ask_lnk (wrk st') (binder_slot t) = Arg (host st))
    /\ (forall A, A ∉ link_writes (host st) t -> ask_lnk (wrk st') A = ask_lnk mem A).
Proof.
  intros mem term n t Hinit Htag Hext Hnum Hn Hvar.
  eexists. split; [ apply reduce_body_gentree_base; assumption | ].
  cbn [init host stack wrk]. fold mem. fold term.
  split; [ reflexivity | ]. split; [ reflexivity | ]. split; [ reflexivity | ].
  unfold gentree_base_done at 1 2 3.
  split; [ cbn [cost set_free]; rewrite cost_link; reflexivity | ].
  split; [ cbn [size set_free]; rewrite size_link; reflexivity | ].
  split; [ unfold free_stk at 1; cbn [free set_free]; rewrite lookup_insert_eq; reflexivity | ].
  fold t. split; [ rewrite ask_lnk_gentree_base_done; apply link_loc; exact Hvar | ].
  split; [ intros Hv; rewrite ask_lnk_gentree_base_done; apply link_slot; exact Hv | ].
  intros A HA. rewrite ask_lnk_gentree_base_done. apply link_frame. exact HA.
Qed.

Lemma gentree_base_witness :
  exists st',
    reduce_body 0 1
      (mkLoop 0 0 []
         (ffi_worker 0 (heap_of [Cal 2 _GENTREE_ 1; Num 1; Ctr 1 31 3; Num 0]) 4
            id_to_arity_data id_to_arity_size))
    = Some (Continue, st')
    /\ ask_lnk (wrk st') 0 = Ctr 1 31 3
    /\ cost (wrk st') = 1
    /\ free_stk (wrk st') 2 = [1].
Proof.
  destruct (gentree_base 0 1
              (mkLoop 0 0 []
                 (ffi_worker 0 (heap_of [Cal 2 _GENTREE_ 1; Num 1; Ctr 1 31 3; Num 0]) 4
                    id_to_arity_data id_to_arity_size)))
    as (st' & Hbody & _ & _ & _ & Hcost & _ & Hfree & Hhost & _).
  - discriminate.
  - reflexivity.
  - reflexivity.
  - reflexivity.
  - vm_compute. discriminate.
  - intros Hv. discriminate Hv.
  - exists st'. repeat split; assumption.
Defined.

(** ** reduce on the duplication of a number *)

Lemma flag_free_word (w : Z) :
  Z.land w FLAG_BYTE = 0 ->
  Z.ldiff (Z.lor (Z.ldiff w FLAG_BYTE) (2 ^ 48)) FLAG_BYTE = w.
Proof.
  intros Hfree. apply Z.bits_inj'. intros i Hi.
  apply (f_equal (fun x => Z.testbit x i)) in Hfree.
  rewrite Z.land_spec, Z.bits_0 in Hfree.
  rewrite !Z.ldiff_spec, Z.lor_spec, Z.ldiff_spec.
  destruct (Z.testbit FLAG_BYTE i) eqn:Hf.
  - rewrite !andb_false_r. destruct (Z.testbit w i); [ discriminate Hfree | reflexivity ].
  - rewrite !andb_true_r. destruct (Z.eq_dec i 48) as [-> | Hne]; [ discriminate Hf | ].
    rewrite Z.pow2_bits_false by lia. apply orb_false_r.
Qed.

(** X22.  [reduce] on a projection of the duplication of a number, from start to
    end, with the lock of the node free at the start: the descent takes the
    lock and visits the subject, the ascent applies DUP-NUM and releases
    the lock, and the empty work stack ends the loop after three
    iterations.  [reduce] returns the number [n], which is then at the
    root and at each occurrence the node records; one rewrite is counted,
    the node is on the free-list of size 3, its first word is what it was
    before the call (lock byte clear), and no other word has changed. *)
Theorem reduce_dup_num (fuel : nat) (mem : Worker) (root slen : Z) :
  let term := ask_lnk mem root in
  let n := ask_arg mem term 2 in
  let slot0 := ask_arg mem term 0 in
  let slot1 := ask_arg mem term 1 in
  let L0 := get_loc slot0 0 in
  let L1 := get_loc slot1 0 in
  let node0 := get_loc term 0 in
  0 <= root < 2 ^ 31 ->
  get_tag term = DP0 \/ get_tag term = DP1 ->
  get_val term + 2 < 2 ^ 32 ->
  get_tag n = NUM ->
  Z.land slot0 FLAG_BYTE = 0 ->
  root <> node0 ->
  (get_tag slot0 <> ERA -> L0 <> node0 /\ L0 <> get_loc term 1) ->
  (get_tag slot1 <> ERA -> L1 <> node0) ->
  exists mem',
    reduce (3 + fuel) mem root slen = Some (n, mem')
    /\ cost mem' = add64 (cost mem) 1
    /\ ask_lnk mem' root = n
    /\ (get_tag slot0 <> ERA -> ask_lnk mem' L0 = n)
    /\ (get_tag slot1 <> ERA -> ask_lnk mem' L1 = n)
    /\ ask_lnk mem' node0 = slot0
    /\ (forall A, A <> root -> A <> node0 ->
                  (get_tag slot0 <> ERA -> A <> L0) -> (get_tag slot1 <> ERA -> A <> L1) ->
                  ask_lnk mem' A = ask_lnk mem A)
    /\ free_stk mem' 3 = stk_push (free_stk mem 3) node0.
Proof.
  intros term n slot0 slot1 L0 L1 node0 Hroot Htag Hval Hnum Hfree Hnode Hocc0 Hocc1.
  assert (Hv : 0 <= get_val term).
  { unfold get_val. change 0xFFFFFFFF with (Z.ones 32). rewrite Z.land_ones by lia.
    apply Z.mod_pos_bound. lia. }
  assert (Hloc : forall i, 0 <= i <= 2 -> get_loc term i = get_val term + i).
  { intros i Hi. unfold get_loc, add64. apply Z.mod_small. lia. }
  assert (Hnode0 : node0 = get_val term) by (unfold node0; rewrite Hloc by lia; lia).
  set (word := Z.lor (Z.ldiff slot0 FLAG_BYTE) (2 ^ 48)).
  set (mem1 := write mem node0 word).
  destruct (flag_fields slot0 word (or_introl eq_refl)) as [Hwtag Hwval].
  assert (Hterm1 : ask_lnk mem1 root = term)
    by (unfold mem1; apply ask_lnk_write_ne; congruence).
  assert (Hn1 : ask_arg mem1 term 2 = n).
  { unfold ask_arg, mem1. apply ask_lnk_write_ne. rewrite Hloc by lia. lia. }
  assert (Hslot1 : ask_arg mem1 term 1 = slot1).
  { unfold ask_arg, mem1. apply ask_lnk_write_ne. rewrite Hloc by lia. lia. }
  assert (Hslot0 : ask_arg mem1 term 0 = word)
    by (unfold ask_arg, mem1; apply ask_lnk_write_eq).
  assert (HL0 : get_loc word 0 = L0) by (unfold L0, get_loc; rewrite Hwval; reflexivity).
  (* descent at the root: the lock is taken, the host pushed, the subject visited *)
  assert (Hstep1 : forall f, reduce_step f slen (mkLoop 1 root stk_init mem)
                   = Some (inl (mkLoop 1 (get_val term + 2) [root] mem1))).
  { intros f. unfold reduce_step. rewrite reduce_body_descent by reflexivity.
    cbn [wrk host]. fold term. unfold reduce_descent.
    replace ((get_tag term =? DP0) || (get_tag term =? DP1)) with true
      by (destruct Htag as [-> | ->]; reflexivity).
    replace (get_tag term =? APP) with false
      by (destruct Htag as [-> | ->]; reflexivity).
    unfold atomic_flag_test_and_set. cbn [wrk]. fold node0.
    change (ask_lnk mem node0) with slot0. rewrite Hfree. cbn [Z.eqb negb].
    fold word. fold mem1. cbn [host]. rewrite Hterm1, Z.eqb_refl. cbn [negb].
    cbn [mbind option_bind init stack]. rewrite Hloc by lia.
    unfold trunc32. rewrite Z.mod_small by lia. reflexivity. }
  (* descent at the subject: a number; the host is popped *)
  assert (Hstep2 : forall f, reduce_step f slen (mkLoop 1 (get_val term + 2) [root] mem1)
                   = Some (inl (mkLoop 0 root [] mem1))).
  { intros f. rewrite reduce_step_head_normal.
    - change [root] with ([] ++ [root]) at 1. rewrite reduce_pop_push by lia.
      rewrite Z.div_small, Z.mod_small by lia. reflexivity.
    - cbn [wrk host]. rewrite <- (Hloc 2) by lia. fold (ask_arg mem1 term 2).
      rewrite Hn1. apply head_normal_NUM. exact Hnum. }
  (* ascent at the root: DUP-NUM, the lock is released, the stack is empty *)
  destruct (dup_num_step fuel slen (mkLoop 0 root [] mem1))
    as (st' & Hbody & Hhost' & Hstack' & Hcost' & Hres & Hres0 & Hres1 & Hword & Hframe & Hfr);
    cbn [init wrk host stack]; rewrite ?Hterm1, ?Hn1, ?Hslot0, ?Hslot1, ?HL0, ?Hwtag;
    try assumption; try discriminate.
  cbn [init wrk host stack] in *.
  rewrite ?Hterm1, ?Hn1, ?Hslot0, ?Hslot1, ?HL0, ?Hwtag in *.
  fold node0 in Hword, Hframe, Hfr. fold L1 in Hres1, Hframe.
  assert (Hstep3 : reduce_step (S fuel) slen (mkLoop 0 root [] mem1)
                   = Some (inr (wrk st'))).
  { unfold reduce_step. rewrite Hbody. cbn [mbind option_bind].
    unfold reduce_pop. rewrite Hstack'. reflexivity. }
  exists (wrk st'). split.
  { unfold reduce, trunc32. rewrite (Z.mod_small root) by lia.
    change (3 + fuel)%nat with (S (S (S fuel))).
    rewrite (reduce_loop_next _ _ _ _ (Hstep1 _)).
    rewrite (reduce_loop_next _ _ _ _ (Hstep2 _)).
    rewrite (reduce_loop_last _ _ _ _ Hstep3).
    cbn [mbind option_bind]. rewrite Hres. reflexivity. }
  split; [ exact Hcost' | ]. split; [ exact Hres | ].
  split; [ exact Hres0 | ]. split; [ exact Hres1 | ].
  split; [ rewrite Hword; apply flag_free_word; exact Hfree | ].
  split; [ | exact Hfr ].
  intros A HA Hn0 HA0 HA1. rewrite Hframe by assumption.
  unfold mem1. apply ask_lnk_write_ne. congruence.
Qed.

Lemma reduce_dup_num_witness :
  exists mem',
    reduce 3 (wrk dup_7) 0 MAX_WORKERS = Some (Num 7, mem')
    /\ ask_lnk mem' 0 = Num 7 /\ ask_lnk mem' 1 = Num 7 /\ ask_lnk mem' 2 = Arg 0
    /\ cost mem' = 1.
Proof.
  destruct (reduce_dup_num 0 (wrk dup_7) 0 MAX_WORKERS)
    as (mem' & Hrun & Hcost & Hroot & _ & H1 & Hnode & _).
  - lia.
  - left. reflexivity.
  - vm_compute. reflexivity.
  - reflexivity.
  - reflexivity.
  - discriminate.
  - intros _. split; discriminate.
  - intros _. discriminate.
  - exists mem'. split; [ exact Hrun | ]. split; [ exact Hroot | ].
    split; [ apply H1; vm_compute; discriminate | ].
    split; [ exact Hnode | exact Hcost ].
Defined.

(** ** reduce on a call of GenTree *)

(** X23.  [reduce] on [(GenTree n t)] with [n] the number 0 or 1 and [t] in head
    normal form, for a worker whose table gives GenTree its arity 2: the
    descent forces the first argument, finds a number and comes back, the
    ascent applies the rule and the next descent, finding [t] at the root
    in head normal form, ends the loop, after four iterations in all.
    [reduce] returns [t], which is then at the root; one rewrite is
    counted. *)
Theorem reduce_gentree_base (fuel : nat) (mem : Worker) (root slen : Z) :
  let term := ask_lnk mem root in
  let n := ask_arg mem term 0 in
  let t := ask_arg mem term 1 in
  0 <= root < 2 ^ 31 ->
  get_tag term = FUN -> get_ext term = _GENTREE_ -> ask_ari mem term = 2 ->
  get_tag n = NUM -> get_num n <= 1 ->
  head_normal t ->
  (is_var t = true -> binder_slot t <> root) ->
  exists mem',
    reduce (4 + fuel) mem root slen = Some (t, mem')
    /\ ask_lnk mem' root = t
    /\ cost mem' = add64 (cost mem) 1
    /\ size mem' = size mem
    /\ free_stk mem' 2 = stk_push (free_stk mem 2) (get_loc term 0)
    /\ (forall A, A ∉ link_writes root t -> ask_lnk mem' A = ask_lnk mem A).
Proof.
  intros term n t Hroot Htag Hext Hari Hnum Hn Hhn Hvar.
  assert (Hv : 0 <= get_val term < 2 ^ 32).
  { unfold get_val. change 0xFFFFFFFF with (Z.ones 32). rewrite Z.land_ones by lia.
    apply Z.mod_pos_bound. lia. }
  assert (Hloc0 : get_loc term 0 = get_val term).
  { unfold get_loc, add64. rewrite Z.add_0_r. apply Z.mod_small. lia. }
  (* descent at the root: the host is pushed, the first argument is visited *)
  assert (Hstep1 : forall f, reduce_step f slen (mkLoop 1 root stk_init mem)
                   = Some (inl (mkLoop 1 (get_val term) [root] mem))).
  { intros f. unfold reduce_step. rewrite reduce_body_descent by reflexivity.
    cbn [wrk host]. fold term. unfold reduce_descent. cbn [wrk]. rewrite Htag, Hext, Hari.
    cbn [Z.eqb Pos.eqb FUN APP DP0 DP1 OP2 _GENTREE_ orb andb mbind option_bind init stack host].
    rewrite Hloc0. unfold trunc32. rewrite Z.mod_small by lia. reflexivity. }
  (* descent at the first argument: a number; the host is popped *)
  assert (Hstep2 : forall f, reduce_step f slen (mkLoop 1 (get_val term) [root] mem)
                   = Some (inl (mkLoop 0 root [] mem))).
  { intros f. rewrite reduce_step_head_normal.
    - change [root] with ([] ++ [root]) at 1. rewrite reduce_pop_push by lia.
      rewrite Z.div_small, Z.mod_small by lia. reflexivity.
    - cbn [wrk host]. rewrite <- Hloc0. fold (ask_arg mem term 0). fold n.
      apply head_normal_NUM. exact Hnum. }
  (* ascent at the root: the rule *)
  set (mem' := gentree_base_done mem root term).
  assert (Hstep3 : forall f, reduce_step f slen (mkLoop 0 root [] mem)
                   = Some (inl (mkLoop 1 root [] mem'))).
  { intros f. unfold reduce_step.
    rewrite (reduce_body_gentree_base f slen (mkLoop 0 root [] mem))
      by (cbn [init wrk host]; (discriminate || assumption)).
    reflexivity. }
  assert (Hres : ask_lnk mem' root = t).
  { unfold mem'. rewrite ask_lnk_gentree_base_done. apply link_loc. exact Hvar. }
  (* descent at the root: [t] is in head normal form, the stack is empty *)
  assert (Hstep4 : forall f, reduce_step f slen (mkLoop 1 root [] mem') = Some (inr mem')).
  { intros f. rewrite reduce_step_head_normal; [ reflexivity | ].
    cbn [wrk host]. rewrite Hres. exact Hhn. }
  exists mem'. split.
  { unfold reduce, trunc32. rewrite (Z.mod_small root) by lia.
    change (4 + fuel)%nat with (S (S (S (S fuel)))).
    rewrite (reduce_loop_next _ _ _ _ (Hstep1 _)).
    rewrite (reduce_loop_next _ _ _ _ (Hstep2 _)).
    rewrite (reduce_loop_next _ _ _ _ (Hstep3 _)).
    rewrite (reduce_loop_last _ _ _ _ (Hstep4 _)).
    cbn [mbind option_bind]. rewrite Hres. reflexivity. }
  split; [ exact Hres | ]. unfold mem', gentree_base_done.
  split; [ cbn [cost set_free]; rewrite cost_link; reflexivity | ].
  split; [ cbn [size set_free]; rewrite size_link; reflexivity | ].
  split; [ unfold free_stk at 1; cbn [free set_free]; rewrite lookup_insert_eq; reflexivity | ].
  intros A HA. fold (gentree_base_done mem root term).
  rewrite ask_lnk_gentree_base_done. apply link_frame. exact HA.
Qed.

Lemma reduce_gentree_base_witness :
  exists mem',
    reduce 4 gentree_1 0 MAX_WORKERS = Some (Ctr 1 31 3, mem') /\ cost mem' = 1.
Proof.
  destruct (reduce_gentree_base 0 gentree_1 0 MAX_WORKERS)
    as (mem' & Hrun & _ & Hcost & _).
  - lia.
  - reflexivity.
  - reflexivity.
  - reflexivity.
  - reflexivity.
  - vm_compute. discriminate.
  - unfold head_normal. not_in_list.
  - intros Hv. discriminate Hv.
  - exists mem'. split; [ exact Hrun | exact Hcost ].
Defined.

(** ** FUN-SUP: a call on a superposition *)

Lemma get_val_range (lnk : Z) : 0 <= get_val lnk < 2 ^ 32.
Proof.
  unfold get_val. change 0xFFFFFFFF with (Z.ones 32). rewrite Z.land_ones by lia.
  apply Z.mod_pos_bound. lia.
Qed.

Lemma get_ext_range (lnk : Z) : 0 <= get_ext lnk < 2 ^ 24.
Proof.
  unfold get_ext. change 0xFFFFFF with (Z.ones 24). rewrite Z.land_ones by lia.
  apply Z.mod_pos_bound. lia.
Qed.

Lemma link_Dp0 (mem : Worker) (loc col pos : Z) :
  0 <= col < 2 ^ 24 -> 0 <= pos < 2 ^ 32 ->
  link mem loc (Dp0 col pos) = write (write mem loc (Dp0 col pos)) pos (Arg loc).
Proof.
  intros Hcol Hpos.
  pose proof (pack_fields DP0 col pos ltac:(unfold DP0; lia) Hcol Hpos) as H.
  injection H as Htag _ Hval. fold (Dp0 col pos) in Htag, Hval.
  unfold link, get_loc. rewrite Htag, Hval. cbn [Z.leb Z.compare DP0 VAR Z.eqb DP1].
  unfold add64. rewrite Z.add_0_r, Z.mod_small by lia. reflexivity.
Qed.

Lemma link_Dp1 (mem : Worker) (loc col pos : Z) :
  0 <= col < 2 ^ 24 -> 0 <= pos < 2 ^ 32 ->
  link mem loc (Dp1 col pos) = write (write mem loc (Dp1 col pos)) (pos + 1) (Arg loc).
Proof.
  intros Hcol Hpos.
  pose proof (pack_fields DP1 col pos ltac:(unfold DP1; lia) Hcol Hpos) as H.
  injection H as Htag _ Hval. fold (Dp1 col pos) in Htag, Hval.
  unfold link, get_loc. rewrite Htag, Hval. cbn [Z.leb Z.compare DP1 VAR Z.eqb Pos.eqb Pos.compare Pos.compare_cont].
  unfold add64. rewrite Z.mod_small by lia. reflexivity.
Qed.

Lemma link_Par (mem : Worker) (loc col pos : Z) :
  0 <= col < 2 ^ 24 -> 0 <= pos < 2 ^ 32 ->
  link mem loc (Par col pos) = write mem loc (Par col pos).
Proof.
  intros Hcol Hpos. apply link_not_var.
  pose proof (pack_fields SUP col pos ltac:(unfold SUP; lia) Hcol Hpos) as H.
  injection H as Htag _ _. fold (Par col pos) in Htag. rewrite Htag. reflexivity.
Qed.

Lemma get_loc_small (lnk i : Z) : 0 <= i -> get_val lnk + i < 2 ^ 64 -> get_loc lnk i = get_val lnk + i.
Proof.
  intros Hi Hfit. pose proof (get_val_range lnk). unfold get_loc, add64. apply Z.mod_small. lia.
Qed.

Lemma node_write_eq (mem mem' : Worker) (loc val : Z) :
  node mem = node mem' -> node (write mem loc val) = node (write mem' loc val).
Proof. unfold write. cbn [node set_node]. intros ->. reflexivity. Qed.

Lemma node_link_eq (mem mem' : Worker) (loc lnk lnk' : Z) :
  node mem = node mem' -> lnk = lnk' -> node (link mem loc lnk) = node (link mem' loc lnk').
Proof.
  intros Hnode <-. unfold link. destruct (get_tag lnk <=? VAR);
    repeat apply node_write_eq; exact Hnode.
Qed.

Lemma ask_arg_node (mem mem' : Worker) (term i : Z) :
  node mem = node mem' -> ask_arg mem term i = ask_arg mem' term i.
Proof. intros H. unfold ask_arg. apply ask_lnk_node. exact H. Qed.

Ltac node_eq :=
  repeat (cbn [node set_size inc_cost set_cost set_free];
          first [ reflexivity
                | apply node_write_eq
                | apply node_link_eq
                | apply ask_arg_node ]).

Lemma cal_par_arity_2 (mem : Worker) (host term argn : Z) :
  let F := frontier mem in
  let fun0 := get_loc term 0 in
  let par0 := get_loc argn 0 in
  ask_ari mem term = 2 ->
  free_stk mem 2 = [] -> free_stk mem 3 = [] ->
  0 <= tid mem -> 0 <= size mem -> F + 5 <= 2 ^ 32 ->
  fun0 + 1 < F -> par0 + 1 < F ->
  exists mem',
    cal_par mem host term argn 0 = Some (Par (get_ext argn) par0, mem')
    /\ node mem' = node (cal_par_heap mem host term argn F)
    /\ cost mem' = add64 (cost mem) 1
    /\ size mem' = size mem + 5.
Proof.
  intros F fun0 par0 Hari Hfree2 Hfree3 Htid Hsize Hfit Hfun Hpar.
  assert (HF : 0 <= F) by (unfold F, frontier; change MEM_SPACE with 44739242; lia).
  assert (HFe : F = frontier mem) by reflexivity. clearbody F.
  pose proof (get_val_range term) as Hvt. pose proof (get_val_range argn) as Hva.
  pose proof (get_ext_range argn) as Hcol. pose proof (get_ext_range term) as Hfunc.
  assert (Hfun0 : fun0 = get_val term) by (unfold fun0; rewrite get_loc_small by lia; lia).
  assert (Hpar0 : par0 = get_val argn) by (unfold par0; rewrite get_loc_small by lia; lia).
  unfold cal_par.
  change (ask_ari (inc_cost mem) term) with (ask_ari mem term). rewrite Hari.
  rewrite (alloc_fresh (inc_cost mem) 2 F (size mem + 2)) by fresh_side.
  cbn [mbind option_bind]. change (Z.to_nat 2) with 2%nat. cbn [for_loop].
  cbn [Z.eqb negb mbind option_bind]. fold fun0. fold par0.
  rewrite !add64_small by lia. rewrite !Z.add_0_r.
  set (a := ask_arg (set_size (inc_cost mem) (size mem + 2)) argn 0).
  set (mem1 := link (set_size (inc_cost mem) (size mem + 2)) fun0 a).
  set (b := ask_arg mem1 argn 1).
  set (mem2 := link mem1 F b).
  change (0 + 1) with 1. cbn [Z.eqb Pos.eqb negb].
  rewrite (alloc_fresh mem2 3 (F + 2) (size mem + 5)) by (unfold mem2, mem1; fresh_side).
  cbn [mbind option_bind].
  rewrite !add64_small by lia. replace (F + 2 + 2) with (F + 4) by lia.
  rewrite link_Dp0, link_Dp1, !link_Cal, link_Par by lia.
  replace (F + 2 + 1) with (F + 3) by lia.
  eexists. split; [ reflexivity | ].
  split; [ | split ].
  - unfold cal_par_heap. cbn zeta. fold fun0. fold par0.
    unfold mem2, b, mem1, a. node_eq.
  - cbn [cost write set_node set_size]. rewrite cost_link. cbn [cost write set_node set_size].
    unfold mem2, mem1. rewrite !cost_link. reflexivity.
  - cbn [size write set_node set_size]. rewrite size_link. reflexivity.
Qed.

Lemma not_in_link_writes (loc lnk A : Z) :
  A <> loc -> (is_var lnk = true -> A <> binder_slot lnk) -> A ∉ link_writes loc lnk.
Proof.
  intros Hloc Hslot. unfold link_writes. destruct (is_var lnk).
  - rewrite !not_elem_of_cons. repeat split; auto using not_elem_of_nil.
  - rewrite !not_elem_of_cons. split; auto using not_elem_of_nil.
Qed.

(** X24.  FUN-SUP, for a function of arity 2 called on a superposition in its
    first argument: [cal_par] rewrites [(F {a b} t)] at the host to
    [{(F a t0) (F b t1)}] with [dup t0 t1 = t].  It counts one rewrite and
    takes five words at the frontier: the node of the second call and a
    duplication node of the color of the superposition, whose binder slots
    point to the two occurrences and whose subject is [t].  The node of the
    call becomes that of the first call, the node of the superposition
    holds the two calls, and the host holds the superposition.  This for a
    worker whose free-lists of sizes 2 and 3 are empty, five distinct words
    (host, call, superposition) below the frontier, and variables among
    [a], [b], [t] whose binder slots are other words below the frontier;
    every other such word is left as it was. *)
Theorem cal_par_distributes (mem : Worker) (host term argn : Z) :
  let col := get_ext argn in
  let func := get_ext term in
  let fun0 := get_loc term 0 in
  let par0 := get_loc argn 0 in
  let a := ask_arg mem argn 0 in
  let b := ask_arg mem argn 1 in
  let t := ask_arg mem term 1 in
  let F := frontier mem in
  let cells := [host; fun0; fun0 + 1; par0; par0 + 1] in
  ask_ari mem term = 2 ->
  free_stk mem 2 = [] -> free_stk mem 3 = [] ->
  0 <= tid mem -> 0 <= size mem -> F + 5 <= 2 ^ 32 ->
  NoDup cells -> Forall (fun A => A < F) cells ->
  (forall x, x ∈ [a; b; t] -> is_var x = true -> binder_slot x < F /\ binder_slot x ∉ cells) ->
  exists mem',
    cal_par mem host term argn 0 = Some (Par col par0, mem')
    /\ cost mem' = add64 (cost mem) 1
    /\ size mem' = size mem + 5
    /\ ask_lnk mem' host = Par col par0
    /\ ask_lnk mem' par0 = Cal 2 func fun0
    /\ ask_lnk mem' (par0 + 1) = Cal 2 func F
    /\ ask_lnk mem' fun0 = a
    /\ ask_lnk mem' F = b
    /\ ask_lnk mem' (fun0 + 1) = Dp0 col (F + 2)
    /\ ask_lnk mem' (F + 1) = Dp1 col (F + 2)
    /\ ask_lnk mem' (F + 2) = Arg (fun0 + 1)
    /\ ask_lnk mem' (F + 3) = Arg (F + 1)
    /\ ask_lnk mem' (F + 4) = t
    /\ (is_var t = true -> ask_lnk mem' (binder_slot t) = Arg (F + 4))
    /\ (forall A, A < F -> A ∉ cells ->
                  (forall x, x ∈ [a; b; t] -> is_var x = true -> A <> binder_slot x) ->
                  ask_lnk mem' A = ask_lnk mem A).
Proof.
  intros col func fun0 par0 a b t F cells Hari Hfree2 Hfree3 Htid Hsize Hfit Hdup Hbelow Hvars.
  assert (HF : 0 <= F) by (unfold F, frontier; change MEM_SPACE with 44739242; lia).
  pose proof (get_val_range term) as Hvt. pose proof (get_val_range argn) as Hva.
  assert (Hfun0 : fun0 = get_val term) by (unfold fun0; rewrite get_loc_small by lia; lia).
  assert (Hpar0 : par0 = get_val argn) by (unfold par0; rewrite get_loc_small by lia; lia).
  assert (Hfun1 : get_loc term 1 = fun0 + 1) by (rewrite get_loc_small by lia; lia).
  assert (Hpar1 : get_loc argn 1 = par0 + 1) by (rewrite get_loc_small by lia; lia).
  (* the five cells are distinct and below the frontier *)
  unfold cells in Hdup, Hbelow.
  repeat match goal with
         | H : NoDup (_ :: _) |- _ => apply NoDup_cons in H as [? H]
         | H : _ ∉ _ :: _ |- _ => apply not_elem_of_cons in H as [? H]
         | H : Forall _ (_ :: _) |- _ => apply Forall_cons in H as [? H]
         end.
  assert (Hslots : forall x, x ∈ [a; b; t] -> is_var x = true ->
            binder_slot x < F /\ binder_slot x <> host /\ binder_slot x <> fun0
            /\ binder_slot x <> fun0 + 1 /\ binder_slot x <> par0
            /\ binder_slot x <> par0 + 1).
  { intros x Hx Hv. destruct (Hvars x Hx Hv) as [Hlt Hnin]. unfold cells in Hnin.
    rewrite !not_elem_of_cons in Hnin. tauto. }
  assert (Ha : is_var a = true -> _) by (apply (Hslots a); left).
  assert (Hb : is_var b = true -> _) by (apply (Hslots b); right; left).
  assert (Ht : is_var t = true -> _) by (apply (Hslots t); right; right; left).
  clear Hslots Hvars.
  destruct (cal_par_arity_2 mem host term argn Hari Hfree2 Hfree3 Htid Hsize Hfit)
    as (mem' & Hrun & Hnode & Hcost & Hsz); [ fold fun0 F; lia | fold par0 F; lia | ].
  fold F fun0 par0 col in Hrun, Hnode.
  exists mem'. split; [ exact Hrun | ]. split; [ exact Hcost | ]. split; [ exact Hsz | ].
  assert (Hread : forall A, ask_lnk mem' A = ask_lnk (cal_par_heap mem host term argn F) A)
    by (intros A; apply ask_lnk_node; exact Hnode).
  unfold cal_par_heap in Hread. cbn zeta in Hread.
  fold fun0 par0 col func a in Hread.
  assert (Hb0 : ask_arg (link mem fun0 a) argn 1 = b).
  { unfold ask_arg. apply link_frame. rewrite Hpar1. apply not_in_link_writes; [ lia | ].
    intros Hv. destruct (Ha Hv) as (? & ? & ? & ? & ? & ?). congruence. }
  rewrite Hb0 in Hread.
  assert (Ht0 : ask_arg (link (link mem fun0 a) F b) term 1 = t).
  { unfold ask_arg. rewrite !link_frame; [ reflexivity | | ]; rewrite Hfun1;
      (apply not_in_link_writes; [ lia | ]); intros Hv;
      [ destruct (Ha Hv) as (? & ? & ? & ? & ? & ?)
      | destruct (Hb Hv) as (? & ? & ? & ? & ? & ?) ]; congruence. }
  rewrite Ht0 in Hread.
  rewrite !Hread.
  split; [ apply ask_lnk_write_eq | ].
  split; [ rewrite !ask_lnk_write_ne by lia; apply ask_lnk_write_eq | ].
  split; [ rewrite !ask_lnk_write_ne by lia; apply ask_lnk_write_eq | ].
  split.
  { rewrite !ask_lnk_write_ne by lia.
    rewrite link_frame
      by (apply not_in_link_writes; [ lia | intros Hv; destruct (Ht Hv) as (? & ? & ? & ?); congruence ]).
    rewrite !ask_lnk_write_ne by lia.
    rewrite link_frame
      by (apply not_in_link_writes; [ lia | intros Hv; destruct (Hb Hv) as (? & ? & ? & ?); congruence ]).
    apply link_loc. intros Hv. destruct (Ha Hv) as (? & ? & ? & ?). assumption. }
  split.
  { rewrite !ask_lnk_write_ne by lia.
    rewrite link_frame
      by (apply not_in_link_writes; [ lia | intros Hv; destruct (Ht Hv) as (? & ?); lia ]).
    rewrite !ask_lnk_write_ne by lia.
    apply link_loc. intros Hv. destruct (Hb Hv) as (? & ?). lia. }
  split.
  { rewrite !ask_lnk_write_ne by lia.
    rewrite link_frame
      by (apply not_in_link_writes;
          [ lia | intros Hv; destruct (Ht Hv) as (? & ? & ? & ? & ?); congruence ]).
    rewrite !ask_lnk_write_ne by lia. apply ask_lnk_write_eq. }
  split.
  { rewrite !ask_lnk_write_ne by lia.
    rewrite link_frame
      by (apply not_in_link_writes; [ lia | intros Hv; destruct (Ht Hv) as (? & ?); lia ]).
    rewrite !ask_lnk_write_ne by lia. apply ask_lnk_write_eq. }
  split.
  { rewrite !ask_lnk_write_ne by lia.
    rewrite link_frame
      by (apply not_in_link_writes; [ lia | intros Hv; destruct (Ht Hv) as (? & ?); lia ]).
    rewrite !ask_lnk_write_ne by lia. apply ask_lnk_write_eq. }
  split.
  { rewrite !ask_lnk_write_ne by lia.
    rewrite link_frame
      by (apply not_in_link_writes; [ lia | intros Hv; destruct (Ht Hv) as (? & ?); lia ]).
    apply ask_lnk_write_eq. }
  split.
  { rewrite !ask_lnk_write_ne by lia.
    apply link_loc. intros Hv. destruct (Ht Hv) as (? & ?). lia. }
  split.
  { intros Hv. destruct (Ht Hv) as (? & ? & ? & ? & ? & ?).
    rewrite !ask_lnk_write_ne by congruence. apply link_slot. exact Hv. }
  intros A HA Hcells HAslots. unfold cells in Hcells. rewrite !not_elem_of_cons in Hcells.
  destruct Hcells as (? & ? & ? & ? & ? & _).
  rewrite Hread. rewrite !ask_lnk_write_ne by congruence.
  rewrite link_frame
    by (apply not_in_link_writes; [ lia | apply HAslots; right; right; left ]).
  rewrite !ask_lnk_write_ne by lia.
  rewrite link_frame
    by (apply not_in_link_writes; [ lia | apply HAslots; right; left ]).
  apply link_frame. apply not_in_link_writes; [ congruence | apply HAslots; left ].
Qed.

Lemma cal_par_distributes_witness :
  exists mem',
    cal_par gentree_sup 0 (Cal 2 _GENTREE_ 1) (Par 7 3) 0 = Some (Par 7 3, mem')
    /\ cost mem' = 1
    /\ ask_lnk mem' 0 = Par 7 3
    /\ ask_lnk mem' 3 = Cal 2 _GENTREE_ 1
    /\ ask_lnk mem' 4 = Cal 2 _GENTREE_ 6
    /\ ask_lnk mem' 1 = Num 2
    /\ ask_lnk mem' 6 = Num 3
    /\ ask_lnk mem' 2 = Dp0 7 8
    /\ ask_lnk mem' 7 = Dp1 7 8
    /\ ask_lnk mem' 8 = Arg 2
    /\ ask_lnk mem' 9 = Arg 7
    /\ ask_lnk mem' 10 = Ctr 1 31 5.
Proof.
  destruct (cal_par_distributes gentree_sup 0 (Cal 2 _GENTREE_ 1) (Par 7 3))
    as (mem' & Hrun & Hcost & _ & H0 & H3 & H4 & H1 & H6 & H2 & H7 & H8 & H9 & H10 & _).
  - reflexivity.
  - reflexivity.
  - reflexivity.
  - vm_compute. discriminate.
  - vm_compute. discriminate.
  - vm_compute. discriminate.
  - apply (bool_decide_unpack _). vm_compute. exact I.
  - repeat (constructor; [ vm_compute; reflexivity | ]). constructor.
  - intros x Hx Hv. exfalso. revert Hv.
    rewrite !elem_of_cons in Hx. destruct Hx as [-> | [-> | [-> | Hx]]];
      [ discriminate | discriminate | discriminate | inversion Hx ].
  - exists mem'. repeat split; assumption.
Defined.

(** ** The rule of Main on the term of a run without arguments *)

Lemma fields_Ctr (ari fun_ pos : Z) :
  0 <= fun_ < 2 ^ 24 -> 0 <= pos < 2 ^ 32 ->
  get_tag (Ctr ari fun_ pos) = CTR /\ get_ext (Ctr ari fun_ pos) = fun_
  /\ get_val (Ctr ari fun_ pos) = pos.
Proof.
  intros Hfun Hpos.
  pose proof (pack_fields CTR fun_ pos ltac:(unfold CTR; lia) Hfun Hpos) as H.
  injection H as Htag Hext Hval. repeat split; assumption.
Qed.

Lemma fields_Cal (ari fun_ pos : Z) :
  0 <= fun_ < 2 ^ 24 -> 0 <= pos < 2 ^ 32 ->
  get_tag (Cal ari fun_ pos) = FUN /\ get_ext (Cal ari fun_ pos) = fun_
  /\ get_val (Cal ari fun_ pos) = pos.
Proof.
  intros Hfun Hpos.
  pose proof (pack_fields FUN fun_ pos ltac:(unfold FUN; lia) Hfun Hpos) as H.
  injection H as Htag Hext Hval. repeat split; assumption.
Qed.

Lemma link_Ctr (mem : Worker) (loc ari fun_ pos : Z) :
  0 <= fun_ < 2 ^ 24 -> 0 <= pos < 2 ^ 32 ->
  link mem loc (Ctr ari fun_ pos) = write mem loc (Ctr ari fun_ pos).
Proof.
  intros Hfun Hpos. apply link_not_var.
  destruct (fields_Ctr ari fun_ pos Hfun Hpos) as (-> & _). reflexivity.
Qed.

(** [collect] on a constructor or call of arity 1 or 2. *)
Lemma collect_arity_1 (fuel : nat) (mem : Worker) (term : Z) :
  get_tag term = CTR \/ get_tag term = FUN -> ask_ari mem term = 1 ->
  collect (S fuel) mem term
  = (mem ← collect fuel mem (ask_arg mem term 0); clear mem (get_loc term 0) 1).
Proof.
  intros Htag Hari. cbn [collect]. rewrite Hari.
  destruct Htag as [-> | ->]; cbn [Z.eqb Pos.eqb CTR FUN DP0 DP1 VAR LAM APP SUP OP2 NUM orb];
    change (Z.to_nat 1) with 1%nat; cbn [for_loop];
    destruct (collect fuel mem (ask_arg mem term 0)) as [ m1 | ]; reflexivity.
Qed.

Lemma collect_arity_2 (fuel : nat) (mem : Worker) (term : Z) :
  get_tag term = CTR \/ get_tag term = FUN -> ask_ari mem term = 2 ->
  collect (S fuel) mem term
  = (mem ← collect fuel mem (ask_arg mem term 0);
     mem ← collect fuel mem (ask_arg mem term 1);
     clear mem (get_loc term 0) 2).
Proof.
  intros Htag Hari. cbn [collect]. rewrite Hari.
  destruct Htag as [-> | ->]; cbn [Z.eqb Pos.eqb CTR FUN DP0 DP1 VAR LAM APP SUP OP2 NUM orb];
    change (Z.to_nat 2) with 2%nat; cbn [for_loop]; change (0 + 1) with 1;
    destruct (collect fuel mem (ask_arg mem term 0)) as [ m1 | ]; cbn [mbind option_bind];
    try reflexivity;
    destruct (collect fuel m1 (ask_arg m1 term 1)) as [ m2 | ]; reflexivity.
Qed.

Lemma get_loc_Cal (ari fun_ pos i : Z) :
  0 <= fun_ < 2 ^ 24 -> 0 <= pos -> 0 <= i -> pos + i < 2 ^ 32 ->
  get_loc (Cal ari fun_ pos) i = pos + i.
Proof.
  intros Hfun Hpos Hi Hfit. destruct (fields_Cal ari fun_ pos) as (_ & _ & Hval); [ lia | lia | ].
  unfold get_loc. rewrite Hval. apply add64_small. lia.
Qed.

Lemma get_loc_Ctr (ari fun_ pos i : Z) :
  0 <= fun_ < 2 ^ 24 -> 0 <= pos -> 0 <= i -> pos + i < 2 ^ 32 ->
  get_loc (Ctr ari fun_ pos) i = pos + i.
Proof.
  intros Hfun Hpos Hi Hfit. destruct (fields_Ctr ari fun_ pos) as (_ & _ & Hval); [ lia | lia | ].
  unfold get_loc. rewrite Hval. apply add64_small. lia.
Qed.

(** The arities [main] gives to the functions of the term Main builds. *)
Lemma ask_ari_main_table (mem : Worker) (lnk : Z) :
  aris mem = id_to_arity_data -> funs mem = id_to_arity_size ->
  (get_ext lnk = 29 -> ask_ari mem lnk = 2)
  /\ (get_ext lnk = 30 -> ask_ari mem lnk = 2)
  /\ (get_ext lnk = 31 -> ask_ari mem lnk = 1)
  /\ (get_ext lnk = 32 -> ask_ari mem lnk = 1).
Proof.
  intros Haris Hfuns. unfold ask_ari. rewrite Haris, Hfuns.
  repeat split; intros ->; reflexivity.
Qed.

Lemma free_stk_push_free_eq (mem : Worker) (sz loc : Z) :
  free_stk (push_free mem sz loc) sz = free_stk mem sz ++ [loc].
Proof. unfold free_stk at 1, push_free. cbn [free set_free]. rewrite lookup_insert_eq. reflexivity. Qed.

Lemma free_stk_push_free_ne (mem : Worker) (sz loc k : Z) :
  k <> sz -> free_stk (push_free mem sz loc) k = free_stk mem k.
Proof.
  intros Hne. unfold free_stk at 1, push_free. cbn [free set_free].
  rewrite lookup_insert_ne by congruence. reflexivity.
Qed.

(** [collect] on the term of Main: the nodes are freed in post-order. *)
Lemma collect_main_term (fuel : nat) (mem : Worker) (F : Z) :
  0 <= F -> F + 7 <= 2 ^ 32 ->
  aris mem = id_to_arity_data -> funs mem = id_to_arity_size ->
  ask_lnk mem (F + 6) = Cal 2 29 (F + 4) ->
  ask_lnk mem (F + 4) = Num 1048 ->
  ask_lnk mem (F + 5) = Ctr 2 30 (F + 2) ->
  ask_lnk mem (F + 2) = Ctr 1 31 F ->
  ask_lnk mem (F + 3) = Ctr 1 31 (F + 1) ->
  ask_lnk mem F = Num 0 ->
  ask_lnk mem (F + 1) = Num 1 ->
  collect (5 + fuel) mem (Cal 1 32 (F + 6))
  = Some (push_free
            (push_free
               (push_free (push_free (push_free mem 1 F) 1 (F + 1)) 2 (F + 2))
               2 (F + 4))
            1 (F + 6)).
Proof.
  intros HF Hfit Haris Hfuns R6 R4 R5 R2 R3 RF R1.
  assert (Hari : forall lnk,
            (get_ext lnk = 29 -> ask_ari mem lnk = 2) /\ (get_ext lnk = 30 -> ask_ari mem lnk = 2)
            /\ (get_ext lnk = 31 -> ask_ari mem lnk = 1) /\ (get_ext lnk = 32 -> ask_ari mem lnk = 1))
    by (intros lnk; apply ask_ari_main_table; assumption).
  assert (A29 : forall lnk, get_ext lnk = 29 -> ask_ari mem lnk = 2) by (intros lnk; apply (Hari lnk)).
  assert (A30 : forall lnk, get_ext lnk = 30 -> ask_ari mem lnk = 2) by (intros lnk; apply (Hari lnk)).
  assert (A31 : forall lnk, get_ext lnk = 31 -> ask_ari mem lnk = 1) by (intros lnk; apply (Hari lnk)).
  assert (A32 : forall lnk, get_ext lnk = 32 -> ask_ari mem lnk = 1) by (intros lnk; apply (Hari lnk)).
  assert (Hcal : forall a f p, 0 <= f < 2 ^ 24 -> 0 <= p < 2 ^ 32 ->
            (get_tag (Cal a f p) = CTR \/ get_tag (Cal a f p) = FUN) /\ get_ext (Cal a f p) = f).
  { intros a f p Hf Hp. destruct (fields_Cal a f p Hf Hp) as (-> & -> & _). auto. }
  assert (Hctr : forall a f p, 0 <= f < 2 ^ 24 -> 0 <= p < 2 ^ 32 ->
            (get_tag (Ctr a f p) = CTR \/ get_tag (Ctr a f p) = FUN) /\ get_ext (Ctr a f p) = f).
  { intros a f p Hf Hp. destruct (fields_Ctr a f p Hf Hp) as (-> & -> & _). auto. }
  (* a leaf *)
  assert (Hleaf : forall f m p v,
            0 <= p -> p + 1 < 2 ^ 32 ->
            (forall A, ask_lnk m A = ask_lnk mem A) -> (forall lnk, ask_ari m lnk = ask_ari mem lnk) ->
            ask_lnk mem p = Num v ->
            collect (S (S f)) m (Ctr 1 31 p) = Some (push_free m 1 p)).
  { intros f m p v Hp Hp' Hm Hma Hword.
    destruct (Hctr 1 31 p) as [Htag Hext]; [ lia | lia | ].
    rewrite collect_arity_1; [ | exact Htag | rewrite Hma; apply A31; exact Hext ].
    unfold ask_arg. rewrite get_loc_Ctr, Z.add_0_r by lia. rewrite Hm, Hword.
    rewrite collect_Num by apply get_tag_Num. cbn [mbind option_bind].
    apply clear_small. reflexivity. }
  assert (E32 : ask_arg mem (Cal 1 32 (F + 6)) 0 = Cal 2 29 (F + 4)).
  { unfold ask_arg. rewrite get_loc_Cal, Z.add_0_r by lia. exact R6. }
  assert (E29 : ask_arg mem (Cal 2 29 (F + 4)) 0 = Num 1048
                /\ ask_arg mem (Cal 2 29 (F + 4)) 1 = Ctr 2 30 (F + 2)).
  { unfold ask_arg. rewrite !get_loc_Cal, Z.add_0_r by lia.
    replace (F + 4 + 1) with (F + 5) by lia. split; assumption. }
  assert (E30 : ask_arg mem (Ctr 2 30 (F + 2)) 0 = Ctr 1 31 F
                /\ ask_arg mem (Ctr 2 30 (F + 2)) 1 = Ctr 1 31 (F + 1)).
  { unfold ask_arg. rewrite !get_loc_Ctr, Z.add_0_r by lia.
    replace (F + 2 + 1) with (F + 3) by lia. split; assumption. }
  destruct E29 as [E29a E29b]. destruct E30 as [E30a E30b].
  change (5 + fuel)%nat with (S (S (S (S (S fuel))))).
  (* the call of FFT *)
  destruct (Hcal 1 32 (F + 6)) as [Htag32 Hext32]; [ lia | lia | ].
  rewrite collect_arity_1; [ | exact Htag32 | apply A32; exact Hext32 ].
  rewrite E32.
  (* the call of GenTree *)
  destruct (Hcal 2 29 (F + 4)) as [Htag29 Hext29]; [ lia | lia | ].
  rewrite collect_arity_2; [ | exact Htag29 | apply A29; exact Hext29 ].
  rewrite E29a.
  rewrite collect_Num by apply get_tag_Num. cbn [mbind option_bind].
  rewrite E29b.
  (* the constructor Both and its two leaves *)
  destruct (Hctr 2 30 (F + 2)) as [Htag30 Hext30]; [ lia | lia | ].
  rewrite collect_arity_2; [ | exact Htag30 | apply A30; exact Hext30 ].
  rewrite E30a.
  rewrite (Hleaf fuel mem F 0) by (reflexivity || lia || assumption).
  cbn [mbind option_bind].
  change (ask_arg (push_free mem 1 F) ?x ?i) with (ask_arg mem x i). rewrite E30b.
  rewrite (Hleaf fuel (push_free mem 1 F) (F + 1) 1) by (reflexivity || lia || assumption).
  cbn [mbind option_bind].
  rewrite get_loc_Ctr, Z.add_0_r by lia.
  rewrite clear_small by reflexivity. cbn [mbind option_bind].
  rewrite get_loc_Cal, Z.add_0_r by lia.
  rewrite clear_small by reflexivity. cbn [mbind option_bind].
  rewrite get_loc_Cal, Z.add_0_r by lia.
  rewrite clear_small by reflexivity. reflexivity.
Qed.

Lemma rule_main_own_node (fuel : nat) (st : Loop) (term : Z) :
  let mem := wrk st in
  let F := frontier mem in
  get_loc term 0 = host st ->
  aris mem = id_to_arity_data -> funs mem = id_to_arity_size ->
  free_stk mem 1 = [] -> free_stk mem 2 = [] ->
  0 <= tid mem -> 0 <= size mem -> F + 7 <= 2 ^ 32 ->
  host st < F ->
  exists mem',
    rule_main (5 + fuel) st term = Some (Continue, mkLoop 1 (host st) (stack st) mem')
    /\ node mem' = node (main_heap mem (host st) F)
    /\ cost mem' = add64 (cost mem) 1
    /\ size mem' = size mem + 7
    /\ free_stk mem' 1 = [host st; F; F + 1; F + 6]
    /\ free_stk mem' 2 = [F + 2; F + 4].
Proof.
  intros mem F Hnode Haris Hfuns Hfree1 Hfree2 Htid Hsize Hfit Hhost.
  assert (HF : 0 <= F) by (unfold F, frontier; change MEM_SPACE with 44739242; lia).
  assert (HFe : F = frontier mem) by reflexivity. clearbody F.
  unfold rule_main. fold mem.
  rewrite (alloc_fresh (inc_cost mem) 1 F (size mem + 1)) by fresh_side.
  cbn [mbind option_bind]. rewrite !add64_small by lia. rewrite Z.add_0_r. rewrite link_Num.
  set (m1 := write (set_size (inc_cost mem) (size mem + 1)) F (Num 0)).
  rewrite (alloc_fresh m1 1 (F + 1) (size mem + 2)) by (unfold m1; fresh_side).
  cbn [mbind option_bind]. rewrite !add64_small by lia. rewrite Z.add_0_r. rewrite link_Num.
  set (m2 := write (set_size m1 (size mem + 2)) (F + 1) (Num 1)).
  rewrite (alloc_fresh m2 2 (F + 2) (size mem + 4)) by (unfold m2, m1; fresh_side).
  cbn [mbind option_bind]. rewrite !add64_small by lia. rewrite Z.add_0_r.
  replace (F + 2 + 1) with (F + 3) by lia. rewrite !link_Ctr by lia.
  set (m3 := write (write (set_size m2 (size mem + 4)) (F + 2) (Ctr 1 31 F))
                   (F + 3) (Ctr 1 31 (F + 1))).
  rewrite (alloc_fresh m3 2 (F + 4) (size mem + 6)) by (unfold m3, m2, m1; fresh_side).
  cbn [mbind option_bind]. rewrite !add64_small by lia. rewrite Z.add_0_r.
  replace (F + 4 + 1) with (F + 5) by lia. rewrite link_Num, !link_Ctr by lia.
  set (m4 := write (write (set_size m3 (size mem + 6)) (F + 4) (Num 1048))
                   (F + 5) (Ctr 2 30 (F + 2))).
  rewrite (alloc_fresh m4 1 (F + 6) (size mem + 7)) by (unfold m4, m3, m2, m1; fresh_side).
  cbn [mbind option_bind]. rewrite !add64_small by lia. rewrite Z.add_0_r.
  rewrite !link_Cal by lia.
  set (M := write (write (set_size m4 (size mem + 7)) (F + 6) (Cal 2 29 (F + 4)))
                  (host st) (Cal 1 32 (F + 6))).
  assert (Hnm : node M = node (main_heap mem (host st) F)) by reflexivity.
  assert (HcM : cost M = add64 (cost mem) 1) by reflexivity.
  assert (HsM : size M = size mem + 7) by reflexivity.
  assert (HaM : aris M = id_to_arity_data) by exact Haris.
  assert (HuM : funs M = id_to_arity_size) by exact Hfuns.
  assert (Hf1 : free_stk M 1 = []) by exact Hfree1.
  assert (Hf2 : free_stk M 2 = []) by exact Hfree2.
  (* the words of the term just built *)
  assert (R0 : ask_lnk M (host st) = Cal 1 32 (F + 6)) by apply ask_lnk_write_eq.
  assert (R6 : ask_lnk M (F + 6) = Cal 2 29 (F + 4)).
  { unfold M. rewrite ask_lnk_write_ne by lia. apply ask_lnk_write_eq. }
  assert (Rrest : ask_lnk M (F + 4) = Num 1048 /\ ask_lnk M (F + 5) = Ctr 2 30 (F + 2)
                  /\ ask_lnk M (F + 2) = Ctr 1 31 F /\ ask_lnk M (F + 3) = Ctr 1 31 (F + 1)
                  /\ ask_lnk M F = Num 0 /\ ask_lnk M (F + 1) = Num 1).
  { unfold M, m4, m3, m2, m1.
    repeat split;
      repeat (rewrite !ask_lnk_write_ne by lia;
              change (ask_lnk (set_size ?m _) ?A) with (ask_lnk m A));
      apply ask_lnk_write_eq. }
  destruct Rrest as (R4 & R5 & R2 & R3 & RF & R1).
  clearbody M. clear m1 m2 m3 m4.
  (* the node of the call is the host: it is freed, and the term at the host collected *)
  rewrite Hnode, clear_small by reflexivity. cbn [mbind option_bind].
  fold (push_free M 1 (host st)).
  unfold ask_arg at 1. rewrite Hnode.
  change (ask_lnk (push_free M 1 (host st)) (host st)) with (ask_lnk M (host st)). rewrite R0.
  rewrite (collect_main_term fuel (push_free M 1 (host st)) F) by assumption.
  cbn [mbind option_bind]. unfold redo.
  eexists. split; [ reflexivity | ].
  split; [ exact Hnm | ]. split; [ exact HcM | ]. split; [ exact HsM | ].
  split.
  - rewrite free_stk_push_free_eq, !(free_stk_push_free_ne _ 2) by discriminate.
    rewrite !free_stk_push_free_eq, Hf1. reflexivity.
  - rewrite (free_stk_push_free_ne _ 1) by discriminate.
    rewrite !free_stk_push_free_eq, !(free_stk_push_free_ne _ 1) by discriminate.
    rewrite Hf2. reflexivity.
Qed.

Lemma alloc_reuse (mem : Worker) (sz top : Z) (below : list Z) :
  0 < sz < MAX_ARITY -> free_stk mem sz = below ++ [top] -> top <> U64_MAX ->
  fst <$> alloc mem sz = Some top.
Proof.
  intros Hsz Hfree Htop. unfold alloc.
  destruct (Z.eqb_spec sz 0); [ lia | ].
  destruct (Z.leb_spec MAX_ARITY sz); [ lia | ].
  rewrite Hfree. change (below ++ [top]) with (stk_push below top) at 1.
  rewrite stk_pop_push.
  destruct (Z.eqb_spec top U64_MAX); [ contradiction | ]. reflexivity.
Qed.

(** X25.  The generated rule of Main on a call whose node is the host word
    itself, which is the term [main] builds when the program is run
    without arguments ([Cal(0, _MAIN_, 0)] at address 0, while the arity
    table gives Main one argument).  One pass of the loop body in the
    ascent phase builds [(FFT (GenTree 1048 (Both (Leaf 0) (Leaf 1))))] in
    seven words at the frontier and leaves the call of FFT at the host;
    it then frees the node of the call, which is the host, and collects
    the argument it reads there, which is the term just built.  So the
    host and all five new nodes end on the free-lists while the host still
    refers to them: the next [alloc] of one word returns the node of the
    call of FFT and the next [alloc] of two words that of the call of
    GenTree. *)
Theorem main_rule_frees_its_result (fuel : nat) (slen : Z) (st : Loop) :
  let mem := wrk st in
  let term := ask_lnk mem (host st) in
  let F := frontier mem in
  init st <> 1 ->
  get_tag term = FUN -> get_ext term = _MAIN_ ->
  get_loc term 0 = host st ->
  aris mem = id_to_arity_data -> funs mem = id_to_arity_size ->
  free_stk mem 1 = [] -> free_stk mem 2 = [] ->
  0 <= tid mem -> 0 <= size mem -> F + 7 <= 2 ^ 32 ->
  host st < F ->
  exists st',
    reduce_body (5 + fuel) slen st = Some (Continue, st')
    /\ init st' = 1 /\ host st' = host st /\ stack st' = stack st
    /\ cost (wrk st') = add64 (cost mem) 1
    /\ ask_lnk (wrk st') (host st) = Cal 1 _FFT_ (F + 6)
    /\ ask_lnk (wrk st') (F + 6) = Cal 2 _GENTREE_ (F + 4)
    /\ ask_lnk (wrk st') (F + 4) = Num 1048
    /\ ask_lnk (wrk st') (F + 5) = Ctr 2 30 (F + 2)
    /\ ask_lnk (wrk st') (F + 2) = Ctr 1 31 F
    /\ ask_lnk (wrk st') (F + 3) = Ctr 1 31 (F + 1)
    /\ ask_lnk (wrk st') F = Num 0
    /\ ask_lnk (wrk st') (F + 1) = Num 1
    /\ free_stk (wrk st') 1 = [host st; F; F + 1; F + 6]
    /\ free_stk (wrk st') 2 = [F + 2; F + 4]
    /\ fst <$> alloc (wrk st') 1 = Some (F + 6)
    /\ fst <$> alloc (wrk st') 2 = Some (F + 4).
Proof.
  intros mem term F Hinit Htag Hext Hnode Haris Hfuns Hfree1 Hfree2 Htid Hsize Hfit Hhost.
  destruct (rule_main_own_node fuel st term Hnode Haris Hfuns Hfree1 Hfree2 Htid Hsize Hfit Hhost)
    as (mem' & Hrule & Hnm & Hcost & _ & Hf1 & Hf2).
  fold mem F in Hnm, Hcost, Hf1, Hf2.
  assert (HF : 0 <= F) by (unfold F, frontier; change MEM_SPACE with 44739242; lia).
  exists (mkLoop 1 (host st) (stack st) mem'). split.
  { rewrite reduce_body_ascent by exact Hinit. fold mem. fold term.
    unfold reduce_ascent. rewrite Htag. cbn [Z.eqb Pos.eqb FUN APP DP0 DP1 OP2 orb].
    unfold reduce_fun. rewrite Hext. cbn [Z.eqb Pos.eqb _MAIN_ _GENTREE_ _FFT_]. exact Hrule. }
  cbn [init host stack wrk].
  split; [ reflexivity | ]. split; [ reflexivity | ]. split; [ reflexivity | ].
  split; [ exact Hcost | ].
  assert (Hread : forall A, ask_lnk mem' A = ask_lnk (main_heap mem (host st) F) A)
    by (intros A; apply ask_lnk_node; exact Hnm).
  rewrite !Hread. unfold main_heap. cbn zeta.
  split; [ apply ask_lnk_write_eq | ].
  do 7 (split; [ rewrite !ask_lnk_write_ne by lia; apply ask_lnk_write_eq | ]).
  split; [ exact Hf1 | ]. split; [ exact Hf2 | ].
  split.
  - apply (alloc_reuse mem' 1 (F + 6) [host st; F; F + 1]);
      [ unfold MAX_ARITY; lia | exact Hf1 | unfold U64_MAX; lia ].
  - apply (alloc_reuse mem' 2 (F + 4) [F + 2]);
      [ unfold MAX_ARITY; lia | exact Hf2 | unfold U64_MAX; lia ].
Qed.

Lemma main_rule_frees_its_result_witness :
  exists st',
    reduce_body 5 MAX_WORKERS main_start = Some (Continue, st')
    /\ ask_lnk (wrk st') 0 = Cal 1 _FFT_ 7
    /\ ask_lnk (wrk st') 7 = Cal 2 _GENTREE_ 5
    /\ free_stk (wrk st') 1 = [0; 1; 2; 7]
    /\ free_stk (wrk st') 2 = [3; 5]
    /\ fst <$> alloc (wrk st') 2 = Some 5.
Proof.
  destruct (main_rule_frees_its_result 0 MAX_WORKERS main_start)
    as (st' & Hbody & _ & _ & _ & _ & H0 & H7 & _ & _ & _ & _ & _ & _ & Hf1 & Hf2 & _ & Ha2).
  - discriminate.
  - reflexivity.
  - reflexivity.
  - reflexivity.
  - reflexivity.
  - reflexivity.
  - reflexivity.
  - reflexivity.
  - vm_compute. discriminate.
  - vm_compute. discriminate.
  - vm_compute. discriminate.
  - reflexivity.
  - exists st'. repeat split; assumption.
Defined.

(** ** normal under a lambda *)

Lemma seen_index (host : Z) :
  0 <= host < 2 ^ 29 -> (NORMAL_SEEN_MCAP <=? Z.shiftr host 6) = false.
Proof.
  intros Hhost. apply Z.leb_gt. rewrite Z.shiftr_div_pow2 by lia.
  apply Z.div_lt_upper_bound; [ lia | ]. change (2 ^ 6 * NORMAL_SEEN_MCAP) with (2 ^ 29). lia.
Qed.

(** X26.  [normal] goes where [reduce] does not: under a lambda.  On a lambda
    at the root whose body is an operation on two numbers, [normal] with
    [slen = 1] returns the lambda, leaves the number the operation gives as
    its body and counts one rewrite; [reduce] on the same root rewrites
    nothing.  The first pass of [normal] visits the root, then the body,
    where it does the rewrite; the loop of [normal] makes one more pass,
    which changes no cost, and stops; the root and the body are the
    addresses marked as seen. *)
Theorem normal_under_lambda (fuel : nat) (mem : Worker) (root sidx : Z) :
  let term := ask_lnk mem root in
  let body := get_loc term 1 in
  let op := ask_lnk mem body in
  let a := get_num (ask_arg mem op 0) in
  let b := get_num (ask_arg mem op 1) in
  let c := op2_math (get_ext op) a b in
  0 <= root < 2 ^ 29 ->
  get_tag term = LAM ->
  get_val term + 1 < 2 ^ 29 ->
  root <> body ->
  get_tag op = OP2 ->
  get_val op + 1 < 2 ^ 31 ->
  get_ext op < 16 ->
  get_tag (ask_arg mem op 0) = NUM ->
  get_tag (ask_arg mem op 1) = NUM ->
  op2_defined (get_ext op) b ->
  reduce (5 + fuel) mem root 1 = Some (term, mem)
  /\ exists mem',
       normal (5 + fuel) mem root sidx 1
       = Some (term, (mem', set_bit (set_bit normal_init root) body))
       /\ ask_lnk mem' root = term
       /\ ask_lnk mem' body = Num c
       /\ cost mem' = add64 (cost mem) 1.
Proof.
  intros term body op a b c Hroot Htag Hval Hne Hop Hopval Hext Htag0 Htag1 Hdef.
  assert (Hhn : head_normal term) by (unfold head_normal; rewrite Htag; not_in_list).
  assert (Hbody : 0 <= body < 2 ^ 29).
  { pose proof (get_val_range term). unfold body. rewrite get_loc_small by lia. lia. }
  assert (Hreduce : forall f m, ask_lnk m root = term ->
            reduce (S f) m root 1 = Some (term, m)).
  { intros f m Hm. rewrite reduce_head_normal_root; [ rewrite Hm; reflexivity | ].
    unfold trunc32. rewrite Z.mod_small by lia. rewrite Hm. exact Hhn. }
  split; [ apply (Hreduce (4 + fuel)%nat); reflexivity | ].
  set (mem1 := op2_done mem body (get_loc op 0) c).
  set (mem2 := write mem1 body (Num c)).
  set (mem3 := write mem2 body (Num c)).
  set (seen1 := set_bit normal_init root).
  set (seen2 := set_bit seen1 body).
  assert (Hlocs : normal_rec_locs mem term 1 = Some [body]
                  /\ forall m, normal_rec_locs m (Num c) 1 = Some []).
  { split.
    - unfold normal_rec_locs. rewrite Htag. reflexivity.
    - intros m. unfold normal_rec_locs. rewrite get_tag_Num. reflexivity. }
  destruct Hlocs as [Hlam Hnum].
  assert (Hlam' : forall m, normal_rec_locs m term 1 = Some [body]).
  { intros m. unfold normal_rec_locs. rewrite Htag. reflexivity. }
  assert (Hbit : get_bit seen1 body = 0).
  { unfold seen1. rewrite get_bit_set_bit_ne by congruence. apply get_bit_normal_init. }
  (* the first pass: the body is where the rewrite is done *)
  assert (Hbody1 : forall s, normal_go (4 + fuel) body s 1 (mem, seen1)
                   = Some (Num c, (mem1, seen2))).
  { intros s. change (4 + fuel)%nat with (S (3 + fuel)). cbn [normal_go].
    rewrite seen_index by exact Hbody. rewrite Hbit. cbn [Z.eqb negb].
    change (S (3 + fuel)) with (4 + fuel)%nat.
    rewrite (reduce_op2_numbers_run fuel mem body) by (assumption || lia).
    cbn [mbind option_bind]. rewrite Hnum. reflexivity. }
  assert (Hroot1 : forall s, normal_go (5 + fuel) root s 1 (mem, normal_init)
                   = Some (term, (mem2, seen2))).
  { intros s. change (5 + fuel)%nat with (S (4 + fuel)). cbn [normal_go].
    rewrite seen_index by exact Hroot. rewrite get_bit_normal_init. cbn [Z.eqb negb].
    rewrite Hreduce by reflexivity. cbn [mbind option_bind]. fold term.
    rewrite Hlam'. cbn [mbind option_bind length Z.of_nat Z.leb Z.compare Pos.compare
                          Pos.compare_cont andb for_each].
    fold seen1. rewrite Hbody1. cbn [mbind option_bind]. rewrite link_Num. reflexivity. }
  (* the second pass finds the normal form *)
  assert (Hterm2 : ask_lnk mem2 root = term).
  { unfold mem2, mem1, op2_done. rewrite !ask_lnk_write_ne by congruence. reflexivity. }
  assert (Hnum2 : ask_lnk mem2 body = Num c) by apply ask_lnk_write_eq.
  assert (Hbody2 : forall s, normal_go (4 + fuel) body s 1 (mem2, seen1)
                   = Some (Num c, (mem2, seen2))).
  { intros s. change (4 + fuel)%nat with (S (3 + fuel)). cbn [normal_go].
    rewrite seen_index by exact Hbody. rewrite Hbit. cbn [Z.eqb negb].
    rewrite reduce_head_normal_root.
    2:{ unfold trunc32. rewrite Z.mod_small by lia. rewrite Hnum2.
        apply head_normal_NUM, get_tag_Num. }
    cbn [mbind option_bind]. rewrite Hnum2, Hnum. reflexivity. }
  assert (Hroot2 : normal_go (5 + fuel) root 0 1 (mem2, normal_init)
                   = Some (term, (mem3, seen2))).
  { change (5 + fuel)%nat with (S (4 + fuel)). cbn [normal_go].
    rewrite seen_index by exact Hroot. rewrite get_bit_normal_init. cbn [Z.eqb negb].
    rewrite Hreduce by exact Hterm2. cbn [mbind option_bind].
    rewrite Hlam'. cbn [mbind option_bind length Z.of_nat Z.leb Z.compare Pos.compare
                          Pos.compare_cont andb for_each].
    fold seen1. rewrite Hbody2. cbn [mbind option_bind]. rewrite link_Num. reflexivity. }
  exists mem3. split.
  { unfold normal. rewrite Hroot1. cbn [mbind option_bind].
    change (5 + fuel)%nat with (S (4 + fuel)) at 2. cbn [normal_loop].
    change (S (4 + fuel)) with (5 + fuel)%nat.
    rewrite Hroot2. cbn [mbind option_bind].
    change (cost mem3) with (cost mem2). rewrite Z.eqb_refl. reflexivity. }
  split; [ unfold mem3; rewrite ask_lnk_write_ne by congruence; exact Hterm2 | ].
  split; [ apply ask_lnk_write_eq | reflexivity ].
Qed.

Lemma normal_under_lambda_witness :
  reduce 5 lam_add_2_3 0 1 = Some (Lam 1, lam_add_2_3)
  /\ exists mem',
       normal 5 lam_add_2_3 0 0 1 = Some (Lam 1, (mem', set_bit (set_bit normal_init 0) 2))
       /\ ask_lnk mem' 2 = Num 5 /\ cost mem' = 1.
Proof.
  destruct (normal_under_lambda 0 lam_add_2_3 0 0) as (Hreduce & mem' & Hrun & _ & Hbody & Hcost).
  - lia.
  - reflexivity.
  - vm_compute. reflexivity.
  - discriminate.
  - reflexivity.
  - vm_compute. reflexivity.
  - vm_compute. reflexivity.
  - reflexivity.
  - reflexivity.
  - split; intros [H | H]; discriminate H.
  - split; [ exact Hreduce | ]. exists mem'. repeat split; assumption.
Defined.

(** ** reduce on the duplication of an eraser *)

Lemma subst_Era (fuel : nat) (mem : Worker) (lnk : Z) :
  subst (S fuel) mem lnk Era
  = Some (if get_tag lnk =? ERA then mem else write mem (get_loc lnk 0) Era).
Proof.
  unfold subst. destruct (get_tag lnk =? ERA); cbn [negb]; reflexivity.
Qed.

Lemma reduce_body_dup_era (fuel : nat) (slen : Z) (st : Loop) :
  let mem := wrk st in
  let term := ask_lnk mem (host st) in
  init st <> 1 ->
  get_tag term = DP0 \/ get_tag term = DP1 ->
  get_tag (ask_arg mem term 2) = ERA ->
  reduce_body (S fuel) slen st
  = Some (Continue, mkLoop 1 (host st) (stack st) (dup_era_done mem (host st) term)).
Proof.
  intros mem term Hinit Htag Hera.
  rewrite reduce_body_ascent by exact Hinit. fold mem. fold term.
  rewrite reduce_ascent_DUP by exact Htag.
  unfold reduce_dup, reduce_dup_rules. fold mem. fold term. rewrite Hera.
  cbn [Z.eqb Pos.eqb ERA NUM LAM SUP CTR].
  rewrite subst_Era. cbn [mbind option_bind].
  rewrite subst_Era. cbn [mbind option_bind].
  change (link ?m ?l Era) with (write m l Era).
  rewrite clear_small by reflexivity. reflexivity.
Qed.

(** X27.  [reduce] on a projection of the duplication of an eraser, with the
    lock of the node free at the start.  The descent takes the lock; the
    ascent applies DUP-ERA, which ends in [continue] and so does not reach
    the release of the lock at the end of the case.  [reduce] returns the
    eraser after four iterations and one rewrite, with the eraser at the
    root and at each recorded occurrence and the node on the free-list of
    size 3, and the lock it took is not released: the first word of the
    freed node is left with its lock byte set. *)
Theorem reduce_dup_era_keeps_lock (fuel : nat) (mem : Worker) (root slen : Z) :
  let term := ask_lnk mem root in
  let slot0 := ask_arg mem term 0 in
  let slot1 := ask_arg mem term 1 in
  let L0 := get_loc slot0 0 in
  let L1 := get_loc slot1 0 in
  let node0 := get_loc term 0 in
  0 <= root < 2 ^ 31 ->
  get_tag term = DP0 \/ get_tag term = DP1 ->
  get_val term + 2 < 2 ^ 32 ->
  get_tag (ask_arg mem term 2) = ERA ->
  Z.land slot0 FLAG_BYTE = 0 ->
  root <> node0 ->
  (get_tag slot0 <> ERA -> L0 <> node0 /\ L0 <> get_loc term 1) ->
  (get_tag slot1 <> ERA -> L1 <> node0) ->
  exists mem',
    reduce (4 + fuel) mem root slen = Some (Era, mem')
    /\ cost mem' = add64 (cost mem) 1
    /\ ask_lnk mem' root = Era
    /\ (get_tag slot0 <> ERA -> ask_lnk mem' L0 = Era)
    /\ (get_tag slot1 <> ERA -> ask_lnk mem' L1 = Era)
    /\ free_stk mem' 3 = stk_push (free_stk mem 3) node0
    /\ ask_lnk mem' node0 = Z.lor slot0 (2 ^ 48)
    /\ Z.land (ask_lnk mem' node0) FLAG_BYTE <> 0.
Proof.
  intros term slot0 slot1 L0 L1 node0 Hroot Htag Hval Hera Hfree Hnode Hocc0 Hocc1.
  pose proof (get_val_range term) as Hv.
  assert (Hloc : forall i, 0 <= i <= 2 -> get_loc term i = get_val term + i)
    by (intros i Hi; apply get_loc_small; lia).
  assert (Hnode0 : node0 = get_val term) by (unfold node0; rewrite Hloc by lia; lia).
  set (word := Z.lor (Z.ldiff slot0 FLAG_BYTE) (2 ^ 48)).
  set (mem1 := write mem node0 word).
  destruct (flag_fields slot0 word (or_introl eq_refl)) as [Hwtag Hwval].
  assert (Hterm1 : ask_lnk mem1 root = term)
    by (unfold mem1; apply ask_lnk_write_ne; congruence).
  assert (He1 : ask_arg mem1 term 2 = ask_arg mem term 2).
  { unfold ask_arg, mem1. apply ask_lnk_write_ne. rewrite Hloc by lia. lia. }
  assert (Hslot0 : ask_arg mem1 term 0 = word)
    by (unfold ask_arg, mem1; apply ask_lnk_write_eq).
  assert (HL0 : get_loc word 0 = L0) by (unfold L0, get_loc; rewrite Hwval; reflexivity).
  (* descent at the root: the lock is taken, the host pushed, the subject visited *)
  assert (Hstep1 : forall f, reduce_step f slen (mkLoop 1 root stk_init mem)
                   = Some (inl (mkLoop 1 (get_val term + 2) [root] mem1))).
  { intros f. unfold reduce_step. rewrite reduce_body_descent by reflexivity.
    cbn [wrk host]. fold term. unfold reduce_descent.
    replace ((get_tag term =? DP0) || (get_tag term =? DP1)) with true
      by (destruct Htag as [-> | ->]; reflexivity).
    replace (get_tag term =? APP) with false
      by (destruct Htag as [-> | ->]; reflexivity).
    unfold atomic_flag_test_and_set. cbn [wrk]. fold node0.
    change (ask_lnk mem node0) with slot0. rewrite Hfree. cbn [Z.eqb negb].
    fold word. fold mem1. cbn [host]. rewrite Hterm1, Z.eqb_refl. cbn [negb].
    cbn [mbind option_bind init stack]. rewrite Hloc by lia.
    unfold trunc32. rewrite Z.mod_small by lia. reflexivity. }
  (* descent at the subject: an eraser; the host is popped *)
  assert (Hstep2 : forall f, reduce_step f slen (mkLoop 1 (get_val term + 2) [root] mem1)
                   = Some (inl (mkLoop 0 root [] mem1))).
  { intros f. rewrite reduce_step_head_normal.
    - change [root] with ([] ++ [root]) at 1. rewrite reduce_pop_push by lia.
      rewrite Z.div_small, Z.mod_small by lia. reflexivity.
    - cbn [wrk host]. rewrite <- (Hloc 2) by lia. fold (ask_arg mem1 term 2).
      rewrite He1. unfold head_normal. rewrite Hera. not_in_list. }
  (* ascent at the root: DUP-ERA, which continues at the top of the loop *)
  set (mem' := dup_era_done mem1 root term).
  assert (Hstep3 : reduce_step (S (S fuel)) slen (mkLoop 0 root [] mem1)
                   = Some (inl (mkLoop 1 root [] mem'))).
  { unfold reduce_step.
    rewrite (reduce_body_dup_era (S fuel) slen (mkLoop 0 root [] mem1));
      cbn [init wrk host stack]; rewrite ?Hterm1, ?He1;
      [ reflexivity | discriminate | exact Htag | exact Hera ]. }
  (* the words of the result *)
  assert (Hs1a : ask_arg (inc_cost mem1) term 1 = slot1).
  { unfold ask_arg, mem1. change (ask_lnk (inc_cost ?m) ?A) with (ask_lnk m A).
    apply ask_lnk_write_ne. rewrite Hloc by lia. lia. }
  assert (Hs1b : get_tag slot0 <> ERA -> ask_arg (write (inc_cost mem1) L0 Era) term 1 = slot1).
  { intros Hb. unfold ask_arg. rewrite ask_lnk_write_ne by apply (Hocc0 Hb). exact Hs1a. }
  assert (Hask : forall A, ask_lnk mem' A
                   = if decide (root = A) then Era
                     else if negb (get_tag slot1 =? ERA) && bool_decide (L1 = A) then Era
                     else if negb (get_tag slot0 =? ERA) && bool_decide (L0 = A) then Era
                     else ask_lnk mem1 A).
  { intros A. unfold mem', dup_era_done. cbn zeta.
    change (ask_lnk (set_free ?m _) A) with (ask_lnk m A).
    rewrite Hslot0, Hwtag, HL0.
    rewrite ask_lnk_write. destruct (decide (root = A)); [ reflexivity | ].
    destruct (Z.eqb_spec (get_tag slot0) ERA) as [He0 | Hb0].
    - rewrite Hs1a. fold L1.
      destruct (get_tag slot1 =? ERA); cbn [negb andb]; [ reflexivity | ].
      rewrite ask_lnk_write. case_bool_decide; case_decide; try reflexivity; congruence.
    - rewrite Hs1b by exact Hb0. fold L1. destruct (get_tag slot1 =? ERA); cbn [negb andb].
      + rewrite ask_lnk_write. case_bool_decide; case_decide; try reflexivity; congruence.
      + rewrite !ask_lnk_write.
        repeat case_bool_decide; repeat case_decide; try reflexivity; congruence. }
  assert (Hres : ask_lnk mem' root = Era).
  { rewrite Hask. destruct (decide (root = root)); [ reflexivity | contradiction ]. }
  (* descent at the root: an eraser, and the stack is empty *)
  assert (Hstep4 : forall f, reduce_step f slen (mkLoop 1 root [] mem') = Some (inr mem')).
  { intros f. rewrite reduce_step_head_normal; [ reflexivity | ].
    cbn [wrk host]. rewrite Hres. unfold head_normal. not_in_list. }
  exists mem'. split.
  { unfold reduce, trunc32. rewrite (Z.mod_small root) by lia.
    change (4 + fuel)%nat with (S (S (S (S fuel)))).
    rewrite (reduce_loop_next _ _ _ _ (Hstep1 _)).
    rewrite (reduce_loop_next _ _ _ _ (Hstep2 _)).
    rewrite (reduce_loop_next _ _ _ _ Hstep3).
    rewrite (reduce_loop_last _ _ _ _ (Hstep4 _)).
    cbn [mbind option_bind]. rewrite Hres. reflexivity. }
  split.
  { unfold mem', dup_era_done. cbn zeta. cbn [cost set_free write set_node].
    repeat match goal with |- context [if ?c then _ else _] => destruct c end; reflexivity. }
  split; [ exact Hres | ].
  split.
  { intros Hb. rewrite Hask. destruct (Z.eqb_spec (get_tag slot0) ERA); [ contradiction | ].
    cbn [negb andb]. rewrite (bool_decide_eq_true_2 (L0 = L0)) by reflexivity.
    destruct (decide (root = L0)); [ reflexivity | ].
    destruct (negb (get_tag slot1 =? ERA) && bool_decide (L1 = L0)); reflexivity. }
  split.
  { intros Hb. rewrite Hask. destruct (Z.eqb_spec (get_tag slot1) ERA); [ contradiction | ].
    cbn [negb andb]. rewrite (bool_decide_eq_true_2 (L1 = L1)) by reflexivity.
    destruct (decide (root = L1)); reflexivity. }
  split.
  { unfold mem', dup_era_done. cbn zeta. unfold free_stk at 1. cbn [free set_free].
    rewrite lookup_insert_eq. unfold default at 1. cbn [from_option id]. fold node0. f_equal.
    unfold free_stk. cbn [free write set_node].
    repeat match goal with |- context [if ?c then _ else _] => destruct c end; reflexivity. }
  assert (Hword : ask_lnk mem' node0 = word).
  { rewrite Hask. destruct (decide (root = node0)); [ contradiction | ].
    destruct (Z.eqb_spec (get_tag slot1) ERA) as [ | Hb1 ]; cbn [negb andb];
    destruct (Z.eqb_spec (get_tag slot0) ERA) as [ | Hb0 ]; cbn [negb andb];
      repeat case_bool_decide; try (unfold mem1; apply ask_lnk_write_eq);
      try (exfalso; apply (Hocc1 Hb1); assumption);
      try (exfalso; apply (proj1 (Hocc0 Hb0)); assumption). }
  rewrite Hword. unfold word. split.
  - f_equal. apply Z.bits_inj'. intros i Hi. rewrite Z.ldiff_spec.
    apply (f_equal (fun x => Z.testbit x i)) in Hfree.
    rewrite Z.land_spec, Z.bits_0 in Hfree.
    destruct (Z.testbit slot0 i), (Z.testbit FLAG_BYTE i); try reflexivity; discriminate.
  - rewrite flag_set_bits. discriminate.
Qed.

Lemma reduce_dup_era_keeps_lock_witness :
  exists mem',
    reduce 4 dup_era 0 MAX_WORKERS = Some (Era, mem')
    /\ ask_lnk mem' 1 = Era
    /\ free_stk mem' 3 = [2]
    /\ ask_lnk mem' 2 = Z.lor (Arg 0) (2 ^ 48).
Proof.
  destruct (reduce_dup_era_keeps_lock 0 dup_era 0 MAX_WORKERS)
    as (mem' & Hrun & _ & _ & _ & H1 & Hfree & Hword & _).
  - lia.
  - left. reflexivity.
  - vm_compute. reflexivity.
  - reflexivity.
  - reflexivity.
  - discriminate.
  - intros _. split; discriminate.
  - intros _. discriminate.
  - exists mem'. split; [ exact Hrun | ].
    split; [ apply H1; vm_compute; discriminate | ]. split; [ exact Hfree | exact Hword ].
Defined.

(** ** Generated rules: AddRightLeaf and AddLeftLeaf on a leaf *)

Lemma ask_arg_node_arg (mem mem' : Worker) (x x' i : Z) :
  node mem = node mem' -> x = x' -> ask_arg mem x i = ask_arg mem' x' i.
Proof. intros H ->. apply ask_arg_node. exact H. Qed.

Lemma rule_add_leaf (fuel : nat) (st : Loop) (term : Z) (left : bool) :
  let mem := wrk st in
  let leaf := ask_arg mem term 1 in
  let F := frontier mem in
  let mem' := add_leaf_heap left mem (host st) term F in
  get_ext term = add_leaf_id left ->
  get_tag leaf = CTR -> get_ext leaf = 31 ->
  free_stk mem 1 = [] -> free_stk mem 2 = [] ->
  0 <= tid mem -> 0 <= size mem -> F + 4 <= 2 ^ 32 ->
  exists mem'',
    reduce_fun fuel st term = Some (Continue, mkLoop 1 (host st) (stack st) mem'')
    /\ node mem'' = node mem'
    /\ cost mem'' = add64 (cost mem) 1
    /\ size mem'' = size mem + 4
    /\ free_stk mem'' 2 = [get_loc term 0]
    /\ free_stk mem'' 1 = [get_loc (ask_arg mem' term 1) 0].
Proof.
  intros mem leaf F mem' Hext Hctr Hleaf Hfree1 Hfree2 Htid Hsize Hfit. unfold mem'.
  assert (HF : 0 <= F) by (unfold F, frontier; change MEM_SPACE with 44739242; lia).
  assert (HFe : F = frontier mem) by reflexivity. clearbody F. clear mem'.
  unfold reduce_fun. rewrite Hext.
  destruct left; cbn [add_leaf_id Z.eqb Pos.eqb _GENTREE_ _FFT_ _MAIN_ _ADDRIGHTLEAF_ _ADDLEFTLEAF_];
    [ unfold rule_addleftleaf | unfold rule_addrightleaf ];
    fold mem; fold leaf; rewrite Hctr, Hleaf; cbn [Z.eqb Pos.eqb CTR SUP andb];
    rewrite (alloc_fresh (inc_cost mem) 1 F (size mem + 1)) by fresh_side;
    cbn [mbind option_bind]; rewrite !add64_small by lia; rewrite Z.add_0_r;
    match goal with |- context [alloc (link ?m F ?x) 1] =>
      rewrite (alloc_fresh (link m F x) 1 (F + 1) (size mem + 2)) by fresh_side
    end;
    cbn [mbind option_bind]; rewrite !add64_small by lia; rewrite Z.add_0_r;
    match goal with |- context [alloc (link ?m (F + 1) ?x) 2] =>
      rewrite (alloc_fresh (link m (F + 1) x) 2 (F + 2) (size mem + 4)) by fresh_side
    end;
    cbn [mbind option_bind]; rewrite !add64_small by lia; rewrite Z.add_0_r;
    replace (F + 2 + 1) with (F + 3) by lia; rewrite !link_Ctr by lia;
    rewrite clear_small by reflexivity; cbn [mbind option_bind];
    rewrite clear_small by reflexivity; cbn [mbind option_bind]; unfold redo;
    repeat change (set_free ?m (<[?sz := stk_push (free_stk ?m ?sz) ?l]> (free ?m)))
      with (push_free m sz l);
    (eexists; split; [ reflexivity | ]);
    (split; [ unfold add_leaf_heap, push_free; cbn zeta;
              repeat first [ progress node_eq | apply ask_arg_node_arg ] | ]);
    (split; [ unfold push_free;
              repeat (cbn [cost set_free write set_node set_size inc_cost set_cost];
                      rewrite ?cost_link); reflexivity | ]);
    (split; [ unfold push_free;
              repeat (cbn [size set_free write set_node set_size]; rewrite ?size_link);
              reflexivity | ]);
    rewrite free_stk_push_free_ne, !free_stk_push_free_eq, free_stk_push_free_ne by lia;
    unfold free_stk;
    repeat (cbn [free set_free write set_node set_size inc_cost set_cost]; rewrite ?free_link);
    fold (free_stk mem 1); fold (free_stk mem 2); rewrite Hfree1, Hfree2; cbn [app];
    (split; [ reflexivity | ]);
    do 2 f_equal; apply ask_arg_node_arg; try reflexivity;
    unfold add_leaf_heap, push_free; cbn zeta;
    repeat first [ progress node_eq | apply ask_arg_node_arg ].
Qed.

(** X28.  The rules of AddLeftLeaf and AddRightLeaf on a leaf: one pass of the
    loop body in the ascent phase rewrites [(AddLeftLeaf n (Leaf a))] at the
    host to [(Both (Leaf n) (Leaf a))], and [(AddRightLeaf n (Leaf a))] to
    [(Both (Leaf a) (Leaf n))].  It counts one rewrite and takes four words
    at the frontier of the worker: a 1-word node for each of the new leaves
    and the 2-word node of [Both]; a variable among [n] and [a] has its
    back-pointer redirected to the leaf that holds it (the second leaf, if
    both are the same variable).  The node of the call
    goes on the free-list of size 2 and the node of the old leaf on that of
    size 1.  This for a worker whose free-lists of sizes 1 and 2 are empty,
    a host that is not the second word of the call, and variables among [n]
    and [a] bound at other words below the frontier; every other such word
    is left as it was. *)
Theorem add_leaf_on_leaf (fuel : nat) (slen : Z) (st : Loop) (left : bool) :
  let mem := wrk st in
  let term := ask_lnk mem (host st) in
  let n := ask_arg mem term 0 in
  let leaf := ask_arg mem term 1 in
  let a := ask_arg mem leaf 0 in
  let F := frontier mem in
  let x := if left then n else a in
  let y := if left then a else n in
  let cells := [host st; get_loc term 0; get_loc term 0 + 1; get_loc leaf 0] in
  init st <> 1 ->
  get_tag term = FUN -> get_ext term = add_leaf_id left ->
  get_tag leaf = CTR -> get_ext leaf = 31 ->
  free_stk mem 1 = [] -> free_stk mem 2 = [] ->
  0 <= tid mem -> 0 <= size mem -> F + 4 <= 2 ^ 32 ->
  host st <> get_loc term 0 + 1 ->
  Forall (fun A => A < F) cells ->
  (forall x, x ∈ [n; a] -> is_var x = true -> binder_slot x < F /\ binder_slot x ∉ cells) ->
  exists st',
    reduce_body fuel slen st = Some (Continue, st')
    /\ init st' = 1 /\ host st' = host st /\ stack st' = stack st
    /\ cost (wrk st') = add64 (cost mem) 1
    /\ size (wrk st') = size mem + 4
    /\ free_stk (wrk st') 2 = [get_loc term 0]
    /\ free_stk (wrk st') 1 = [get_loc leaf 0]
    /\ ask_lnk (wrk st') (host st) = Ctr 2 30 (F + 2)
    /\ ask_lnk (wrk st') (F + 2) = Ctr 1 31 F
    /\ ask_lnk (wrk st') (F + 3) = Ctr 1 31 (F + 1)
    /\ ask_lnk (wrk st') F = x
    /\ ask_lnk (wrk st') (F + 1) = y
    /\ (is_var x = true -> (is_var y = true -> binder_slot y <> binder_slot x) ->
        ask_lnk (wrk st') (binder_slot x) = Arg F)
    /\ (is_var y = true -> ask_lnk (wrk st') (binder_slot y) = Arg (F + 1))
    /\ (forall A, A < F -> A <> host st ->
                  (forall x, x ∈ [n; a] -> is_var x = true -> A <> binder_slot x) ->
                  ask_lnk (wrk st') A = ask_lnk mem A).
Proof.
  intros mem term n leaf a F x y cells Hinit Htag Hext Hctr Hleaf Hfree1 Hfree2 Htid Hsize Hfit
    Hhost Hbelow Hvars.
  assert (HF : 0 <= F) by (unfold F, frontier; change MEM_SPACE with 44739242; lia).
  pose proof (get_val_range term) as Hvt.
  assert (Hloc1 : get_loc term 1 = get_loc term 0 + 1) by (rewrite !get_loc_small by lia; lia).
  unfold cells in Hbelow.
  repeat match goal with
         | H : Forall _ (_ :: _) |- _ => apply Forall_cons in H as [? H]
         end.
  assert (Hslots : forall x, x ∈ [n; a] -> is_var x = true ->
            binder_slot x < F /\ binder_slot x <> host st /\ binder_slot x <> get_loc term 0
            /\ binder_slot x <> get_loc term 0 + 1 /\ binder_slot x <> get_loc leaf 0).
  { intros z Hz Hv. destruct (Hvars z Hz Hv) as [Hlt Hnin]. unfold cells in Hnin.
    rewrite !not_elem_of_cons in Hnin. tauto. }
  assert (Hn : is_var n = true -> _) by (apply (Hslots n); left).
  assert (Ha : is_var a = true -> _) by (apply (Hslots a); right; left).
  clear Hslots Hvars.
  assert (Hx : is_var x = true ->
            binder_slot x < F /\ binder_slot x <> host st /\ binder_slot x <> get_loc term 0
            /\ binder_slot x <> get_loc term 0 + 1 /\ binder_slot x <> get_loc leaf 0)
    by (unfold x; destruct left; assumption).
  assert (Hy : is_var y = true ->
            binder_slot y < F /\ binder_slot y <> host st /\ binder_slot y <> get_loc term 0
            /\ binder_slot y <> get_loc term 0 + 1 /\ binder_slot y <> get_loc leaf 0)
    by (unfold y; destruct left; assumption).
  (* a word that the first link leaves alone *)
  assert (Hkeep : forall A, A < F -> (is_var x = true -> A <> binder_slot x) ->
            ask_lnk (link mem F x) A = ask_lnk mem A).
  { intros A HA Hs. apply link_frame. apply not_in_link_writes; [ lia | exact Hs ]. }
  assert (Hheap : add_leaf_heap left mem (host st) term F
                  = write (write (write (link (link mem F x) (F + 1) y)
                                    (F + 2) (Ctr 1 31 F)) (F + 3) (Ctr 1 31 (F + 1)))
                      (host st) (Ctr 2 30 (F + 2))).
  { unfold add_leaf_heap, x, y. destruct left; cbn zeta; do 4 f_equal.
    - fold n.
      assert (E1 : ask_arg (link mem F n) term 1 = leaf).
      { unfold leaf, ask_arg. rewrite Hloc1. apply link_frame.
        apply not_in_link_writes; [ lia | ].
        intros Hv. destruct (Hn Hv) as (? & ? & ? & ? & ?). congruence. }
      rewrite E1. unfold a, ask_arg. apply link_frame.
      apply not_in_link_writes; [ lia | ].
      intros Hv. destruct (Hn Hv) as (? & ? & ? & ? & ?). congruence.
    - fold leaf. fold a. unfold n, ask_arg. apply link_frame.
      apply not_in_link_writes; [ lia | ].
      intros Hv. destruct (Ha Hv) as (? & ? & ? & ? & ?). congruence. }
  assert (Hleaf' : ask_arg (add_leaf_heap left mem (host st) term F) term 1 = leaf).
  { rewrite Hheap. unfold leaf, ask_arg. rewrite Hloc1.
    rewrite !ask_lnk_write_ne by lia.
    rewrite link_frame
      by (apply not_in_link_writes; [ lia | intros Hv; destruct (Hy Hv) as (? & ? & ? & ? & ?); congruence ]).
    apply Hkeep; [ lia | intros Hv; destruct (Hx Hv) as (? & ? & ? & ? & ?); congruence ]. }
  destruct (rule_add_leaf fuel st term left Hext Hctr Hleaf Hfree1 Hfree2 Htid Hsize Hfit)
    as (mem' & Hrule & Hnode & Hcost & Hsz & Hfr2 & Hfr1).
  fold mem F in Hnode, Hfr1. rewrite Hleaf' in Hfr1. rewrite Hheap in Hnode.
  exists (mkLoop 1 (host st) (stack st) mem'). split.
  { rewrite reduce_body_ascent by exact Hinit. fold mem. fold term.
    unfold reduce_ascent. rewrite Htag. cbn [Z.eqb Pos.eqb FUN APP DP0 DP1 OP2 orb].
    exact Hrule. }
  cbn [init host stack wrk].
  split; [ reflexivity | ]. split; [ reflexivity | ]. split; [ reflexivity | ].
  split; [ exact Hcost | ]. split; [ exact Hsz | ].
  split; [ exact Hfr2 | ]. split; [ exact Hfr1 | ].
  assert (Hread : forall A, ask_lnk mem' A
                  = ask_lnk (write (write (write (link (link mem F x) (F + 1) y)
                                    (F + 2) (Ctr 1 31 F)) (F + 3) (Ctr 1 31 (F + 1)))
                      (host st) (Ctr 2 30 (F + 2))) A)
    by (intros A; apply ask_lnk_node; exact Hnode).
  rewrite !Hread.
  split; [ apply ask_lnk_write_eq | ].
  split; [ rewrite !ask_lnk_write_ne by lia; apply ask_lnk_write_eq | ].
  split; [ rewrite !ask_lnk_write_ne by lia; apply ask_lnk_write_eq | ].
  split.
  { rewrite !ask_lnk_write_ne by lia.
    rewrite link_frame
      by (apply not_in_link_writes; [ lia | intros Hv; destruct (Hy Hv) as (? & ?); lia ]).
    apply link_loc. intros Hv. destruct (Hx Hv) as (? & ?). lia. }
  split.
  { rewrite !ask_lnk_write_ne by lia.
    apply link_loc. intros Hv. destruct (Hy Hv) as (? & ?). lia. }
  split.
  { intros Hv Hxy. destruct (Hx Hv) as (? & ? & ?).
    rewrite !ask_lnk_write_ne by lia.
    rewrite link_frame by (apply not_in_link_writes; [ lia | intros Hvy; apply not_eq_sym, Hxy, Hvy ]).
    apply link_slot. exact Hv. }
  split.
  { intros Hv. destruct (Hy Hv) as (? & ? & ?).
    rewrite !ask_lnk_write_ne by lia. apply link_slot. exact Hv. }
  intros A HA HAhost HAslots.
  assert (HAx : is_var x = true -> A <> binder_slot x)
    by (unfold x; destruct left; apply HAslots; [ left | right; left ]).
  assert (HAy : is_var y = true -> A <> binder_slot y)
    by (unfold y; destruct left; apply HAslots; [ right; left | left ]).
  rewrite Hread. rewrite !ask_lnk_write_ne by lia.
  rewrite link_frame by (apply not_in_link_writes; [ lia | exact HAy ]).
  apply Hkeep; assumption.
Qed.

Lemma add_leaf_on_leaf_witness :
  exists st',
    reduce_body 0 1 add_right_leaf_5 = Some (Continue, st')
    /\ cost (wrk st') = 1
    /\ free_stk (wrk st') 2 = [1]
    /\ free_stk (wrk st') 1 = [3]
    /\ ask_lnk (wrk st') 0 = Ctr 2 30 6
    /\ ask_lnk (wrk st') 6 = Ctr 1 31 4
    /\ ask_lnk (wrk st') 7 = Ctr 1 31 5
    /\ ask_lnk (wrk st') 4 = Num 0
    /\ ask_lnk (wrk st') 5 = Num 5.
Proof.
  destruct (add_leaf_on_leaf 0 1 add_right_leaf_5 false)
    as (st' & Hbody & _ & _ & _ & Hcost & _ & Hf2 & Hf1 & H0 & H6 & H7 & H4 & H5 & _).
  - discriminate.
  - reflexivity.
  - reflexivity.
  - reflexivity.
  - reflexivity.
  - reflexivity.
  - reflexivity.
  - vm_compute. discriminate.
  - vm_compute. discriminate.
  - vm_compute. discriminate.
  - vm_compute. discriminate.
  - repeat (constructor; [ vm_compute; reflexivity | ]). constructor.
  - intros z Hz Hv. exfalso. revert Hv.
    rewrite !elem_of_cons in Hz. destruct Hz as [-> | [-> | Hz]];
      [ discriminate | discriminate | inversion Hz ].
  - exists st'. repeat split; assumption.
Defined.

(** ** Generated rules: AddRightLeaf and AddLeftLeaf on a pair *)

Lemma rule_add_both (fuel : nat) (st : Loop) (term : Z) (left : bool) :
  let mem := wrk st in
  let both := ask_arg mem term 1 in
  let F := frontier mem in
  let mem' := add_both_heap left mem (host st) term F in
  get_ext term = add_leaf_id left ->
  get_tag both = CTR -> get_ext both = 30 ->
  free_stk mem 2 = [] ->
  0 <= tid mem -> 0 <= size mem -> F + 4 <= 2 ^ 32 ->
  exists mem'',
    reduce_fun fuel st term = Some (Continue, mkLoop 1 (host st) (stack st) mem'')
    /\ node mem'' = node mem'
    /\ cost mem'' = add64 (cost mem) 1
    /\ size mem'' = size mem + 4
    /\ free_stk mem'' 2 = [get_loc term 0; get_loc (ask_arg mem' term 1) 0].
Proof.
  intros mem both F mem' Hext Hctr Hboth Hfree2 Htid Hsize Hfit. unfold mem'.
  assert (HF : 0 <= F) by (unfold F, frontier; change MEM_SPACE with 44739242; lia).
  assert (HFe : F = frontier mem) by reflexivity. clearbody F. clear mem'.
  unfold reduce_fun. rewrite Hext.
  destruct left; cbn [add_leaf_id Z.eqb Pos.eqb _GENTREE_ _FFT_ _MAIN_ _ADDRIGHTLEAF_ _ADDLEFTLEAF_];
    [ unfold rule_addleftleaf | unfold rule_addrightleaf ];
    fold mem; fold both; rewrite Hctr, Hboth; cbn [Z.eqb Pos.eqb CTR SUP andb];
    rewrite (alloc_fresh (inc_cost mem) 2 F (size mem + 2)) by fresh_side;
    cbn [mbind option_bind]; rewrite !add64_small by lia; rewrite Z.add_0_r;
    match goal with |- context [alloc ?m 2] =>
      rewrite (alloc_fresh m 2 (F + 2) (size mem + 4)) by fresh_side
    end;
    cbn [mbind option_bind]; rewrite !add64_small by lia; rewrite Z.add_0_r;
    replace (F + 2 + 1) with (F + 3) by lia;
    rewrite !link_Ctr by lia; rewrite !link_Cal by lia;
    rewrite clear_small by reflexivity; cbn [mbind option_bind];
    rewrite clear_small by reflexivity; cbn [mbind option_bind]; unfold redo;
    repeat change (set_free ?m (<[?sz := stk_push (free_stk ?m ?sz) ?l]> (free ?m)))
      with (push_free m sz l);
    (eexists; split; [ reflexivity | ]);
    (split; [ unfold add_both_heap, push_free; cbn zeta;
              repeat first [ progress node_eq | apply ask_arg_node_arg ] | ]);
    (split; [ unfold push_free;
              repeat (cbn [cost set_free write set_node set_size inc_cost set_cost];
                      rewrite ?cost_link); reflexivity | ]);
    (split; [ unfold push_free;
              repeat (cbn [size set_free write set_node set_size]; rewrite ?size_link);
              reflexivity | ]);
    rewrite !free_stk_push_free_eq;
    unfold free_stk at 1;
    repeat (cbn [free set_free write set_node set_size inc_cost set_cost]; rewrite ?free_link);
    fold (free_stk mem 2); rewrite Hfree2; cbn [app];
    do 3 f_equal; apply ask_arg_node_arg; try reflexivity;
    unfold add_both_heap, push_free; cbn zeta;
    repeat first [ progress node_eq | apply ask_arg_node_arg ].
Qed.

Ltac above_frontier :=
  apply not_in_link_writes;
  [ lia
  | let Hv := fresh "Hv" in
    intros Hv;
    match goal with
    | H : is_var ?x = true -> binder_slot ?x < _ /\ _ |- _ <> binder_slot ?x =>
        destruct (H Hv) as (? & _); lia
    end ].

(** X29.  The rules of AddLeftLeaf and AddRightLeaf on a pair: one pass of the
    loop body in the ascent phase rewrites [(AddLeftLeaf n (Both l r))] at
    the host to [(Both (AddLeftLeaf n l) r)], and
    [(AddRightLeaf n (Both l r))] to [(Both l (AddRightLeaf n r))].  It
    counts one rewrite and takes four words at the frontier of the worker:
    the node of the new call, holding [n] and the side [u] the call goes
    down, and the node of the new pair, holding the call and the other side
    [v], in the order of the old pair.  A variable among [n], [l] and [r]
    has its back-pointer redirected to its new place (the last one written,
    if two of them are the same variable).  The nodes of the old call and
    of the old pair go on the free-list of size 2, in this order.  This for
    a worker whose free-list of size 2 is empty, a host that is not the
    second word of the call, and variables among [n], [l] and [r] bound at
    other words below the frontier; every other such word is left as it
    was. *)
Theorem add_leaf_on_both (fuel : nat) (slen : Z) (st : Loop) (left : bool) :
  let mem := wrk st in
  let term := ask_lnk mem (host st) in
  let n := ask_arg mem term 0 in
  let both := ask_arg mem term 1 in
  let l := ask_arg mem both 0 in
  let r := ask_arg mem both 1 in
  let F := frontier mem in
  let u := if left then l else r in
  let v := if left then r else l in
  let pc := if left then F + 2 else F + 3 in
  let pv := if left then F + 3 else F + 2 in
  let cells := [host st; get_loc term 0; get_loc term 0 + 1; get_loc both 0; get_loc both 0 + 1] in
  init st <> 1 ->
  get_tag term = FUN -> get_ext term = add_leaf_id left ->
  get_tag both = CTR -> get_ext both = 30 ->
  free_stk mem 2 = [] ->
  0 <= tid mem -> 0 <= size mem -> F + 4 <= 2 ^ 32 ->
  host st <> get_loc term 0 + 1 ->
  Forall (fun A => A < F) cells ->
  (forall x, x ∈ [n; l; r] -> is_var x = true -> binder_slot x < F /\ binder_slot x ∉ cells) ->
  exists st',
    reduce_body fuel slen st = Some (Continue, st')
    /\ init st' = 1 /\ host st' = host st /\ stack st' = stack st
    /\ cost (wrk st') = add64 (cost mem) 1
    /\ size (wrk st') = size mem + 4
    /\ free_stk (wrk st') 2 = [get_loc term 0; get_loc both 0]
    /\ ask_lnk (wrk st') (host st) = Ctr 2 30 (F + 2)
    /\ ask_lnk (wrk st') pc = Cal 2 (add_leaf_id left) F
    /\ ask_lnk (wrk st') F = n
    /\ ask_lnk (wrk st') (F + 1) = u
    /\ ask_lnk (wrk st') pv = v
    /\ (is_var n = true ->
        (is_var l = true -> binder_slot l <> binder_slot n) ->
        (is_var r = true -> binder_slot r <> binder_slot n) ->
        ask_lnk (wrk st') (binder_slot n) = Arg F)
    /\ (is_var u = true -> (is_var v = true -> binder_slot v <> binder_slot u) ->
        ask_lnk (wrk st') (binder_slot u) = Arg (F + 1))
    /\ (is_var v = true -> ask_lnk (wrk st') (binder_slot v) = Arg pv)
    /\ (forall A, A < F -> A <> host st ->
                  (forall x, x ∈ [n; l; r] -> is_var x = true -> A <> binder_slot x) ->
                  ask_lnk (wrk st') A = ask_lnk mem A).
Proof.
  intros mem term n both l r F u v pc pv cells Hinit Htag Hext Hctr Hboth Hfree2 Htid Hsize Hfit
    Hhost Hbelow Hvars.
  assert (HF : 0 <= F) by (unfold F, frontier; change MEM_SPACE with 44739242; lia).
  pose proof (get_val_range term) as Hvt. pose proof (get_val_range both) as Hvb.
  assert (Hloc1 : get_loc term 1 = get_loc term 0 + 1) by (rewrite !get_loc_small by lia; lia).
  assert (Hlocb : get_loc both 1 = get_loc both 0 + 1) by (rewrite !get_loc_small by lia; lia).
  unfold cells in Hbelow.
  repeat match goal with
         | H : Forall _ (_ :: _) |- _ => apply Forall_cons in H as [? H]
         end.
  assert (Hslots : forall x, x ∈ [n; l; r] -> is_var x = true ->
            binder_slot x < F /\ binder_slot x <> host st /\ binder_slot x <> get_loc term 0
            /\ binder_slot x <> get_loc term 0 + 1 /\ binder_slot x <> get_loc both 0
            /\ binder_slot x <> get_loc both 0 + 1).
  { intros z Hz Hv. destruct (Hvars z Hz Hv) as [Hlt Hnin]. unfold cells in Hnin.
    rewrite !not_elem_of_cons in Hnin. tauto. }
  assert (Hn : is_var n = true -> _) by (apply (Hslots n); left).
  assert (Hl : is_var l = true -> _) by (apply (Hslots l); right; left).
  assert (Hr : is_var r = true -> _) by (apply (Hslots r); right; right; left).
  clear Hslots Hvars.
  (* the words the rule reads, and the stores that keep them *)
  set (good := fun A => A < F /\ (is_var n = true -> A <> binder_slot n)
                        /\ (is_var l = true -> A <> binder_slot l)
                        /\ (is_var r = true -> A <> binder_slot r)).
  set (keeps := fun m => forall B, good B -> ask_lnk m B = ask_lnk mem B).
  assert (G1 : good (get_loc term 1)).
  { rewrite Hloc1. unfold good. repeat split; try lia; intros Hv;
      [ destruct (Hn Hv) as (? & ? & ? & ? & ?)
      | destruct (Hl Hv) as (? & ? & ? & ? & ?)
      | destruct (Hr Hv) as (? & ? & ? & ? & ?) ]; congruence. }
  assert (G2 : good (get_loc both 0)).
  { unfold good. repeat split; try lia; intros Hv;
      [ destruct (Hn Hv) as (? & ? & ? & ? & ? & ?)
      | destruct (Hl Hv) as (? & ? & ? & ? & ? & ?)
      | destruct (Hr Hv) as (? & ? & ? & ? & ? & ?) ]; congruence. }
  assert (G3 : good (get_loc both 1)).
  { rewrite Hlocb. unfold good. repeat split; try lia; intros Hv;
      [ destruct (Hn Hv) as (? & ? & ? & ? & ? & ?)
      | destruct (Hl Hv) as (? & ? & ? & ? & ? & ?)
      | destruct (Hr Hv) as (? & ? & ? & ? & ? & ?) ]; congruence. }
  assert (Hreads : forall m, keeps m ->
            ask_arg m term 1 = both /\ ask_arg m both 0 = l /\ ask_arg m both 1 = r).
  { intros m Hm. unfold both at 2, l, r, ask_arg. repeat split; apply Hm; assumption. }
  assert (K0 : keeps mem) by (intros B _; reflexivity).
  assert (Klink : forall m loc x, keeps m -> F <= loc -> x = n \/ x = l \/ x = r ->
            keeps (link m loc x)).
  { intros m loc x Hm Hloc Hx B HB. rewrite link_frame; [ apply Hm; exact HB | ].
    destruct HB as (HB & HBn & HBl & HBr).
    apply not_in_link_writes; [ lia | ]. destruct Hx as [-> | [-> | ->]]; assumption. }
  assert (Kwrite : forall m loc val, keeps m -> F <= loc -> keeps (write m loc val)).
  { intros m loc val Hm Hloc B HB. rewrite ask_lnk_write_ne; [ apply Hm; exact HB | ].
    destruct HB as (HB & _). lia. }
  destruct (rule_add_both fuel st term left Hext Hctr Hboth Hfree2 Htid Hsize Hfit)
    as (mem' & Hrule & Hnode & Hcost & Hsz & Hfr2).
  fold mem F in Hnode, Hfr2.
  exists (mkLoop 1 (host st) (stack st) mem'). split.
  { rewrite reduce_body_ascent by exact Hinit. fold mem. fold term.
    unfold reduce_ascent. rewrite Htag. cbn [Z.eqb Pos.eqb FUN APP DP0 DP1 OP2 orb].
    exact Hrule. }
  cbn [init host stack wrk].
  split; [ reflexivity | ]. split; [ reflexivity | ]. split; [ reflexivity | ].
  split; [ exact Hcost | ]. split; [ exact Hsz | ].
  clear Hrule Hcost Hsz Hext.
  assert (K1 : keeps (link mem F n)) by (apply Klink; [ exact K0 | lia | left; reflexivity ]).
  destruct (Hreads _ K1) as (E1 & E1l & E1r).
  unfold add_both_heap in Hnode, Hfr2. cbn zeta in Hnode, Hfr2. fold n in Hnode, Hfr2.
  subst u v pc pv. destruct left; cbn [add_leaf_id _ADDLEFTLEAF_ _ADDRIGHTLEAF_].
  - rewrite E1, E1l in Hnode, Hfr2.
    assert (K3 : keeps (write (link (link mem F n) (F + 1) l) (F + 2) (Cal 2 34 F))).
    { apply Kwrite; [ | lia ]. apply Klink; [ exact K1 | lia | right; left; reflexivity ]. }
    destruct (Hreads _ K3) as (E3 & _ & E3r). rewrite E3, E3r in Hnode, Hfr2.
    assert (K4 : keeps (link (write (link (link mem F n) (F + 1) l) (F + 2) (Cal 2 34 F))
                          (F + 3) r))
      by (apply Klink; [ exact K3 | lia | right; right; reflexivity ]).
    assert (Hb' : ask_arg (write (link (write (link (link mem F n) (F + 1) l) (F + 2)
                                          (Cal 2 34 F)) (F + 3) r)
                             (host st) (Ctr 2 30 (F + 2))) term 1 = both).
    { unfold ask_arg. rewrite ask_lnk_write_ne by (rewrite Hloc1; congruence).
      exact (proj1 (Hreads _ K4)). }
    rewrite Hb' in Hfr2. split; [ exact Hfr2 | ].
    assert (Hread : forall A, ask_lnk mem' A = ask_lnk _ A)
      by (intros A; apply ask_lnk_node; exact Hnode).
    rewrite !Hread.
    split; [ apply ask_lnk_write_eq | ].
    split.
    { rewrite ask_lnk_write_ne by lia. rewrite link_frame by above_frontier.
      apply ask_lnk_write_eq. }
    split.
    { rewrite ask_lnk_write_ne by lia. rewrite link_frame by above_frontier.
      rewrite ask_lnk_write_ne by lia. rewrite link_frame by above_frontier.
      apply link_loc. intros Hv. destruct (Hn Hv) as (? & _). lia. }
    split.
    { rewrite ask_lnk_write_ne by lia. rewrite link_frame by above_frontier.
      rewrite ask_lnk_write_ne by lia.
      apply link_loc. intros Hv. destruct (Hl Hv) as (? & _). lia. }
    split.
    { rewrite ask_lnk_write_ne by lia.
      apply link_loc. intros Hv. destruct (Hr Hv) as (? & _). lia. }
    split.
    { intros Hv Hln Hrn. destruct (Hn Hv) as (? & ? & _).
      rewrite ask_lnk_write_ne by lia.
      rewrite link_frame
        by (apply not_in_link_writes; [ lia | intros Hv'; apply not_eq_sym, Hrn, Hv' ]).
      rewrite ask_lnk_write_ne by lia.
      rewrite link_frame
        by (apply not_in_link_writes; [ lia | intros Hv'; apply not_eq_sym, Hln, Hv' ]).
      apply link_slot. exact Hv. }
    split.
    { intros Hv Hrl. destruct (Hl Hv) as (? & ? & _).
      rewrite ask_lnk_write_ne by lia.
      rewrite link_frame
        by (apply not_in_link_writes; [ lia | intros Hv'; apply not_eq_sym, Hrl, Hv' ]).
      rewrite ask_lnk_write_ne by lia.
      apply link_slot. exact Hv. }
    split.
    { intros Hv. destruct (Hr Hv) as (? & ? & _).
      rewrite ask_lnk_write_ne by lia. apply link_slot. exact Hv. }
    intros A HA HAhost HAslots.
    assert (HgA : good A).
    { unfold good. repeat split; [ lia | apply HAslots; left | apply HAslots; right; left
                                 | apply HAslots; right; right; left ]. }
    rewrite Hread, ask_lnk_write_ne by congruence. apply K4. exact HgA.
  - rewrite E1, E1r in Hnode, Hfr2.
    assert (K2 : keeps (link (link mem F n) (F + 1) r))
      by (apply Klink; [ exact K1 | lia | right; right; reflexivity ]).
    destruct (Hreads _ K2) as (E2 & E2l & _). rewrite E2, E2l in Hnode, Hfr2.
    assert (K4 : keeps (write (link (link (link mem F n) (F + 1) r) (F + 2) l)
                          (F + 3) (Cal 2 33 F))).
    { apply Kwrite; [ | lia ]. apply Klink; [ exact K2 | lia | right; left; reflexivity ]. }
    assert (Hb' : ask_arg (write (write (link (link (link mem F n) (F + 1) r) (F + 2) l)
                                    (F + 3) (Cal 2 33 F))
                             (host st) (Ctr 2 30 (F + 2))) term 1 = both).
    { unfold ask_arg. rewrite ask_lnk_write_ne by (rewrite Hloc1; congruence).
      exact (proj1 (Hreads _ K4)). }
    rewrite Hb' in Hfr2. split; [ exact Hfr2 | ].
    assert (Hread : forall A, ask_lnk mem' A = ask_lnk _ A)
      by (intros A; apply ask_lnk_node; exact Hnode).
    rewrite !Hread.
    split; [ apply ask_lnk_write_eq | ].
    split; [ rewrite ask_lnk_write_ne by lia; apply ask_lnk_write_eq | ].
    split.
    { rewrite !ask_lnk_write_ne by lia. rewrite !link_frame by above_frontier.
      apply link_loc. intros Hv. destruct (Hn Hv) as (? & _). lia. }
    split.
    { rewrite !ask_lnk_write_ne by lia. rewrite link_frame by above_frontier.
      apply link_loc. intros Hv. destruct (Hr Hv) as (? & _). lia. }
    split.
    { rewrite !ask_lnk_write_ne by lia.
      apply link_loc. intros Hv. destruct (Hl Hv) as (? & _). lia. }
    split.
    { intros Hv Hln Hrn. destruct (Hn Hv) as (? & ? & _).
      rewrite !ask_lnk_write_ne by lia.
      rewrite link_frame
        by (apply not_in_link_writes; [ lia | intros Hv'; apply not_eq_sym, Hln, Hv' ]).
      rewrite link_frame
        by (apply not_in_link_writes; [ lia | intros Hv'; apply not_eq_sym, Hrn, Hv' ]).
      apply link_slot. exact Hv. }
    split.
    { intros Hv Hlr. destruct (Hr Hv) as (? & ? & _).
      rewrite !ask_lnk_write_ne by lia.
      rewrite link_frame
        by (apply not_in_link_writes; [ lia | intros Hv'; apply not_eq_sym, Hlr, Hv' ]).
      apply link_slot. exact Hv. }
    split.
    { intros Hv. destruct (Hl Hv) as (? & ? & _).
      rewrite !ask_lnk_write_ne by lia. apply link_slot. exact Hv. }
    intros A HA HAhost HAslots.
    assert (HgA : good A).
    { unfold good. repeat split; [ lia | apply HAslots; left | apply HAslots; right; left
                                 | apply HAslots; right; right; left ]. }
    rewrite Hread, ask_lnk_write_ne by congruence. apply K4. exact HgA.
Qed.

Lemma add_leaf_on_both_witness :
  exists st',
    reduce_body 0 1 add_left_leaf_4 = Some (Continue, st')
    /\ cost (wrk st') = 1
    /\ free_stk (wrk st') 2 = [1; 3]
    /\ ask_lnk (wrk st') 0 = Ctr 2 30 9
    /\ ask_lnk (wrk st') 9 = Cal 2 _ADDLEFTLEAF_ 7
    /\ ask_lnk (wrk st') 7 = Num 4
    /\ ask_lnk (wrk st') 8 = Ctr 1 31 5
    /\ ask_lnk (wrk st') 10 = Ctr 1 31 6.
Proof.
  destruct (add_leaf_on_both 0 1 add_left_leaf_4 true)
    as (st' & Hbody & _ & _ & _ & Hcost & _ & Hf2 & H0 & H9 & H7 & H8 & H10 & _).
  - discriminate.
  - reflexivity.
  - reflexivity.
  - reflexivity.
  - reflexivity.
  - reflexivity.
  - vm_compute. discriminate.
  - vm_compute. discriminate.
  - vm_compute. discriminate.
  - vm_compute. discriminate.
  - repeat (constructor; [ vm_compute; reflexivity | ]). constructor.
  - intros z Hz Hv. exfalso. revert Hv.
    rewrite !elem_of_cons in Hz. destruct Hz as [-> | [-> | [-> | Hz]]];
      [ discriminate | discriminate | discriminate | inversion Hz ].
  - exists st'. repeat split; assumption.
Defined.
